(** * Wabrum video bot: the generation-and-approval pipeline

    A shallow embedding of the parts of the bot that drive one content
    generation run: the job store ([database/models.py], schema in
    [database/db.py]), the render service client ([services/klingai.py]),
    the curator's scoring call ([services/claude_stylist.py]), the two
    orchestrators ([services/scheduler.py], [bot/handlers.py]) and the
    approval callbacks ([bot/handlers.py]).

    External collaborators (catalog, curator, render service, chat
    transport, the wall clock) appear as explicit inputs; the SQLite
    tables are lists of rows in rowid order. *)

From Stdlib Require Import ZArith QArith String Ascii Lia.
From stdpp Require Import gmap strings list sorting.
From Equations Require Import Equations.

Local Open Scope Z_scope.

(** ** Configuration ([config.py]) *)

Definition PRODUCTS_TO_SELECT_DAILY : nat := 5.
Definition KLINGAI_POLLING_INTERVAL : Z := 30.
Definition KLINGAI_TASK_TIMEOUT : Z := 600.
Definition DAILY_GENERATION_HOUR_UTC : Z := 4.

(** ** Exceptions and results *)

Inductive exn :=
| APIError            (* anthropic.APIError *)
| ClientError         (* aiohttp.ClientError and its subclasses *)
| ValueError
| KeyError
| AttributeError
| RuntimeError
| TimeoutError.       (* asyncio.TimeoutError *)

Inductive result (A : Type) :=
| Return (a : A)
| Raise (e : exn).
Arguments Return {A} a.
Arguments Raise {A} e.

(** ** Clock readings and their text forms

    A clock reading is what [datetime.now(timezone.utc)] holds: the civil
    fields of the current UTC instant. *)

Record datetime := mk_datetime {
  dt_year : Z; dt_month : Z; dt_day : Z;
  dt_hour : Z; dt_minute : Z; dt_second : Z; dt_microsecond : Z }.

Definition wf_datetime (d : datetime) : Prop :=
  1 <= dt_year d <= 9999 /\ 1 <= dt_month d <= 12 /\ 1 <= dt_day d <= 31 /\
  0 <= dt_hour d <= 23 /\ 0 <= dt_minute d <= 59 /\ 0 <= dt_second d <= 59 /\
  0 <= dt_microsecond d <= 999999.

Definition digit (n : Z) : ascii := ascii_of_N (Z.to_N (48 + n)).

Definition pad2 (n : Z) : string :=
  String (digit (n / 10)) (String (digit (n mod 10)) EmptyString).

Definition pad4 (n : Z) : string := pad2 (n / 100) +:+ pad2 (n mod 100).

Definition pad6 (n : Z) : string :=
  pad2 (n / 10000) +:+ pad2 ((n / 100) mod 100) +:+ pad2 (n mod 100).

(** The ten characters [YYYY-MM-DD] both text forms start with. *)
Definition date_text (d : datetime) : string :=
  pad4 (dt_year d) +:+ "-" +:+ pad2 (dt_month d) +:+ "-" +:+ pad2 (dt_day d).

Definition time_text (d : datetime) : string :=
  pad2 (dt_hour d) +:+ ":" +:+ pad2 (dt_minute d) +:+ ":" +:+ pad2 (dt_second d).

(** SQLite's [CURRENT_TIMESTAMP], the default of every [created_at] column
    ([database/db.py]): the text [YYYY-MM-DD HH:MM:SS], in UTC. *)
Definition CURRENT_TIMESTAMP (d : datetime) : string :=
  date_text d +:+ " " +:+ time_text d.

(** Python's [datetime.isoformat()] of an aware UTC value:
    [YYYY-MM-DDTHH:MM:SS+00:00], with [.ffffff] when microseconds are set. *)
Definition isoformat (d : datetime) : string :=
  date_text d +:+ "T" +:+ time_text d +:+
  (if dt_microsecond d =? 0 then "" else "." +:+ pad6 (dt_microsecond d)) +:+
  "+00:00".

(** [now.replace(hour=0, minute=0, second=0, microsecond=0)] *)
Definition replace_midnight (d : datetime) : datetime :=
  {| dt_year := dt_year d; dt_month := dt_month d; dt_day := dt_day d;
     dt_hour := 0; dt_minute := 0; dt_second := 0; dt_microsecond := 0 |}.

(** SQLite compares two TEXT values bytewise (BINARY collation); the column
    type TIMESTAMP has NUMERIC affinity, which leaves a text that is not a
    number as text. *)
Definition sql_text_ge (a b : string) : bool :=
  match String.compare a b with Lt => false | _ => true end.

(** The UTC calendar date of a reading, compared field by field. *)
Definition utc_date (d : datetime) : Z * Z * Z := (dt_year d, dt_month d, dt_day d).

Definition date_compare (a b : Z * Z * Z) : comparison :=
  let '(y1, m1, d1) := a in
  let '(y2, m2, d2) := b in
  match y1 ?= y2 with
  | Eq => match m1 ?= m2 with Eq => d1 ?= d2 | c => c end
  | c => c
  end.

(** *** The business calendar (UTC+5, Ashgabat)

    The source never computes it; these definitions follow the
    specification's words so that "the same business day" can be stated. Days are counted
    from 1970-01-01 by the usual civil-calendar arithmetic. *)

Definition days_from_civil (y m d : Z) : Z :=
  let y' := if m <=? 2 then y - 1 else y in
  let era := y' / 400 in
  let yoe := y' - era * 400 in
  let mp := if m >? 2 then m - 3 else m + 9 in
  let doy := (153 * mp + 2) / 5 + d - 1 in
  let doe := yoe * 365 + yoe / 4 - yoe / 100 + doy in
  era * 146097 + doe - 719468.

Definition civil_from_days (z : Z) : Z * Z * Z :=
  let z' := z + 719468 in
  let era := z' / 146097 in
  let doe := z' - era * 146097 in
  let yoe := (doe - doe / 1460 + doe / 36524 - doe / 146096) / 365 in
  let doy := doe - (365 * yoe + yoe / 4 - yoe / 100) in
  let mp := (5 * doy + 2) / 153 in
  let d := doy - (153 * mp + 2) / 5 + 1 in
  let m := if mp <? 10 then mp + 3 else mp - 9 in
  let y := yoe + era * 400 in
  (if m <=? 2 then y + 1 else y, m, d).

Definition epoch_seconds (d : datetime) : Z :=
  days_from_civil (dt_year d) (dt_month d) (dt_day d) * 86400
  + dt_hour d * 3600 + dt_minute d * 60 + dt_second d.

Definition ASHGABAT_OFFSET_HOURS : Z := 5.

Definition business_date (d : datetime) : Z * Z * Z :=
  civil_from_days ((epoch_seconds d + ASHGABAT_OFFSET_HOURS * 3600) / 86400).

(** ** The job store ([database/db.py], [database/models.py]) *)

Record product_row := {
  p_id : Z;
  p_cscart_id : string;
  p_name : string;
  p_category : option string;
  p_image_url : option string;
  p_price : option Q;
  p_vendor : option string;
  p_ai_score : Q;
  p_created_at : string }.

Record video_task_row := {
  vt_id : Z;
  vt_product_id : Z;
  vt_klingai_task_id : option string;
  vt_prompt : option string;
  vt_prompt_type : option string;
  vt_status : string;
  vt_video_url : option string;
  vt_telegram_message_id : option Z;
  vt_created_at : string;
  vt_updated_at : string }.

Record session_row := {
  gs_id : Z;
  gs_started_at : string;
  gs_products_fetched : Z;
  gs_products_selected : Z;
  gs_videos_generated : Z;
  gs_videos_approved : Z;
  gs_status : string }.

(** Rows are kept in rowid order. No statement of the repository deletes a
    row, so for jobs and runs, which are only ever inserted, AUTOINCREMENT
    hands out 1, 2, 3, ... The items are written by an upsert, and SQLite
    takes a number from the sequence of an AUTOINCREMENT column before the
    conflict shows: [products_seq] is the value [sqlite_sequence] holds for
    the table of items, the largest number taken so far. *)
Record db := {
  products : list product_row;
  video_tasks : list video_task_row;
  generation_sessions : list session_row;
  products_seq : Z }.

Definition empty_db : db :=
  {| products := []; video_tasks := []; generation_sessions := [];
     products_seq := 0 |}.

Definition next_rowid {A} (rows : list A) : Z := Z.of_nat (length rows) + 1.

(** The rowid an INSERT into the table of items takes: one more than the
    largest of the sequence value and the rowids in the table. *)
Definition next_product_id (d : db) : Z :=
  Z.max (products_seq d) (foldr Z.max 0 (p_id <$> products d)) + 1.

Module models.

(** [upsert_product]: INSERT ... ON CONFLICT(cscart_id) DO UPDATE, then the
    SELECT of the row's id. The INSERT takes its rowid from the sequence
    first; when [cscart_id] is known the row is updated in place and that
    number stays used up. *)
Definition upsert_product (d : db) (now : datetime)
    (cscart_id name : string) (category image_url : option string)
    (price : option Q) (vendor : option string) (ai_score : Q) : db * Z :=
  let overwrite (p : product_row) :=
    if String.eqb (p_cscart_id p) cscart_id then
      {| p_id := p_id p; p_cscart_id := p_cscart_id p; p_name := name;
         p_category := category; p_image_url := image_url; p_price := price;
         p_vendor := vendor; p_ai_score := ai_score;
         p_created_at := p_created_at p |}
    else p in
  let id := next_product_id d in
  match list_find (λ p, p_cscart_id p = cscart_id) (products d) with
  | Some (_, p) =>
      ({| products := overwrite <$> products d;
          video_tasks := video_tasks d;
          generation_sessions := generation_sessions d;
          products_seq := id |}, p_id p)
  | None =>
      ({| products := products d ++
            [{| p_id := id; p_cscart_id := cscart_id; p_name := name;
                p_category := category; p_image_url := image_url;
                p_price := price; p_vendor := vendor; p_ai_score := ai_score;
                p_created_at := CURRENT_TIMESTAMP now |}];
          video_tasks := video_tasks d;
          generation_sessions := generation_sessions d;
          products_seq := id |}, id)
  end.

Definition get_product_by_cscart_id (d : db) (cscart_id : string) : option product_row :=
  snd <$> list_find (λ p, p_cscart_id p = cscart_id) (products d).

(** The rows of [video_tasks vt JOIN products p ON p.id = vt.product_id]. *)
Definition tasks_join_products (d : db) : list (video_task_row * product_row) :=
  vt ← video_tasks d;
  p ← products d;
  if bool_decide (p_id p = vt_product_id vt) then [(vt, p)] else [].

(** [product_has_video_today]: the bound is the ISO text of today's UTC
    midnight; the WHERE clause compares the stored [created_at] text with it. *)
Definition today_start (now : datetime) : datetime := replace_midnight now.

Definition has_video_where (cscart_id bound : string)
    (r : video_task_row * product_row) : bool :=
  String.eqb (p_cscart_id (snd r)) cscart_id
  && sql_text_ge (vt_created_at (fst r)) bound.

Definition product_has_video_today (d : db) (now : datetime) (cscart_id : string) : bool :=
  let bound := isoformat (today_start now) in
  let count :=
    length (filter (λ r, has_video_where cscart_id bound r = true)
                   (tasks_join_products d)) in
  bool_decide (0 < Z.of_nat count).

(** [create_video_task]: INSERT with status 'submitted'; [created_at] and
    [updated_at] take the column default. *)
Definition create_video_task (d : db) (now : datetime) (product_id : Z)
    (klingai_task_id : option string) (prompt prompt_type : string) : db * Z :=
  let id := next_rowid (video_tasks d) in
  ({| products := products d;
      video_tasks := video_tasks d ++
        [{| vt_id := id; vt_product_id := product_id;
            vt_klingai_task_id := klingai_task_id;
            vt_prompt := Some prompt; vt_prompt_type := Some prompt_type;
            vt_status := "submitted"; vt_video_url := None;
            vt_telegram_message_id := None;
            vt_created_at := CURRENT_TIMESTAMP now;
            vt_updated_at := CURRENT_TIMESTAMP now |}];
      generation_sessions := generation_sessions d;
      products_seq := products_seq d |}, id).

(** The keyword arguments the callers of [update_video_task] pass. *)
Record task_update := {
  set_status : option string;
  set_video_url : option string;
  set_telegram_message_id : option Z }.

Definition kwargs_empty (k : task_update) : bool :=
  match set_status k, set_video_url k, set_telegram_message_id k with
  | None, None, None => true
  | _, _, _ => false
  end.

Definition apply_task_update (now : datetime) (k : task_update)
    (vt : video_task_row) : video_task_row :=
  {| vt_id := vt_id vt; vt_product_id := vt_product_id vt;
     vt_klingai_task_id := vt_klingai_task_id vt;
     vt_prompt := vt_prompt vt; vt_prompt_type := vt_prompt_type vt;
     vt_status := default (vt_status vt) (set_status k);
     vt_video_url :=
       match set_video_url k with Some u => Some u | None => vt_video_url vt end;
     vt_telegram_message_id :=
       match set_telegram_message_id k with
       | Some m => Some m | None => vt_telegram_message_id vt end;
     vt_created_at := vt_created_at vt;
     vt_updated_at := isoformat now |}.

(** [update_video_task]: UPDATE video_tasks SET ... WHERE id = ?; nothing
    looks at the row's present status. *)
Definition update_video_task (d : db) (now : datetime) (task_id : Z)
    (k : task_update) : db :=
  if kwargs_empty k then d else
  {| products := products d;
     video_tasks :=
       (λ vt, if bool_decide (vt_id vt = task_id)
              then apply_task_update now k vt else vt) <$> video_tasks d;
     generation_sessions := generation_sessions d;
     products_seq := products_seq d |}.

Definition get_video_task (d : db) (task_id : Z) : option video_task_row :=
  snd <$> list_find (λ vt, vt_id vt = task_id) (video_tasks d).

Definition get_task_with_product (d : db) (task_id : Z)
    : option (video_task_row * product_row) :=
  snd <$> list_find (λ r, vt_id (fst r) = task_id) (tasks_join_products d).

(** [create_session]: INSERT INTO generation_sessions (status) VALUES ('running'). *)
Definition create_session (d : db) (now : datetime) : db * Z :=
  let id := next_rowid (generation_sessions d) in
  ({| products := products d; video_tasks := video_tasks d;
      generation_sessions := generation_sessions d ++
        [{| gs_id := id; gs_started_at := CURRENT_TIMESTAMP now;
            gs_products_fetched := 0; gs_products_selected := 0;
            gs_videos_generated := 0; gs_videos_approved := 0;
            gs_status := "running" |}];
      products_seq := products_seq d |}, id).

Record session_update := {
  set_products_fetched : option Z;
  set_products_selected : option Z;
  set_videos_generated : option Z;
  set_session_status : option string }.

Definition session_kwargs_empty (k : session_update) : bool :=
  match set_products_fetched k, set_products_selected k,
        set_videos_generated k, set_session_status k with
  | None, None, None, None => true
  | _, _, _, _ => false
  end.

Definition apply_session_update (k : session_update) (s : session_row) : session_row :=
  {| gs_id := gs_id s; gs_started_at := gs_started_at s;
     gs_products_fetched := default (gs_products_fetched s) (set_products_fetched k);
     gs_products_selected := default (gs_products_selected s) (set_products_selected k);
     gs_videos_generated := default (gs_videos_generated s) (set_videos_generated k);
     gs_videos_approved := gs_videos_approved s;
     gs_status := default (gs_status s) (set_session_status k) |}.

Definition update_session (d : db) (session_id : Z) (k : session_update) : db :=
  if session_kwargs_empty k then d else
  {| products := products d; video_tasks := video_tasks d;
     generation_sessions :=
       (λ s, if bool_decide (gs_id s = session_id)
             then apply_session_update k s else s) <$> generation_sessions d;
     products_seq := products_seq d |}.

End models.

(** ** Catalog items ([services/cscart.py], [_normalize_product]) *)

Record item := {
  it_cscart_id : string;
  it_name : string;
  it_category : string;
  it_image_url : string;
  it_price : Q;
  it_vendor : string;
  it_timestamp : Z }.

(** ** Fetch: concatenate and de-duplicate
    ([scheduler.daily_generation_job], [handlers.cmd_generate]) *)

Definition dedup_step (st : gset string * list item) (p : item)
    : gset string * list item :=
  let '(seen, all_products) := st in
  if decide (it_cscart_id p ∈ seen) then st
  else ({[it_cscart_id p]} ∪ seen, all_products ++ [p]).

Definition deduplicate (new_products popular_products : list item) : list item :=
  snd (foldl dedup_step (∅, []) (new_products ++ popular_products)).

(** The specification's wording, as a second definition: an element is
    kept exactly when its id does not occur among the elements before it. *)
Fixpoint keep_first_seen (earlier l : list item) : list item :=
  match l with
  | [] => []
  | p :: l' =>
      (if bool_decide (it_cscart_id p ∈ it_cscart_id <$> earlier) then [] else [p])
      ++ keep_first_seen (earlier ++ [p]) l'
  end.

Definition first_occurrences (l : list item) : list item := keep_first_seen [] l.

(** [product_map = {p["cscart_id"]: p for p in all_products}] *)
Definition product_map_of (all_products : list item) : gmap string item :=
  foldl (λ m p, <[it_cscart_id p := p]> m) ∅ all_products.

(** ** The curator's scoring call ([services/claude_stylist.py]) *)

(** One entry of the ranking, an object with the keys the orchestrators
    read: [cscart_id] is indexed, the others are read with [.get]. *)
Record scored := {
  s_cscart_id : string;
  s_score : option Q;
  s_reasoning : option string;
  s_selected : option bool }.

Inductive json_kind := JsonArray | JsonString | JsonNumber | JsonBool | JsonNull.

(** What [json.loads] makes of the reply text. *)
Inductive curator_text :=
| NotJson                                   (* json.JSONDecodeError *)
| JsonOther (k : json_kind)                 (* valid JSON, top level not an object *)
| JsonObject (ranked_products : option (list scored)).

Inductive curator_reply :=
| ReplyApiError                             (* client.messages.create raises *)
| ReplyText (t : curator_text).

Module claude_stylist.

Definition fallback_ranking (products : list item) : list scored :=
  imap (λ i p, {| s_cscart_id := it_cscart_id p; s_score := Some 5%Q;
                  s_reasoning := Some "Fallback";
                  s_selected := Some (bool_decide (i < PRODUCTS_TO_SELECT_DAILY)%nat) |})
       products.

Definition select_and_score_products (products : list item)
    (reply : curator_reply) : result (list scored) :=
  match reply with
  | ReplyApiError => Raise APIError
  | ReplyText NotJson => Return (fallback_ranking products)
  | ReplyText (JsonOther _) => Raise AttributeError       (* result.get *)
  | ReplyText (JsonObject ranked_products) =>
      let ranked := default [] ranked_products in
      match ranked with
      | [] => Return ranked
      | s :: _ =>
          match s_score s with                            (* ranked[0]['score'] *)
          | Some _ => Return ranked
          | None => Raise KeyError
          end
      end
  end.

(** One generated instruction: [{type, prompt}], both read with [.get]. *)
Record prompt_data := { pd_type : option string; pd_prompt : option string }.

End claude_stylist.

(** ** Selection with fallback (step 2 of both orchestrators) *)

Definition is_selected (s : scored) : bool := default false (s_selected s).
Definition score_key (s : scored) : Q := default 0%Q (s_score s).

(** [list.sort(key=..., reverse=True)] is a stable sort by descending key:
    entries with equal keys keep their order. *)
Fixpoint insert_desc (x : scored) (l : list scored) : list scored :=
  match l with
  | [] => [x]
  | y :: l' =>
      if Qle_bool (score_key y) (score_key x) then x :: y :: l'
      else y :: insert_desc x l'
  end.

Definition sort_by_score_desc (l : list scored) : list scored :=
  foldr insert_desc [] l.

Definition mark_selected (s : scored) : scored :=
  {| s_cscart_id := s_cscart_id s; s_score := s_score s;
     s_reasoning := s_reasoning s; s_selected := Some true |}.

(** Returns the ranking as it stands afterwards (sorted in place, the taken
    entries marked: the two lists share their entries) and the selection. *)
Definition select_for_generation (n : nat) (ranking : list scored)
    : list scored * list scored :=
  match filter (λ s, is_selected s = true) ranking with
  | [] =>
      let sorted := sort_by_score_desc ranking in
      let selected := mark_selected <$> take n sorted in
      (selected ++ drop n sorted, selected)
  | selected => (ranking, selected)
  end.

(** ** The render service client ([services/klingai.py]) *)

Module klingai.

Inductive io :=
| HttpPost (attempt : nat)
| HttpGet (poll : nat)
| Sleep (secs : Z).

Record post_body := {
  b_code : option Z;                        (* data.get("code") *)
  b_task_id : option string }.              (* data["data"]["task_id"] *)

Inductive post_outcome :=
| PostClientError                           (* the request itself raises *)
| PostResponse (status : Z) (body : post_body).

Definition max_retries : nat := 3.

(** The body of [for attempt in range(max_retries)], and the statement
    after the loop. *)
Fixpoint create_attempts (script : nat → post_outcome) (attempts : list nat)
    : result string * list io :=
  match attempts with
  | [] => (Raise RuntimeError, [])
  | attempt :: rest =>
      let retry_after (secs : Z) :=
        let '(r, tr) := create_attempts script rest in
        (r, HttpPost attempt :: Sleep secs :: tr) in
      let on_client_error :=
        if bool_decide (attempt = max_retries - 1)%nat
        then (Raise ClientError, [HttpPost attempt])
        else retry_after 5 in
      match script attempt with
      | PostClientError => on_client_error
      | PostResponse status body =>
          if status =? 429 then retry_after (2 ^ Z.of_nat attempt * 5)
          else if status >=? 500 then retry_after 60
          else if status >=? 400 then on_client_error   (* raise_for_status *)
          else
            match b_code body with
            | Some 0 =>
                match b_task_id body with
                | Some task_id => (Return task_id, [HttpPost attempt])
                | None => (Raise KeyError, [HttpPost attempt])
                end
            | _ => (Raise ValueError, [HttpPost attempt])
            end
      end
  end.

Definition create_video_task (script : nat → post_outcome) : result string * list io :=
  create_attempts script (seq 0 max_retries).

Definition is_post (e : io) : bool :=
  match e with HttpPost _ => true | _ => false end.

Definition is_get (e : io) : bool :=
  match e with HttpGet _ => true | _ => false end.

Definition posts (tr : list io) : nat := length (List.filter is_post tr).

Definition sleeps (tr : list io) : list Z :=
  omap (λ e, match e with Sleep s => Some s | _ => None end) tr.

Record video := { v_url : option string; v_id : option string; v_duration : option string }.

(** A member of a JSON object that the code goes on to read with [.get]. *)
Inductive member (A : Type) :=
| Missing                                   (* no such key *)
| NotAnObject                               (* null, or another value without .get *)
| AnObject (a : A).
Arguments Missing {A}.
Arguments NotAnObject {A}.
Arguments AnObject {A} a.

(** The object under [data]: its status, its message, and [task_result]
    with the list under [videos] (empty when there is none). *)
Record task_data := {
  task_status : option string;
  task_status_msg : option string;
  task_result : member (list video) }.

(** What a status request comes to. Only [aiohttp.ClientError] is caught
    by [get_task_status]; the other failures leave it as exceptions. *)
Inductive get_outcome :=
| GetClientError (msg : string)             (* incl. raise_for_status *)
| GetTimeout                                (* ClientTimeout(total=15): asyncio.TimeoutError *)
| GetNotJson                                (* resp.json(): json.JSONDecodeError, a ValueError *)
| GetNotObject                              (* a JSON body that is no object *)
| GetResponse (code : option Z) (message : option string) (data : member task_data).

Record status_result := {
  r_task_id : string;
  r_status : string;
  r_video_url : option string;
  r_video_id : option string;
  r_duration : option string;
  r_error : option string }.

Definition bare_result (task_id status : string) (error : option string) : status_result :=
  {| r_task_id := task_id; r_status := status; r_video_url := None;
     r_video_id := None; r_duration := None; r_error := error |}.

Definition get_task_status (task_id : string) (reply : get_outcome)
    : result status_result :=
  match reply with
  | GetClientError msg => Return (bare_result task_id "error" (Some msg))
  | GetTimeout => Raise TimeoutError
  | GetNotJson => Raise ValueError
  | GetNotObject => Raise AttributeError                  (* data.get *)
  | GetResponse code message data =>
      if bool_decide (code = Some 0) then
        match data with
        | Missing => Raise KeyError                       (* data["data"] *)
        | NotAnObject => Raise AttributeError             (* task_data.get *)
        | AnObject task_data =>
            let status := default "unknown" (task_status task_data) in
            if String.eqb status "succeed" then
              match task_result task_data with
              | NotAnObject => Raise AttributeError       (* task_result.get *)
              | AnObject (v :: _) =>
                  Return {| r_task_id := task_id; r_status := status;
                            r_video_url := Some (default "" (v_url v));
                            r_video_id := Some (default "" (v_id v));
                            r_duration := Some (default "" (v_duration v));
                            r_error := None |}
              | _ => Return (bare_result task_id status None)
              end
            else if String.eqb status "failed" then
              Return (bare_result task_id status
                        (Some (default "Generation failed" (task_status_msg task_data))))
            else Return (bare_result task_id status None)
        end
      else Return (bare_result task_id "failed"
                     (Some (default "Unknown error" message)))
  end.

Definition timeout_result (task_id : string) : status_result :=
  bare_result task_id "failed" (Some "Timeout").

Definition terminal (r : status_result) : bool :=
  String.eqb (r_status r) "succeed" || String.eqb (r_status r) "failed".

(** The [while elapsed < timeout] loop; [k] counts the polls made so far.
    The loop has no handler: what [get_task_status] raises leaves it. *)
Equations? poll_loop (task_id : string) (replies : nat → get_outcome)
    (timeout elapsed : Z) (k : nat) : result status_result * list io
    by wf (Z.to_nat (timeout - elapsed)) lt :=
  poll_loop task_id replies timeout elapsed k with Z_lt_dec elapsed timeout => {
    | left _ =>
        match get_task_status task_id (replies k) with
        | Raise ex => (Raise ex, [HttpGet k])
        | Return result =>
            if terminal result then (Return result, [HttpGet k])
            else
              let '(r, tr) :=
                poll_loop task_id replies timeout
                          (elapsed + KLINGAI_POLLING_INTERVAL) (S k) in
              (r, HttpGet k :: Sleep KLINGAI_POLLING_INTERVAL :: tr)
        end;
    | right _ => (Return (timeout_result task_id), []) }.
Proof. unfold KLINGAI_POLLING_INTERVAL. lia. Qed.

Definition poll_task_until_done (task_id : string) (timeout : option Z)
    (replies : nat → get_outcome) : result status_result * list io :=
  poll_loop task_id replies (default KLINGAI_TASK_TIMEOUT timeout) 0 0%nat.

Definition polls (tr : list io) : nat := length (List.filter is_get tr).

End klingai.

(** ** The world a run acts on

    The collaborators are inputs: the clock gives the reading seen by the
    n-th statement that reads it, the render service answers the n-th
    submission's attempts and each handle's polls (or fails to), the chat
    transport may fail to deliver a video. Plain text messages are taken
    to be delivered. *)

Inductive notice :=
| RunStarted
| ProductsFetched (n : Z)
| ProductsSelected (n : Z)
| NoProducts
| TasksSubmitted (total : Z)
| NoTasksCreated
| RunFinished (completed total : Z)
| RunFailed (e : exn)
| TaskFailed (task_id : Z)
| VideoSent (recipient task_id : Z)
| VideoNotSent (recipient task_id : Z)
| VideoWithoutUrl (recipient task_id : Z).

Inductive event :=
| Notice (n : notice)
| Io (e : klingai.io)
| LogError (e : exn).

Record env := {
  clock : nat → datetime;
  admins : list Z;                                     (* TELEGRAM_ADMIN_IDS *)
  get_new_products : result (list item);               (* cscart *)
  get_popular_products : result (list item);
  curator_scoring : list item → curator_reply;
  generate_prompts : item → result (list claude_stylist.prompt_data);
  http_post : nat → nat → klingai.post_outcome;        (* submission, attempt *)
  http_get : string → nat → klingai.get_outcome;       (* handle, poll *)
  send_video : Z → Z → option Z }.                     (* recipient, task: message id *)

Record world := {
  w_db : db;
  w_tick : nat;                (* clock readings taken so far *)
  w_submissions : nat;         (* render submissions made so far *)
  w_trace : list event }.

Definition M (A : Type) : Type := world → result A * world.

Definition ret {A} (a : A) : M A := λ w, (Return a, w).

Definition bind {A B} (m : M A) (k : A → M B) : M B :=
  λ w, match m w with
       | (Return a, w') => k a w'
       | (Raise e, w') => (Raise e, w')
       end.

Notation "x <- m ;; k" := (bind m (λ x, k))
  (at level 100, m at next level, right associativity).
Notation "m ;; k" := (bind m (λ _, k))
  (at level 100, right associativity).

(** [try: m except Exception as e: h e] *)
Definition try_except {A} (m : M A) (h : exn → M A) : M A :=
  λ w, match m w with
       | (Return a, w') => (Return a, w')
       | (Raise e, w') => h e w'
       end.

Definition lift {A} (r : result A) : M A := λ w, (r, w).

(** [asyncio.create_task(m)]: the task runs on its own, and an exception
    that ends it stays with the task: no caller sees it. The task is run
    here to its end at the point where it is created. *)
Definition create_task (m : M unit) : M unit := try_except m (λ _, ret tt).

Definition emit (ev : event) : M unit :=
  λ w, (Return tt, {| w_db := w_db w; w_tick := w_tick w;
                      w_submissions := w_submissions w;
                      w_trace := w_trace w ++ [ev] |}).

Definition emit_io (tr : list klingai.io) : M unit :=
  λ w, (Return tt, {| w_db := w_db w; w_tick := w_tick w;
                      w_submissions := w_submissions w;
                      w_trace := w_trace w ++ (Io <$> tr) |}).

Definition read_db {A} (f : db → A) : M A := λ w, (Return (f (w_db w)), w).

Definition write_db {A} (f : db → db * A) : M A :=
  λ w, let '(d, a) := f (w_db w) in
       (Return a, {| w_db := d; w_tick := w_tick w;
                     w_submissions := w_submissions w; w_trace := w_trace w |}).

Fixpoint foldM {A S} (f : S → A → M S) (s : S) (l : list A) : M S :=
  match l with
  | [] => ret s
  | a :: l' => s' <- f s a ;; foldM f s' l'
  end.

Section run.
Variable e : env.

Definition now : M datetime :=
  λ w, (Return (clock e (w_tick w)),
        {| w_db := w_db w; w_tick := S (w_tick w);
           w_submissions := w_submissions w; w_trace := w_trace w |}).

Definition next_submission : M nat :=
  λ w, (Return (w_submissions w),
        {| w_db := w_db w; w_tick := w_tick w;
           w_submissions := S (w_submissions w); w_trace := w_trace w |}).

Definition create_session : M Z :=
  t <- now ;; write_db (λ d, models.create_session d t).

Definition update_session (session_id : Z) (k : models.session_update) : M unit :=
  write_db (λ d, (models.update_session d session_id k, tt)).

Definition update_video_task (task_id : Z) (k : models.task_update) : M unit :=
  if models.kwargs_empty k then ret tt
  else t <- now ;; write_db (λ d, (models.update_video_task d t task_id k, tt)).

Definition product_has_video_today (cscart_id : string) : M bool :=
  t <- now ;; read_db (λ d, models.product_has_video_today d t cscart_id).

Definition only_fetched (n : Z) : models.session_update :=
  {| models.set_products_fetched := Some n; models.set_products_selected := None;
     models.set_videos_generated := None; models.set_session_status := None |}.
Definition only_selected (n : Z) : models.session_update :=
  {| models.set_products_fetched := None; models.set_products_selected := Some n;
     models.set_videos_generated := None; models.set_session_status := None |}.
Definition only_generated (n : Z) : models.session_update :=
  {| models.set_products_fetched := None; models.set_products_selected := None;
     models.set_videos_generated := Some n; models.set_session_status := None |}.
Definition only_status (s : string) : models.session_update :=
  {| models.set_products_fetched := None; models.set_products_selected := None;
     models.set_videos_generated := None; models.set_session_status := Some s |}.

Definition status_only (s : string) : models.task_update :=
  {| models.set_status := Some s; models.set_video_url := None;
     models.set_telegram_message_id := None |}.

(** *** Steps both orchestrators spell out in the same way *)

(** "Save all scored products": upsert every ranked entry the catalog knows. *)
Definition save_scored (product_map : gmap string item) (ranking : list scored) : M unit :=
  foldM (λ _ s,
    match product_map !! s_cscart_id s with
    | None => ret tt
    | Some p =>
        t <- now ;;
        write_db (λ d,
          (fst (models.upsert_product d t (s_cscart_id s) (it_name p)
                  (Some (it_category p)) (Some (it_image_url p))
                  (Some (it_price p)) (Some (it_vendor p)) (score_key s)), tt))
    end) tt ranking.

(** One pass of [for prompt_data in prompts]: the submission and the row
    insert sit in a [try] whose handler logs and goes on. *)
Definition submit_prompt (product : item) (db_product : product_row)
    (acc : list Z * Z) (pd : claude_stylist.prompt_data) : M (list Z * Z) :=
  let prompt_text := default "" (claude_stylist.pd_prompt pd) in
  let prompt_type := default "unknown" (claude_stylist.pd_type pd) in
  if String.eqb prompt_text "" then ret acc
  else
    try_except
      (n <- next_submission ;;
       let '(r, tr) := klingai.create_video_task (http_post e n) in
       emit_io tr ;;
       klingai_task_id <- lift r ;;
       t <- now ;;
       task_id <- write_db (λ d,
         models.create_video_task d t (p_id db_product) (Some klingai_task_id)
                                  prompt_text prompt_type) ;;
       ret (fst acc ++ [task_id], snd acc + 1))
      (λ ex, emit (LogError ex) ;; ret acc).

(** One pass of [for sel in selected]. *)
Definition tasks_for_selected (product_map : gmap string item)
    (acc : list Z * Z) (sel : scored) : M (list Z * Z) :=
  let cid := s_cscart_id sel in
  match product_map !! cid with
  | None => ret acc
  | Some product =>
      skip <- product_has_video_today cid ;;
      if skip : bool then ret acc
      else
        db_product <- read_db (λ d, models.get_product_by_cscart_id d cid) ;;
        match db_product with
        | None => ret acc
        | Some db_product =>
            prompts <- lift (generate_prompts e product) ;;
            foldM (submit_prompt product db_product) acc prompts
        end
  end.

Definition create_tasks (product_map : gmap string item) (selected : list scored)
    : M (list Z * Z) :=
  foldM (tasks_for_selected product_map) ([], 0) selected.

(** [_send_video_for_approval], as far as the store sees it. *)
Definition send_video_for_approval (recipient : Z)
    (task : video_task_row * product_row) : M unit :=
  let task_id := vt_id (fst task) in
  match vt_video_url (fst task) with
  | Some url =>
      if String.eqb url "" then emit (Notice (VideoWithoutUrl recipient task_id))
      else
        match send_video e recipient task_id with
        | Some message_id =>
            emit (Notice (VideoSent recipient task_id)) ;;
            update_video_task task_id
              {| models.set_status := None; models.set_video_url := None;
                 models.set_telegram_message_id := Some message_id |}
        | None => emit (Notice (VideoNotSent recipient task_id))
        end
  | None => emit (Notice (VideoWithoutUrl recipient task_id))
  end.

(** One pass of the poll loop over the created jobs. [recipients] are the
    chats a finished video goes to; [announce] tells whether a failed job is
    reported to the chat (manual run) or only logged (scheduled run). *)
Definition poll_one (recipients : list Z) (announce : bool)
    (completed : Z) (task_id : Z) : M Z :=
  task <- read_db (λ d, models.get_video_task d task_id) ;;
  match task with
  | None => ret completed
  | Some task =>
      match vt_klingai_task_id task with
      | None => ret completed
      | Some handle =>
          if String.eqb handle "" then ret completed
          else
            let '(polled, tr) :=
              klingai.poll_task_until_done handle None (http_get e handle) in
            emit_io tr ;;
            result <- lift polled ;;
            completed' <-
              (if String.eqb (klingai.r_status result) "succeed" then
                 update_video_task task_id
                   {| models.set_status := Some "succeed";
                      models.set_video_url :=
                        Some (default "" (klingai.r_video_url result));
                      models.set_telegram_message_id := None |} ;;
                 task_with_product <-
                   read_db (λ d, models.get_task_with_product d task_id) ;;
                 match task_with_product with
                 | Some twp =>
                     foldM (λ _ r, send_video_for_approval r twp) tt recipients
                 | None => ret tt
                 end ;;
                 ret (completed + 1)
               else
                 update_video_task task_id (status_only "failed") ;;
                 (if announce then emit (Notice (TaskFailed task_id)) else ret tt) ;;
                 ret completed) ;;
            emit (Io (klingai.Sleep 2)) ;;
            ret completed'
      end
  end.

Definition poll_all (recipients : list Z) (announce : bool) (task_ids : list Z) : M Z :=
  foldM (poll_one recipients announce) 0 task_ids.

End run.

(** ** The scheduled run ([services/scheduler.py]) *)

Module scheduler.
Section job.
Variable e : env.

(** Step 5 and the end of the run: poll the created jobs in order. *)
Definition finish_run (session_id : Z) (created : list Z * Z) : M unit :=
  let '(task_ids, total_tasks) := created in
  update_session session_id (only_generated total_tasks) ;;
  emit (Notice (TasksSubmitted total_tasks)) ;;
  match task_ids with
  | [] =>
      emit (Notice NoTasksCreated) ;;
      update_session session_id (only_status "failed")
  | _ =>
      completed <- poll_all e (admins e) false task_ids ;;
      update_session session_id (only_status "completed") ;;
      emit (Notice (RunFinished completed total_tasks))
  end.

(** Steps 3 and 4: save the scores, create the jobs. *)
Definition after_curation (session_id : Z) (all_products : list item)
    (ranking selected : list scored) : M unit :=
  update_session session_id (only_selected (Z.of_nat (length selected))) ;;
  let product_map := product_map_of all_products in
  save_scored e product_map ranking ;;
  created <- create_tasks e product_map selected ;;
  finish_run session_id created.

(** Steps 1 and 2: fetch, de-duplicate, score and select. *)
Definition job_body (session_id : Z) : M unit :=
  emit (Notice RunStarted) ;;
  new_products <- lift (get_new_products e) ;;
  popular_products <- lift (get_popular_products e) ;;
  let all_products := deduplicate new_products popular_products in
  update_session session_id (only_fetched (Z.of_nat (length all_products))) ;;
  match all_products with
  | [] =>
      emit (Notice NoProducts) ;;
      update_session session_id (only_status "failed")
  | _ =>
      ranking <- lift (claude_stylist.select_and_score_products all_products
                         (curator_scoring e all_products)) ;;
      let '(ranking, selected) :=
        select_for_generation PRODUCTS_TO_SELECT_DAILY ranking in
      after_curation session_id all_products ranking selected
  end.

Definition daily_generation_job : M unit :=
  session_id <- create_session e ;;
  try_except (job_body session_id)
    (λ ex,
      emit (LogError ex) ;;
      update_session session_id (only_status "failed") ;;
      emit (Notice (RunFailed ex))).

End job.
End scheduler.

(** ** The manual run and the approval callbacks ([bot/handlers.py]) *)

Module handlers.
Section commands.
Variable e : env.

(** [cmd_generate] up to the point where it hands the created jobs to the
    background poller: the result is the poller's arguments, if it starts.
    The session row is inserted after the selection ("Save products to DB"). *)
Definition generate_after_curation (all_products : list item)
    (ranking selected : list scored) : M (option (list Z * Z)) :=
  session_id <- create_session e ;;
  update_session session_id
    {| models.set_products_fetched := Some (Z.of_nat (length all_products));
       models.set_products_selected := Some (Z.of_nat (length selected));
       models.set_videos_generated := None;
       models.set_session_status := None |} ;;
  let product_map := product_map_of all_products in
  save_scored e product_map ranking ;;
  emit (Notice (ProductsSelected (Z.of_nat (length selected)))) ;;
  created <- create_tasks e product_map selected ;;
  let '(tasks_created, total_tasks) := created in
  update_session session_id (only_generated total_tasks) ;;
  emit (Notice (TasksSubmitted total_tasks)) ;;
  match tasks_created with
  | [] =>
      emit (Notice NoTasksCreated) ;;
      update_session session_id (only_status "failed") ;;
      ret None
  | _ => ret (Some (tasks_created, session_id))
  end.

Definition cmd_generate : M (option (list Z * Z)) :=
  try_except
    (new_products <- lift (get_new_products e) ;;
     popular_products <- lift (get_popular_products e) ;;
     let all_products := deduplicate new_products popular_products in
     match all_products with
     | [] => emit (Notice NoProducts) ;; ret None
     | _ =>
         emit (Notice (ProductsFetched (Z.of_nat (length all_products)))) ;;
         ranking <- lift (claude_stylist.select_and_score_products all_products
                            (curator_scoring e all_products)) ;;
         let '(ranking, selected) := select_for_generation 5 ranking in
         generate_after_curation all_products ranking selected
     end)
    (λ ex, emit (LogError ex) ;; emit (Notice (RunFailed ex)) ;; ret None).

Definition _poll_and_send_videos (chat_id : Z) (task_ids : list Z)
    (session_id : option Z) : M unit :=
  let total := Z.of_nat (length task_ids) in
  completed <- poll_all e [chat_id] true task_ids ;;
  match session_id with
  | Some sid =>
      if sid =? 0 then ret tt
      else update_session sid
             {| models.set_products_fetched := None;
                models.set_products_selected := None;
                models.set_videos_generated := Some total;
                models.set_session_status := Some "completed" |}
  | None => ret tt
  end ;;
  if 0 <? completed then emit (Notice (RunFinished completed total))
  else if 0 <? total then emit (Notice (RunFinished 0 total))
  else ret tt.

(** The manual run from the command to the end of its background poller. *)
Definition manual_run (chat_id : Z) : M unit :=
  started <- cmd_generate ;;
  match started with
  | Some (task_ids, session_id) =>
      create_task (_poll_and_send_videos chat_id task_ids (Some session_id))
  | None => ret tt
  end.

End commands.

(** The callbacks: each is one unconditional UPDATE of the row's status. *)
Definition _handle_approve (d : db) (t : datetime) (task_id : Z) : db :=
  models.update_video_task d t task_id (status_only "approved").

Definition _handle_reject (d : db) (t : datetime) (task_id : Z) : db :=
  models.update_video_task d t task_id (status_only "rejected").

Definition _handle_publish (d : db) (t : datetime) (task_id : Z) : db :=
  models.update_video_task d t task_id (status_only "published").

End handlers.

Definition initial_world (d : db) : world :=
  {| w_db := d; w_tick := 0; w_submissions := 0; w_trace := [] |}.

Definition status_of (d : db) (task_id : Z) : option string :=
  vt_status <$> models.get_video_task d task_id.

Definition get_session (d : db) (session_id : Z) : option session_row :=
  snd <$> list_find (λ s, gs_id s = session_id) (generation_sessions d).

Definition session_status (d : db) (session_id : Z) : option string :=
  gs_status <$> get_session d session_id.


(** ** Definitions used to state the properties *)

(** *** Selection *)

(** Descending order of scores, and the entries of one score. *)
Definition score_ge (a b : scored) : Prop := (score_key b <= score_key a)%Q.

Definition has_score (v : Q) (s : scored) : bool := Qeq_bool (score_key s) v.

(** Entry [i] of the fallback ranking. *)
Definition fallback_entry (i : nat) (p : item) : scored :=
  {| s_cscart_id := it_cscart_id p; s_score := Some 5%Q;
     s_reasoning := Some "Fallback";
     s_selected := Some (bool_decide (i < PRODUCTS_TO_SELECT_DAILY)%nat) |}.

(** *** Render submission and polling *)

Module klingai_spec.
Import klingai.

(** What one attempt leads to: a pause before the next attempt, or the end
    of the call. *)
Inductive attempt_end :=
| RetryAfter (secs : Z)
| Finish (r : result string).

Definition attempt_result (attempt : nat) (o : post_outcome) : attempt_end :=
  let on_client_error :=
    if bool_decide (attempt = max_retries - 1)%nat
    then Finish (Raise ClientError) else RetryAfter 5 in
  match o with
  | PostClientError => on_client_error
  | PostResponse status body =>
      if status =? 429 then RetryAfter (2 ^ Z.of_nat attempt * 5)
      else if status >=? 500 then RetryAfter 60
      else if status >=? 400 then on_client_error
      else match b_code body, b_task_id body with
           | Some 0, Some task_id => Finish (Return task_id)
           | Some 0, None => Finish (Raise KeyError)
           | _, _ => Finish (Raise ValueError)
           end
  end.

End klingai_spec.

(** The polls a wait budget allows: one per started interval. *)
Definition polls_allowed (timeout elapsed : Z) : nat :=
  Z.to_nat ((timeout - elapsed + (KLINGAI_POLLING_INTERVAL - 1)) / KLINGAI_POLLING_INTERVAL).

(** A status call that ends the loop: it reports succeed or failed, or it
    raises. *)
Definition ends_loop (r : result klingai.status_result) : bool :=
  match r with
  | Return result => klingai.terminal result
  | Raise _ => true
  end.

(** The first of the polls [k, k + n) that ends the loop. *)
Fixpoint first_ending (task_id : string) (replies : nat → klingai.get_outcome)
    (k n : nat) : option nat :=
  match n with
  | O => None
  | S n' =>
      if ends_loop (klingai.get_task_status task_id (replies k)) then Some k
      else first_ending task_id replies (S k) n'
  end.

(** [n] polls from poll [k] on, each followed by the fixed pause. *)
Fixpoint waiting (k n : nat) : list klingai.io :=
  match n with
  | O => []
  | S n' => klingai.HttpGet k :: klingai.Sleep KLINGAI_POLLING_INTERVAL :: waiting (S k) n'
  end.

(** What the poll of one handle ends with in a run, and the status the
    orchestrator then stores. *)
Definition poll_outcome (e : env) (handle : string) : result klingai.status_result :=
  fst (klingai.poll_task_until_done handle None (http_get e handle)).

Definition stored_status (r : klingai.status_result) : string :=
  if String.eqb (klingai.r_status r) "succeed" then "succeed" else "failed".

Definition handle_of (d : db) (task_id : Z) : option (option string) :=
  vt_klingai_task_id <$> models.get_video_task d task_id.

(** The polls of the listed jobs return: none of their status requests
    raises before the poll has ended. *)
Definition polls_return (e : env) (d : db) (task_ids : list Z) : Prop :=
  ∀ id handle, id ∈ task_ids → handle_of d id = Some (Some handle) → handle ≠ "" →
               ∃ r, poll_outcome e handle = Return r.

(** *** Steps of a run *)

(** Two properties of a step of a run: it leaves the table of runs as it
    is; it returns (does not raise), whatever the world. *)
Definition keeps_sessions {A} (m : M A) : Prop :=
  ∀ w, generation_sessions (w_db (m w).2) = generation_sessions (w_db w).

Definition returns {A} (m : M A) : Prop :=
  ∀ w, ∃ a, (m w).1 = Return a.


(** The row of the run that was started last. *)
Definition last_session (d : db) : option session_row := last (generation_sessions d).

Definition add_trace (w : world) (evs : list event) : world :=
  {| w_db := w_db w; w_tick := w_tick w; w_submissions := w_submissions w;
     w_trace := w_trace w ++ evs |}.

(** The world of a scheduled run when the curator is asked: the start was
    announced and the number of fetched items recorded. *)
Definition before_curation (w : world) (session_id : Z) (fetched : nat) : world :=
  {| w_db := models.update_session (w_db w) session_id (only_fetched (Z.of_nat fetched));
     w_tick := w_tick w; w_submissions := w_submissions w;
     w_trace := w_trace w ++ [Notice RunStarted] |}.

(** *** Sample stores and runs *)

Definition C5_sample_ranking : list scored :=
  [ {| s_cscart_id := "11"; s_score := Some (7 # 1); s_reasoning := None; s_selected := None |};
    {| s_cscart_id := "12"; s_score := Some (9 # 1); s_reasoning := None; s_selected := Some false |};
    {| s_cscart_id := "13"; s_score := Some (7 # 1); s_reasoning := None; s_selected := None |};
    {| s_cscart_id := "14"; s_score := None; s_reasoning := None; s_selected := None |};
    {| s_cscart_id := "15"; s_score := Some (9 # 1); s_reasoning := None; s_selected := None |};
    {| s_cscart_id := "16"; s_score := Some (17 # 2); s_reasoning := None; s_selected := None |};
    {| s_cscart_id := "17"; s_score := Some (7 # 1); s_reasoning := None; s_selected := None |} ].

(** Item 1006 with one job, submitted on 2026-11-03 at 20:00 UTC, which is
    01:00 of 2026-11-04 in Ashgabat; the check runs at 10:00 UTC (15:00 in
    Ashgabat) of 2026-11-04. *)
Definition C1_created : datetime := mk_datetime 2026 11 3 20 0 0 0.
Definition C1_checked : datetime := mk_datetime 2026 11 4 10 0 0 0.

(** A store with item 1006 and one job submitted for it at [created]. *)
Definition store_with_job (created : datetime) : db :=
  let '(d1, pid) := models.upsert_product empty_db created "1006" "Leather bag"
                      (Some "Bags") (Some "https://wabrum.com/images/1006.jpg")
                      (Some (450 # 1)) (Some "Wabrum") (8 # 1) in
  fst (models.create_video_task d1 created pid (Some "task_mock_001")
         "Extreme close-up" "detail").

Definition C1_store : db := store_with_job C1_created.

(** Item 1006 with one job of the scheduled run of 2026-11-03 (04:05 UTC)
    whose render failed; the check of a manual run at 10:00 UTC that day. *)
Definition C10_created : datetime :=
  mk_datetime 2026 11 3 DAILY_GENERATION_HOUR_UTC 5 0 0.
Definition C10_failed_at : datetime := mk_datetime 2026 11 3 4 16 0 0.
Definition C10_checked : datetime := mk_datetime 2026 11 3 10 0 0 0.

Definition C10_store : db :=
  models.update_video_task (store_with_job C10_created) C10_failed_at 1
    (status_only "failed").

(** A store with one job whose render failed. *)
Definition C2_store : db :=
  models.update_video_task (store_with_job (mk_datetime 2026 11 3 4 0 0 0))
    (mk_datetime 2026 11 3 4 11 0 0) 1 (status_only "failed").

(** The render service answers every attempt with HTTP 400. *)
Definition C7_rejecting_service : nat → klingai.post_outcome :=
  λ _, klingai.PostResponse 400
         {| klingai.b_code := Some 1201; klingai.b_task_id := None |}.

(** A run in which the render service rejects both submissions of the
    second of three items (HTTP 200, API code 1201) and accepts the rest. *)
Definition sample_item (id : string) : item :=
  {| it_cscart_id := id; it_name := "Item " +:+ id; it_category := "Bags";
     it_image_url := "https://wabrum.com/images/" +:+ id +:+ ".jpg";
     it_price := 450 # 1; it_vendor := "Wabrum"; it_timestamp := 1793678400 |}.

Definition two_prompts : list claude_stylist.prompt_data :=
  [ {| claude_stylist.pd_type := Some "detail";
       claude_stylist.pd_prompt := Some "Extreme close-up" |};
    {| claude_stylist.pd_type := Some "lifestyle";
       claude_stylist.pd_prompt := Some "Walking through a city street" |} ].

Definition render_succeeded : klingai.get_outcome :=
  klingai.GetResponse (Some 0) None
    (klingai.AnObject
       {| klingai.task_status := Some "succeed"; klingai.task_status_msg := None;
          klingai.task_result := klingai.AnObject
            [ {| klingai.v_url := Some "https://cdn.example/video.mp4";
                 klingai.v_id := Some "v1"; klingai.v_duration := Some "5" |} ] |}).

Definition C8_env : env :=
  {| clock := λ _, mk_datetime 2026 11 3 4 0 0 0;
     admins := [7];
     get_new_products := Return [sample_item "101"; sample_item "102"];
     get_popular_products := Return [sample_item "102"; sample_item "103"];
     curator_scoring := λ _, ReplyText NotJson;
     generate_prompts := λ _, Return two_prompts;
     http_post := λ n _,
       if bool_decide (n = 2 ∨ n = 3)%nat
       then klingai.PostResponse 200
              {| klingai.b_code := Some 1201; klingai.b_task_id := None |}
       else klingai.PostResponse 200
              {| klingai.b_code := Some 0; klingai.b_task_id := Some "kling-task" |};
     http_get := λ _ _, render_succeeded;
     send_video := λ _ task_id, Some (1000 + task_id) |}.

(** The catalog returns nothing, for a scheduled and for a manual run. *)
Definition C9_env : env :=
  {| clock := λ _, mk_datetime 2026 11 3 4 0 0 0;
     admins := [7];
     get_new_products := Return [];
     get_popular_products := Return [];
     curator_scoring := λ _, ReplyText NotJson;
     generate_prompts := λ _, Return two_prompts;
     http_post := λ _ _, klingai.PostClientError;
     http_get := λ _ _, render_succeeded;
     send_video := λ _ _, None |}.

(** Three items in the catalog; the curator answers the scoring request
    with the text of a JSON array instead of the object asked for. *)
Definition C6_env : env :=
  {| clock := λ _, mk_datetime 2026 11 3 4 0 0 0;
     admins := [7];
     get_new_products := Return [sample_item "101"; sample_item "102"];
     get_popular_products := Return [sample_item "102"; sample_item "103"];
     curator_scoring := λ _, ReplyText (JsonOther JsonArray);
     generate_prompts := λ _, Return two_prompts;
     http_post := λ _ _,
       klingai.PostResponse 200
         {| klingai.b_code := Some 0; klingai.b_task_id := Some "kling-task" |};
     http_get := λ _ _, render_succeeded;
     send_video := λ _ task_id, Some (1000 + task_id) |}.

Definition render_processing : klingai.get_outcome :=
  klingai.GetResponse (Some 0) None
    (klingai.AnObject
       {| klingai.task_status := Some "processing"; klingai.task_status_msg := None;
          klingai.task_result := klingai.Missing |}).

(** Two request errors, then the finished render. *)
Definition flaky_then_succeeded (k : nat) : klingai.get_outcome :=
  if bool_decide (k < 2)%nat then klingai.GetClientError "Server disconnected"
  else render_succeeded.

(** The first status request is answered with an API error code in a body
    without [data]; from the second on the render is reported finished. *)
Definition api_error_then_succeeded (k : nat) : klingai.get_outcome :=
  if bool_decide (k = 0)%nat
  then klingai.GetResponse (Some 1303) (Some "Service busy") klingai.Missing
  else render_succeeded.

(** The first status request runs into the timeout of the request; from
    the second on the render is reported finished. *)
Definition timeout_then_succeeded (k : nat) : klingai.get_outcome :=
  if bool_decide (k = 0)%nat then klingai.GetTimeout else render_succeeded.

(** Item 1006 with two submitted jobs, and a render service whose first
    answer about the first of them times out. *)
Definition C4_store : db :=
  fst (models.create_video_task (store_with_job (mk_datetime 2026 11 3 4 0 0 0))
         (mk_datetime 2026 11 3 4 0 0 0) 1 (Some "task_mock_002")
         "Walking through a city street" "lifestyle").

Definition C4_env : env :=
  {| clock := λ _, mk_datetime 2026 11 3 4 10 0 0;
     admins := [7];
     get_new_products := Return [];
     get_popular_products := Return [];
     curator_scoring := λ _, ReplyText NotJson;
     generate_prompts := λ _, Return two_prompts;
     http_post := λ _ _, klingai.PostClientError;
     http_get := λ handle k,
       if String.eqb handle "task_mock_001" then timeout_then_succeeded k
       else render_succeeded;
     send_video := λ _ task_id, Some (1000 + task_id) |}.

(** Three items with two prompts each; the first submission is given the
    handle kling-a and every later one kling-b; the status requests for
    kling-b run into the timeout of the request. *)
Definition raising_poll_env : env :=
  {| clock := λ _, mk_datetime 2026 11 3 4 0 0 0;
     admins := [7];
     get_new_products := Return [sample_item "101"; sample_item "102"];
     get_popular_products := Return [sample_item "102"; sample_item "103"];
     curator_scoring := λ _, ReplyText NotJson;
     generate_prompts := λ _, Return two_prompts;
     http_post := λ n _,
       klingai.PostResponse 200
         {| klingai.b_code := Some 0;
            klingai.b_task_id :=
              Some (if bool_decide (n = 0)%nat then "kling-a" else "kling-b") |};
     http_get := λ handle _,
       if String.eqb handle "kling-b" then klingai.GetTimeout else render_succeeded;
     send_video := λ _ task_id, Some (1000 + task_id) |}.

Definition accepted_body : klingai.post_body :=
  {| klingai.b_code := Some 0; klingai.b_task_id := Some "kling-task" |}.

(** ** More of the job store ([database/models.py]) *)

Module queries.

(** [get_product]: by internal id. *)
Definition get_product (d : db) (product_id : Z) : option product_row :=
  snd <$> list_find (λ p, p_id p = product_id) (products d).

(** [get_pending_tasks]: status IN ('submitted', 'processing'). *)
Definition get_pending_tasks (d : db) : list video_task_row :=
  filter (λ vt, vt_status vt = "submitted" ∨ vt_status vt = "processing")
         (video_tasks d).

(** [get_tasks_by_status] *)
Definition get_tasks_by_status (d : db) (status : string) : list video_task_row :=
  filter (λ vt, vt_status vt = status) (video_tasks d).

(** ORDER BY vt.created_at DESC, on the stored text. Rows of equal
    [created_at] come in an order SQLite leaves open; here they keep the
    order of the scan. *)
Fixpoint insert_newest (r : video_task_row * product_row)
    (l : list (video_task_row * product_row)) : list (video_task_row * product_row) :=
  match l with
  | [] => [r]
  | r' :: l' =>
      if sql_text_ge (vt_created_at r.1) (vt_created_at r'.1) then r :: r' :: l'
      else r' :: insert_newest r l'
  end.

(** [get_queue_tasks]: the jobs awaiting approval, joined with their item. *)
Definition get_queue_tasks (d : db) : list (video_task_row * product_row) :=
  foldr insert_newest []
    (filter (λ r, vt_status r.1 = "succeed") (models.tasks_join_products d)).

(** [now - timedelta(days=days)]: the same time of day, [days] days earlier
    in the proleptic Gregorian calendar. *)
Definition minus_days (t : datetime) (days : Z) : datetime :=
  let '(y, m, d) :=
    civil_from_days (days_from_civil (dt_year t) (dt_month t) (dt_day t) - days) in
  {| dt_year := y; dt_month := m; dt_day := d;
     dt_hour := dt_hour t; dt_minute := dt_minute t; dt_second := dt_second t;
     dt_microsecond := dt_microsecond t |}.

Definition stats_statuses : list string :=
  ["submitted"; "processing"; "succeed"; "approved"; "rejected"; "published"; "failed"].

(** The part of [get_stats] that counts jobs: one count per status, the
    total, the latest run. (The ranking of prompt types by approvals is left
    out.) Every count has the condition [created_at >= since], on text. *)
Record stats := {
  st_counts : list (string * nat);
  st_total : nat;
  st_last_session : option session_row }.

Definition in_window (since : string) (vt : video_task_row) : bool :=
  sql_text_ge (vt_created_at vt) since.

Definition count_status (d : db) (since status : string) : nat :=
  length (filter (λ vt, vt_status vt = status ∧ in_window since vt = true)
                 (video_tasks d)).

Definition count_total (d : db) (since : string) : nat :=
  length (filter (λ vt, in_window since vt = true) (video_tasks d)).

(** ORDER BY id DESC LIMIT 1 *)
Definition newest_session (d : db) : option session_row :=
  foldl (λ best s,
           match best with
           | Some b => if gs_id b <? gs_id s then Some s else Some b
           | None => Some s
           end) None (generation_sessions d).

Definition get_stats (d : db) (now : datetime) (days : Z) : stats :=
  let since := isoformat (minus_days now days) in
  {| st_counts := (λ status, (status, count_status d since status)) <$> stats_statuses;
     st_total := count_total d since;
     st_last_session := newest_session d |}.

End queries.

(** ** Properties of stores and of steps *)

(** Rowids as AUTOINCREMENT hands them out when nothing is deleted. *)
Definition rowids {A} (id : A → Z) (rows : list A) : Prop :=
  ∀ i row, rows !! i = Some row → id row = Z.of_nat i + 1.

(** The statuses the code writes into [video_tasks.status]. *)
Definition written_statuses : list string :=
  ["submitted"; "succeed"; "failed"; "approved"; "rejected"; "published"].

(** What the schema and the code's use of it promise about a store: the
    rowids of jobs and runs in sequence, [cscart_id] unique, every job's
    [product_id] an existing item, every status one the code writes.
    Nothing is said about the ids of the items: AUTOINCREMENT also uses up
    a number when an upsert ends in the UPDATE, so these ids can have gaps;
    where a statement needs them distinct (PRIMARY KEY) it says so. *)
Record store_ok (d : db) : Prop := {
  ok_task_ids : rowids vt_id (video_tasks d);
  ok_session_ids : rowids gs_id (generation_sessions d);
  ok_unique : NoDup (p_cscart_id <$> products d);
  ok_owner : ∀ vt, vt ∈ video_tasks d → ∃ p, p ∈ products d ∧ p_id p = vt_product_id vt;
  ok_status : ∀ vt, vt ∈ video_tasks d → vt_status vt ∈ written_statuses }.

(** A step started in a store with [P] ends, when it returns [a], in a
    store with [Q a], and when it raises in a store with [E]. *)
Definition triple {A} (P : db → Prop) (m : M A) (Q : A → db → Prop)
    (E : db → Prop) : Prop :=
  ∀ w, P (w_db w) →
       match m w with
       | (Return a, w') => Q a (w_db w')
       | (Raise _, w') => E (w_db w')
       end.

(** A step keeps an invariant, whether it returns or raises. *)
Definition keeps {A} (I : db → Prop) (m : M A) : Prop :=
  triple I m (λ _, I) I.

(** A well-formed store that holds the item with internal id [product_id]. *)
Definition owned (product_id : Z) (d : db) : Prop :=
  store_ok d ∧ ∃ p, p ∈ products d ∧ p_id p = product_id.

(** The table of runs has [n] rows and the newest is the run [session_id],
    with a status in [ok]. *)
Definition run_row (session_id : Z) (n : nat) (ok : string → Prop) (d : db) : Prop :=
  length (generation_sessions d) = n
  ∧ ∃ row, last_session d = Some row ∧ gs_id row = session_id ∧ ok (gs_status row).

Definition ended (s : string) : Prop := s = "completed" ∨ s = "failed".

Definition any_status (s : string) : Prop := True.

(** What identifies a stored row and is never written again. *)
Definition product_key (p : product_row) : Z * string * string :=
  (p_id p, p_cscart_id p, p_created_at p).

Definition task_key (vt : video_task_row)
    : Z * Z * option string * option string * option string * string :=
  (vt_id vt, vt_product_id vt, vt_klingai_task_id vt, vt_prompt vt,
   vt_prompt_type vt, vt_created_at vt).

Definition session_key (s : session_row) : Z * string := (gs_id s, gs_started_at s).

(** The catalog ids the two CS-Cart queries of a run return. *)
Definition catalog (e : env) : list string :=
  it_cscart_id <$>
    (match get_new_products e with Return l => l | Raise _ => [] end
     ++ match get_popular_products e with Return l => l | Raise _ => [] end).

(** [d] came from [d0] by adding rows and rewriting the mutable columns
    only, and every item added has a catalog id in [allowed]. *)
Definition grows (allowed : list string) (d0 d : db) : Prop :=
  (product_key <$> products d0) `prefix_of` (product_key <$> products d)
  ∧ (task_key <$> video_tasks d0) `prefix_of` (task_key <$> video_tasks d)
  ∧ (session_key <$> generation_sessions d0)
      `prefix_of` (session_key <$> generation_sessions d)
  ∧ ∀ p, p ∈ products d →
         p_cscart_id p ∈ (p_cscart_id <$> products d0) ∨ p_cscart_id p ∈ allowed.

(** ** Answers of the render service to a submission *)

(** The answer carries a handle: an HTTP status below 400 and a body with
    API code 0 and a task id. *)
Definition accepted (o : klingai.post_outcome) (task_id : string) : Prop :=
  ∃ status body, o = klingai.PostResponse status body ∧ status < 400
                 ∧ klingai.b_code body = Some 0
                 ∧ klingai.b_task_id body = Some task_id.

(** The request failed or was answered with an HTTP status from 400 on. *)
Definition refused (o : klingai.post_outcome) : Prop :=
  o = klingai.PostClientError
  ∨ ∃ status body, o = klingai.PostResponse status body ∧ 400 <= status.

(** What the poll loop writes for a finished render: status succeed and the
    url of the first video, the empty text when there is none. *)
Definition succeed_update (url : string) : models.task_update :=
  {| models.set_status := Some "succeed"; models.set_video_url := Some url;
     models.set_telegram_message_id := None |}.

(** A render the service reports as finished without a usable video: no
    video at all, or a first video without url or with an empty one. *)
Definition finished_without_video (reply : klingai.get_outcome) : Prop :=
  ∃ message data,
    reply = klingai.GetResponse (Some 0) message (klingai.AnObject data)
    ∧ klingai.task_status data = Some "succeed"
    ∧ (klingai.task_result data = klingai.Missing
       ∨ ∃ videos, klingai.task_result data = klingai.AnObject videos
                   ∧ default "" (head videos ≫= klingai.v_url) = "").

(** The render service reports every job as finished, with no video. *)
Definition render_without_video : klingai.get_outcome :=
  klingai.GetResponse (Some 0) None
    (klingai.AnObject
       {| klingai.task_status := Some "succeed"; klingai.task_status_msg := None;
          klingai.task_result := klingai.AnObject [] |}).

Definition no_video_env : env :=
  {| clock := λ _, mk_datetime 2026 11 3 4 30 0 0;
     admins := [7];
     get_new_products := Return [];
     get_popular_products := Return [];
     curator_scoring := λ _, ReplyText NotJson;
     generate_prompts := λ _, Return two_prompts;
     http_post := λ _ _, klingai.PostClientError;
     http_get := λ _ _, render_without_video;
     send_video := λ _ task_id, Some (1000 + task_id) |}.

(** ** The prompt request ([services/claude_stylist.py], [generate_prompts]) *)

(** What [json.loads] makes of the reply text of the prompt request. The
    entries of the list are taken to be objects. *)
Inductive prompts_text :=
| PromptsNotJson                            (* json.JSONDecodeError *)
| PromptsJsonOther (k : json_kind)          (* valid JSON, top level not an object *)
| PromptsJsonObject (prompts : option (list claude_stylist.prompt_data)).

Inductive prompts_reply :=
| PromptsApiError                           (* client.messages.create raises *)
| PromptsText (t : prompts_text).

Definition CLOSING_LINE : string :=
  "9:16 vertical format, 5 seconds, cinematic quality".

Module claude_prompts.
Import claude_stylist.

Definition fallback_prompts (product : item) : list prompt_data :=
  [ {| pd_type := Some "detail";
       pd_prompt := Some (
         "Extreme close-up macro shot of a " +:+ it_name product +:+ ", "
         +:+ "showcasing the rich texture and fine craftsmanship. "
         +:+ "Smooth camera movement reveals intricate details. "
         +:+ "Soft natural lighting on a clean background. "
         +:+ "9:16 vertical format, 5 seconds, cinematic quality") |};
    {| pd_type := Some "lifestyle";
       pd_prompt := Some (
         "A stylish young person confidently walking through a modern city street, "
         +:+ "wearing a " +:+ it_name product
         +:+ ". Natural sunlight creates soft shadows. "
         +:+ "The camera follows with a smooth tracking shot, capturing the natural "
         +:+ "movement of fabric and confident stride. Aspirational and authentic. "
         +:+ "9:16 vertical format, 5 seconds, cinematic quality") |} ].

Definition has_type (p : prompt_data) : bool :=
  match pd_type p with Some _ => true | None => false end.

(** The log line after parsing reads [p['type']] of every prompt. *)
Definition generate_prompts (product : item) (reply : prompts_reply)
    : result (list prompt_data) :=
  match reply with
  | PromptsApiError => Raise APIError
  | PromptsText PromptsNotJson => Return (fallback_prompts product)
  | PromptsText (PromptsJsonOther _) => Raise AttributeError     (* result.get *)
  | PromptsText (PromptsJsonObject prompts) =>
      let prompts := default [] prompts in
      if forallb has_type prompts then Return prompts else Raise KeyError
  end.

End claude_prompts.

(** [s.endswith(suffix)] *)
Fixpoint ends_with (s suffix : string) : bool :=
  String.eqb s suffix
  || match s with
     | EmptyString => false
     | String _ s' => ends_with s' suffix
     end.

(** ** The jobs of one run *)

(** A job with a usable handle has been polled to its end. *)
Definition settled (vt : video_task_row) : Prop :=
  ∀ handle, vt_klingai_task_id vt = Some handle → handle ≠ "" →
            vt_status vt = "succeed" ∨ vt_status vt = "failed".

(** The jobs added since the table of jobs was [rows0]. *)
Definition own_jobs (rows0 : list video_task_row) (d : db) : list video_task_row :=
  drop (length rows0) (video_tasks d).

(** The jobs that were there are as they were; of the jobs added since,
    those with an id in [done] are settled and the others still submitted. *)
Definition polled (rows0 : list video_task_row) (done : list Z) (d : db) : Prop :=
  rowids vt_id (video_tasks d)
  ∧ take (length rows0) (video_tasks d) = rows0
  ∧ ∀ vt, vt ∈ own_jobs rows0 d →
          (vt_id vt ∈ done → settled vt)
          ∧ (vt_id vt ∉ done → vt_status vt = "submitted").

(** As [polled], and the jobs added since [rows0] have the ids [ids]. *)
Definition polling (rows0 : list video_task_row) (ids done : list Z) (d : db) : Prop :=
  polled rows0 done d ∧ vt_id <$> own_jobs rows0 d = ids.

(** The poll of the job [task_id] raised: the job has a usable handle, and
    the poll of that handle ends with an exception. *)
Definition poll_raised (e : env) (d : db) (task_id : Z) : Prop :=
  ∃ task handle ex,
    models.get_video_task d task_id = Some task
    ∧ vt_klingai_task_id task = Some handle ∧ handle ≠ ""
    ∧ poll_outcome e handle = Raise ex.

(** The poll loop over the jobs [ids] was left at the job [id], whose poll
    raised, after the jobs [pre]. *)
Definition stopped (e : env) (rows0 : list video_task_row) (d : db) : Prop :=
  ∃ pre id post done,
    (∀ x, x ∈ done ↔ x ∈ pre)
    ∧ polling rows0 (pre ++ id :: post) done d
    ∧ poll_raised e d id.

(** The same, told of the rows: of the jobs added since [rows0], in the
    order of their creation, the job [vt] is the first whose poll raised;
    the jobs before it are settled, and it and the jobs after it are still
    submitted. *)
Definition cut_short (e : env) (rows0 : list video_task_row) (d : db) : Prop :=
  ∃ before vt after handle ex,
    own_jobs rows0 d = before ++ vt :: after
    ∧ vt_klingai_task_id vt = Some handle ∧ handle ≠ ""
    ∧ poll_outcome e handle = Raise ex
    ∧ (∀ job, job ∈ before → settled job)
    ∧ (∀ job, job ∈ vt :: after → vt_status job = "submitted").

(** Where an exception can leave a run: before its poll loop, with every
    job it created still submitted, or inside the loop. *)
Definition interrupted (e : env) (rows0 : list video_task_row) (d : db) : Prop :=
  (∃ ids, polling rows0 ids [] d) ∨ stopped e rows0 d.

(** How a scheduled run that started with the jobs [rows0] and inserted
    the run row [session_id] as row [n] leaves the store: failed with its
    jobs never polled, failed with the poll loop cut short, or completed. *)
Definition run_outcome (e : env) (rows0 : list video_task_row) (session_id : Z)
    (n : nat) (d : db) : Prop :=
  take (length rows0) (video_tasks d) = rows0
  ∧ ((run_row session_id n (λ s, s = "failed") d
      ∧ ((∀ vt, vt ∈ own_jobs rows0 d → vt_status vt = "submitted")
         ∨ cut_short e rows0 d))
     ∨ (run_row session_id n (λ s, s = "completed") d
        ∧ own_jobs rows0 d ≠ []
        ∧ ∀ vt, vt ∈ own_jobs rows0 d → settled vt)).

(** ** More callbacks and commands ([bot/handlers.py]) *)

Module callbacks.
Import claude_stylist.

(** The item dict [_handle_regenerate] builds from the joined row for the
    prompt request, which reads name, category, price, vendor and
    image_url. *)
Definition regenerate_item (vt : video_task_row) (p : product_row) : item :=
  {| it_cscart_id := p_cscart_id p; it_name := p_name p; it_category := "";
     it_image_url := default "" (p_image_url p);
     it_price := default 0%Q (p_price p);
     it_vendor := default "" (p_vendor p); it_timestamp := 0 |}.

(** [next((p for p in prompts if p.get("type") == prompt_type),
          prompts[0] if prompts else None)] *)
Definition choose_prompt (prompts : list prompt_data) (prompt_type : option string)
    : option prompt_data :=
  match list_find (λ p, pd_type p = prompt_type) prompts with
  | Some (_, p) => Some p
  | None => head prompts
  end.

(** [not prompt_data] for an entry: the empty object (an entry is taken to
    have no keys besides type and prompt). *)
Definition is_empty_entry (pd : prompt_data) : bool :=
  match pd_type pd, pd_prompt pd with
  | None, None => true
  | _, _ => false
  end.

(** [d[key]] *)
Definition item_of_key {A} (v : option A) : result A :=
  match v with Some a => Return a | None => Raise KeyError end.

Section commands.
Variable e : env.

(** [_handle_regenerate], as far as the store and the render service see
    it: the messages to the chat are left out. The poller it starts in the
    background is run at the end. *)
Definition _handle_regenerate (chat_id task_id : Z) : M unit :=
  task <- read_db (λ d, models.get_task_with_product d task_id) ;;
  match task with
  | None => ret tt
  | Some (vt, p) =>
      update_video_task e task_id (status_only "rejected") ;;
      started <-
        try_except
          (prompts <- lift (generate_prompts e (regenerate_item vt p)) ;;
           match choose_prompt prompts (vt_prompt_type vt) with
           | None => ret None
           | Some pd =>
               if is_empty_entry pd then ret None
               else
                 prompt <- lift (item_of_key (pd_prompt pd)) ;;
                 n <- next_submission ;;
                 let '(r, tr) := klingai.create_video_task (http_post e n) in
                 emit_io tr ;;
                 klingai_task_id <- lift r ;;
                 prompt_type <- lift (item_of_key (pd_type pd)) ;;
                 t <- now e ;;
                 new_task_id <- write_db (λ d,
                   models.create_video_task d t (vt_product_id vt)
                     (Some klingai_task_id) prompt prompt_type) ;;
                 ret (Some new_task_id)
           end)
          (λ ex, emit (LogError ex) ;; ret None) ;;
      match started with
      | Some new_task_id =>
          create_task (handlers._poll_and_send_videos e chat_id [new_task_id] None)
      | None => ret tt
      end
  end.

(** [cmd_queue]: the first ten entries of the queue, each sent for
    approval and followed by the pause of one second. *)
Definition cmd_queue (chat_id : Z) : M unit :=
  tasks <- read_db queries.get_queue_tasks ;;
  foldM (λ _ task,
           send_video_for_approval e chat_id task ;;
           emit (Io (klingai.Sleep 1)))
        tt (take 10 tasks).

End commands.
End callbacks.

(** What a job is, apart from the message it was sent with and the time of
    its last update. *)
Definition job_content (vt : video_task_row) :=
  (task_key vt, vt_status vt, vt_video_url vt).

(** The one notice [_send_video_for_approval] leaves in the chat. *)
Definition approval_notice (e : env) (recipient : Z)
    (task : video_task_row * product_row) : notice :=
  match vt_video_url task.1 with
  | Some url =>
      if String.eqb url "" then VideoWithoutUrl recipient (vt_id task.1)
      else match send_video e recipient (vt_id task.1) with
           | Some _ => VideoSent recipient (vt_id task.1)
           | None => VideoNotSent recipient (vt_id task.1)
           end
  | None => VideoWithoutUrl recipient (vt_id task.1)
  end.

(** The jobs waiting for approval, by id, and all that the queue command
    must leave alone. *)
Definition queue_as (ids : list Z) (d0 d : db) : Prop :=
  (vt_id ∘ fst) <$> queries.get_queue_tasks d = ids
  ∧ job_content <$> video_tasks d = job_content <$> video_tasks d0
  ∧ products d = products d0
  ∧ generation_sessions d = generation_sessions d0.





(** ** The ids of the items *)

(** No two items share an id (the primary key of the table). *)
Definition distinct_ids (d : db) : Prop := NoDup (p_id <$> products d).

(** Upserts of the catalog ids [cids], one after the other. *)
Definition upsert_all (d : db) (t : datetime) (cids : list string) : db :=
  foldl (λ d cid, (models.upsert_product d t cid "Item" None None None None 0%Q).1)
        d cids.

(** Items 1 and 3 with the sequence value behind them, as after the rows
    were copied into a fresh table: the largest rowid then decides. *)
Definition store_with_gap : db :=
  let row id cid :=
    {| p_id := id; p_cscart_id := cid; p_name := "Item"; p_category := None;
       p_image_url := None; p_price := None; p_vendor := None; p_ai_score := 0%Q;
       p_created_at := "2026-11-03 04:00:00" |} in
  {| products := [row 1 "a"; row 3 "c"]; video_tasks := [];
     generation_sessions := []; products_seq := 0 |}.

(** * Fetch: de-duplication *)

Section dedup_facts.
Implicit Types (l earlier acc : list item) (seen : gset string).

Lemma dedup_foldl_spec l : ∀ seen earlier acc,
  (∀ x, x ∈ seen ↔ x ∈ it_cscart_id <$> earlier) →
  snd (foldl dedup_step (seen, acc) l) = acc ++ keep_first_seen earlier l.
Proof.
  induction l as [|p l IH]; intros seen earlier acc Hseen; simpl.
  - by rewrite app_nil_r.
  - destruct (decide (it_cscart_id p ∈ seen)) as [Hin|Hout].
    + rewrite bool_decide_eq_true_2 by (by apply Hseen). simpl.
      apply IH. intros x. rewrite fmap_app, elem_of_app, <- Hseen. simpl.
      rewrite list_elem_of_singleton. split; [tauto|]. by intros [?| ->].
    + rewrite bool_decide_eq_false_2 by (by rewrite <- Hseen).
      rewrite (IH _ (earlier ++ [p])), <- app_assoc; [done|].
      intros x. rewrite fmap_app, elem_of_app, elem_of_union, <- Hseen. simpl.
      rewrite list_elem_of_singleton, elem_of_singleton. tauto.
Qed.

Lemma deduplicate_first_occurrences new_products popular_products :
  deduplicate new_products popular_products
  = first_occurrences (new_products ++ popular_products).
Proof.
  unfold deduplicate, first_occurrences.
  rewrite (dedup_foldl_spec _ ∅ [] []); [done|].
  intros x. simpl. rewrite elem_of_nil. set_solver.
Qed.

Lemma keep_first_seen_ids l : ∀ earlier x,
  x ∈ it_cscart_id <$> keep_first_seen earlier l ↔
  x ∈ it_cscart_id <$> l ∧ x ∉ it_cscart_id <$> earlier.
Proof.
  induction l as [|p l IH]; intros earlier x; simpl.
  - rewrite elem_of_nil. tauto.
  - rewrite fmap_app, elem_of_app, IH, fmap_app, elem_of_app, elem_of_cons. simpl.
    rewrite list_elem_of_singleton.
    case_bool_decide as Hp; simpl.
    + rewrite elem_of_nil. split.
      * intros [[]|(? & ?)]. tauto.
      * intros ([-> | ?] & ?); [done|]. right. split; [done|].
        intros [?| ->]; done.
    + rewrite list_elem_of_singleton. split.
      * intros [-> | (? & ?)]; [tauto|]. tauto.
      * intros ([-> | ?] & ?); [by left|].
        destruct (decide (x = it_cscart_id p)) as [->|]; [by left|]. right. tauto.
Qed.

Lemma keep_first_seen_NoDup l : ∀ earlier,
  NoDup (it_cscart_id <$> keep_first_seen earlier l).
Proof.
  induction l as [|p l IH]; intros earlier; simpl; [constructor|].
  case_bool_decide; simpl; [apply IH|].
  constructor; [|apply IH].
  rewrite keep_first_seen_ids, fmap_app, elem_of_app. simpl.
  rewrite list_elem_of_singleton. tauto.
Qed.

Lemma keep_first_seen_sublist l : ∀ earlier, sublist (keep_first_seen earlier l) l.
Proof.
  induction l as [|p l IH]; intros earlier; simpl; [constructor|].
  case_bool_decide; simpl.
  - by apply sublist_cons.
  - by apply sublist_skip.
Qed.

(** Every kept element stands at the first position that carries its id. *)
Lemma keep_first_seen_position l : ∀ earlier p,
  p ∈ keep_first_seen earlier l →
  ∃ i, l !! i = Some p ∧
       ∀ j q, (j < i)%nat → l !! j = Some q → it_cscart_id q ≠ it_cscart_id p.
Proof.
  induction l as [|a l IH]; intros earlier p; simpl; [by rewrite elem_of_nil|].
  rewrite elem_of_app. intros [Hhd|Htl].
  - case_bool_decide; [by apply elem_of_nil in Hhd|].
    apply list_elem_of_singleton in Hhd as ->.
    exists 0%nat. split; [done|]. intros; lia.
  - pose proof Htl as Hid.
    apply (list_elem_of_fmap_2 it_cscart_id) in Hid.
    apply keep_first_seen_ids in Hid as [_ Hid].
    rewrite fmap_app, elem_of_app in Hid. simpl in Hid.
    rewrite list_elem_of_singleton in Hid.
    destruct (IH _ _ Htl) as (i & Hi & Hfirst).
    exists (S i). split; [done|].
    intros [|j] q Hj Hq; simpl in Hq.
    + injection Hq as <-. intros Heq. apply Hid. right. done.
    + apply (Hfirst j); [lia|done].
Qed.

End dedup_facts.

(** C3. For any two fetched lists, possibly overlapping, the de-duplicated
    working set carries every external id of the concatenation exactly once
    (no id twice, none lost), and it is ordered by first occurrence: it is a
    subsequence of recent-then-popular, each kept item stands at the first
    position that has its id, and it equals the list that keeps an element
    exactly when its id has not occurred before. *)
Theorem C3_dedup_once_in_first_seen_order (recent popular : list item) :
  let all_products := deduplicate recent popular in
  NoDup (it_cscart_id <$> all_products)
  ∧ (∀ id, id ∈ it_cscart_id <$> all_products ↔ id ∈ it_cscart_id <$> (recent ++ popular))
  ∧ sublist all_products (recent ++ popular)
  ∧ (∀ p, p ∈ all_products →
       ∃ i, (recent ++ popular) !! i = Some p ∧
            ∀ j q, (j < i)%nat → (recent ++ popular) !! j = Some q →
                   it_cscart_id q ≠ it_cscart_id p)
  ∧ all_products = first_occurrences (recent ++ popular).
Proof.
  intros all_products. unfold all_products.
  rewrite deduplicate_first_occurrences. unfold first_occurrences.
  split; [apply keep_first_seen_NoDup|].
  split.
  { intros id. rewrite keep_first_seen_ids. simpl. rewrite elem_of_nil. tauto. }
  split; [apply keep_first_seen_sublist|].
  split; [apply keep_first_seen_position|done].
Qed.

Example dedup_overlapping_fetches :
  it_cscart_id <$> deduplicate [sample_item "101"; sample_item "102"; sample_item "101"]
                               [sample_item "103"; sample_item "102"; sample_item "104"]
  = ["101"; "102"; "103"; "104"].
Proof. by vm_compute. Qed.

(** * Selection with fallback *)


Section selection_facts.
Implicit Types (l : list scored) (x y : scored).

Lemma insert_desc_Permutation x l : insert_desc x l ≡ₚ x :: l.
Proof.
  induction l as [|y l IH]; simpl; [done|].
  destruct (Qle_bool (score_key y) (score_key x)); [done|].
  rewrite IH. apply Permutation_swap.
Qed.

Lemma sort_by_score_desc_Permutation l : sort_by_score_desc l ≡ₚ l.
Proof.
  induction l as [|x l IH]; simpl; [done|].
  rewrite insert_desc_Permutation. by rewrite IH.
Qed.

Lemma insert_desc_sorted x l :
  StronglySorted score_ge l → StronglySorted score_ge (insert_desc x l).
Proof.
  induction 1 as [|y l Hl IH Hy]; simpl.
  - repeat constructor.
  - destruct (Qle_bool (score_key y) (score_key x)) eqn:Hle.
    + apply Qle_bool_iff in Hle.
      constructor; [by constructor|].
      constructor; [done|].
      eapply Forall_impl; [exact Hy|].
      intros z Hz. unfold score_ge in *. by eapply Qle_trans.
    + constructor; [done|].
      rewrite insert_desc_Permutation. constructor; [|done].
      unfold score_ge. apply Qlt_le_weak, Qnot_le_lt.
      intros H. apply Qle_bool_iff in H. congruence.
Qed.

Lemma sort_by_score_desc_sorted l : StronglySorted score_ge (sort_by_score_desc l).
Proof.
  induction l as [|x l IH]; simpl; [constructor|].
  by apply insert_desc_sorted.
Qed.

(** Inserting passes only entries with a strictly larger score, so among
    the entries of any one score the new entry stays in front. *)
Lemma insert_desc_stable v x l :
  List.filter (has_score v) (insert_desc x l) = List.filter (has_score v) (x :: l).
Proof.
  induction l as [|y l IH]; [done|].
  cbn [insert_desc].
  destruct (Qle_bool (score_key y) (score_key x)) eqn:Hle; [done|].
  cbn [List.filter] in *. rewrite IH.
  destruct (has_score v y) eqn:Hy, (has_score v x) eqn:Hx; try done.
  exfalso. unfold has_score in *.
  apply Qeq_bool_iff in Hy, Hx.
  assert (Qle_bool (score_key y) (score_key x) = true); [|congruence].
  apply Qle_bool_iff. rewrite Hy, Hx. apply Qle_refl.
Qed.

Lemma sort_by_score_desc_stable v l :
  List.filter (has_score v) (sort_by_score_desc l) = List.filter (has_score v) l.
Proof.
  induction l as [|x l IH]; [done|].
  cbn [sort_by_score_desc foldr]. rewrite insert_desc_stable.
  cbn [List.filter]. fold (sort_by_score_desc l). by rewrite IH.
Qed.

Lemma none_selected_filter l :
  (∀ s, s ∈ l → is_selected s = false) →
  filter (λ s, is_selected s = true) l = [].
Proof.
  induction l as [|x l IH]; intros H; [done|].
  rewrite filter_cons, (H x) by left.
  rewrite decide_False by done. apply IH. intros s Hs. apply H. by right.
Qed.

Lemma sorted_take_drop l : ∀ n a b,
  StronglySorted score_ge l → a ∈ take n l → b ∈ drop n l → score_ge a b.
Proof.
  induction l as [|y l IH]; intros n a b Hs Ha Hb.
  - rewrite take_nil in Ha. by apply elem_of_nil in Ha.
  - apply StronglySorted_inv in Hs as [Hl Hy].
    destruct n as [|n]; simpl in *; [by apply elem_of_nil in Ha|].
    apply elem_of_cons in Ha as [->|Ha].
    + rewrite Forall_forall in Hy. apply Hy. by eapply subseteq_drop.
    + by eapply IH.
Qed.

End selection_facts.

(** C5. When the curation result marks no entry selected, both orchestrators
    take the first N = 5 entries (the configured daily selection count; all
    of them when there are fewer) of the ranking sorted by score descending,
    entries of equal score keeping their original order, and mark exactly
    those entries selected. *)
Theorem C5_fallback_selects_stable_top_n (ranking : list scored) :
  (∀ s, s ∈ ranking → is_selected s = false) →
  let sorted := sort_by_score_desc ranking in
  let top := take PRODUCTS_TO_SELECT_DAILY sorted in
  let rest := drop PRODUCTS_TO_SELECT_DAILY sorted in
  select_for_generation PRODUCTS_TO_SELECT_DAILY ranking
    = ((mark_selected <$> top) ++ rest, mark_selected <$> top)
  ∧ select_for_generation 5 ranking
    = select_for_generation PRODUCTS_TO_SELECT_DAILY ranking
  ∧ sorted ≡ₚ ranking
  ∧ StronglySorted score_ge sorted
  ∧ (∀ v, List.filter (has_score v) sorted = List.filter (has_score v) ranking)
  ∧ length top = Nat.min PRODUCTS_TO_SELECT_DAILY (length ranking)
  ∧ (∀ a b, a ∈ top → b ∈ rest → score_ge a b)
  ∧ (∀ s, s ∈ mark_selected <$> top → is_selected s = true)
  ∧ (∀ s, s ∈ rest → is_selected s = false).
Proof.
  intros Hnone sorted top rest.
  pose proof (sort_by_score_desc_Permutation ranking) as Hperm.
  pose proof (sort_by_score_desc_sorted ranking) as Hsorted.
  split.
  { unfold select_for_generation. by rewrite none_selected_filter. }
  split; [done|].
  split; [done|].
  split; [done|].
  split; [intros v; apply sort_by_score_desc_stable|].
  split.
  { unfold top. rewrite length_take. unfold sorted. by rewrite Hperm. }
  split; [intros a b Ha Hb; by eapply (sorted_take_drop sorted PRODUCTS_TO_SELECT_DAILY)|].
  split.
  - intros s Hs. apply list_elem_of_fmap in Hs as (s' & -> & _). done.
  - intros s Hs. apply Hnone. rewrite <- Hperm. by eapply subseteq_drop.
Qed.

Lemma C5_fallback_witness :
  s_cscart_id <$> snd (select_for_generation PRODUCTS_TO_SELECT_DAILY C5_sample_ranking)
  = ["12"; "15"; "16"; "11"; "13"].
Proof.
  assert (Hnone : ∀ s, s ∈ C5_sample_ranking → is_selected s = false).
  { intros s Hs. unfold C5_sample_ranking in Hs.
    repeat (apply elem_of_cons in Hs as [->|Hs]; [reflexivity|]).
    by apply elem_of_nil in Hs. }
  destruct (C5_fallback_selects_stable_top_n C5_sample_ranking Hnone) as [-> _].
  reflexivity.
Defined.

(** * Approval callbacks *)

Lemma find_task_after_update (rows : list video_task_row) t task_id k other :
  list_find (λ vt, vt_id vt = other)
    ((λ vt, if bool_decide (vt_id vt = task_id)
            then models.apply_task_update t k vt else vt) <$> rows)
  = (λ r, (fst r, if bool_decide (other = task_id)
                  then models.apply_task_update t k (snd r) else snd r))
    <$> list_find (λ vt, vt_id vt = other) rows.
Proof.
  induction rows as [|vt rows IH]; [done|].
  cbn [fmap list_fmap list_find].
  assert (Hid : vt_id (if bool_decide (vt_id vt = task_id)
                       then models.apply_task_update t k vt else vt) = vt_id vt)
    by (destruct (bool_decide (vt_id vt = task_id)); reflexivity).
  rewrite Hid.
  destruct (decide (vt_id vt = other)) as [Heq|Hne].
  - simpl. rewrite Heq. done.
  - rewrite IH. destruct (list_find _ rows) as [[i r]|]; done.
Qed.

Lemma status_of_update d t task_id k other :
  models.kwargs_empty k = false →
  status_of (models.update_video_task d t task_id k) other
  = if bool_decide (other = task_id)
    then (λ s, default s (models.set_status k)) <$> status_of d other
    else status_of d other.
Proof.
  intros Hk. unfold status_of, models.get_video_task, models.update_video_task.
  rewrite Hk. cbn [video_tasks]. rewrite find_task_after_update.
  destruct (list_find _ (video_tasks d)) as [[i r]|]; simpl;
    by case_bool_decide.
Qed.

(** C2, as stated, fails: approving a job whose status is failed makes it
    approved, and publishing a job that was never approved (here: still
    failed) makes it published. *)
Lemma C2_approve_is_unguarded_counterexample :
  let t := mk_datetime 2026 11 3 9 30 0 0 in
  status_of C2_store 1 = Some "failed"
  ∧ status_of (handlers._handle_approve C2_store t 1) 1 = Some "approved"
  ∧ status_of (handlers._handle_publish C2_store t 1) 1 = Some "published".
Proof. by vm_compute. Qed.

(** C2, amended. The approve and publish callbacks do not look at the job's
    present status: applied to the id of an existing job, whatever its
    status, they set it to approved (published); every other job keeps its
    status, and an id without a job changes nothing. *)
Theorem C2_approve_publish_set_status_unconditionally
    (d : db) (t : datetime) (task_id other : Z) :
  status_of (handlers._handle_approve d t task_id) other
    = (if bool_decide (other = task_id)
       then (λ _, "approved") <$> status_of d other else status_of d other)
  ∧ status_of (handlers._handle_publish d t task_id) other
    = (if bool_decide (other = task_id)
       then (λ _, "published") <$> status_of d other else status_of d other).
Proof.
  unfold handlers._handle_approve, handlers._handle_publish.
  by rewrite !status_of_update.
Qed.

(** * Render submission: retries and backoff *)

Module klingai_facts.
Import klingai_spec.
Import klingai.

Lemma create_attempts_cons script attempt rest :
  create_attempts script (attempt :: rest)
  = match attempt_result attempt (script attempt) with
    | RetryAfter secs =>
        (fst (create_attempts script rest),
         HttpPost attempt :: Sleep secs :: snd (create_attempts script rest))
    | Finish r => (r, [HttpPost attempt])
    end.
Proof.
  cbn [create_attempts]. unfold attempt_result.
  destruct (create_attempts script rest) as [r tr]. cbn [fst snd].
  destruct (script attempt) as [|status body].
  - by case_bool_decide.
  - destruct (status =? 429); [done|].
    destruct (status >=? 500); [done|].
    destruct (status >=? 400); [by case_bool_decide|].
    destruct (b_code body) as [[| |]|]; try done.
    by destruct (b_task_id body).
Qed.

Lemma posts_bounded script attempts :
  (posts (snd (create_attempts script attempts)) <= length attempts)%nat.
Proof.
  induction attempts as [|a rest IH]; [done|].
  rewrite create_attempts_cons.
  destruct (attempt_result a (script a)); cbn; unfold posts in IH; lia.
Qed.

(** An attempt that was made and ends in a retry is followed by its pause;
    one that ends the call is the last entry of the trace and fixes the
    result. *)
Lemma attempt_in_trace script attempts k :
  NoDup attempts →
  HttpPost k ∈ snd (create_attempts script attempts) →
  match attempt_result k (script k) with
  | RetryAfter secs =>
      ∃ pre post, snd (create_attempts script attempts)
                  = pre ++ HttpPost k :: Sleep secs :: post
  | Finish r =>
      fst (create_attempts script attempts) = r
      ∧ ∃ pre, snd (create_attempts script attempts) = pre ++ [HttpPost k]
  end.
Proof.
  induction attempts as [|a rest IH]; intros Hnd Hin.
  - by apply elem_of_nil in Hin.
  - apply NoDup_cons in Hnd as [Ha Hnd].
    rewrite create_attempts_cons in Hin |- *.
    destruct (decide (k = a)) as [->|Hne].
    + destruct (attempt_result a (script a)) as [secs|r]; cbn [fst snd].
      * by exists [], (snd (create_attempts script rest)).
      * split; [done|]. by exists [].
    + assert (Hrest : attempt_result a (script a) = attempt_result a (script a)) by done.
      destruct (attempt_result a (script a)) as [secs|r] eqn:Ha'; cbn [fst snd] in *.
      * apply elem_of_cons in Hin as [Hin|Hin]; [congruence|].
        apply elem_of_cons in Hin as [Hin|Hin]; [done|].
        specialize (IH Hnd Hin).
        destruct (attempt_result k (script k)).
        -- destruct IH as (pre & post & ->).
           by exists (HttpPost a :: Sleep secs :: pre), post.
        -- destruct IH as (-> & pre & ->). split; [done|].
           by exists (HttpPost a :: Sleep secs :: pre).
      * apply list_elem_of_singleton in Hin. congruence.
Qed.

(** Running out of attempts is the only way to the final RuntimeError. *)
Lemma exhausted_result script attempts :
  (∀ a, a ∈ attempts → ∃ secs, attempt_result a (script a) = RetryAfter secs) →
  fst (create_attempts script attempts) = Raise RuntimeError
  ∧ posts (snd (create_attempts script attempts)) = length attempts.
Proof.
  induction attempts as [|a rest IH]; intros H; [done|].
  rewrite create_attempts_cons.
  destruct (H a) as [secs ->]; [by left|]. cbn [fst snd].
  destruct IH as [-> IH]; [intros; apply H; by right|].
  split; [done|]. unfold posts in *. cbn. by rewrite IH.
Qed.

End klingai_facts.

(** C7, as stated, fails: a submission the service rejects with HTTP 400 is
    not propagated at once. The status error is a client error, it is caught
    with the request errors, and the call posts three times with two pauses
    of five seconds before the error leaves it. *)
Lemma C7_http_rejection_is_retried_counterexample :
  klingai.create_video_task C7_rejecting_service
    = (Raise ClientError,
       [klingai.HttpPost 0; klingai.Sleep 5; klingai.HttpPost 1;
        klingai.Sleep 5; klingai.HttpPost 2])
  ∧ klingai.posts (snd (klingai.create_video_task C7_rejecting_service)) = 3%nat
  ∧ klingai.sleeps (snd (klingai.create_video_task C7_rejecting_service)) = [5; 5].
Proof. by vm_compute. Qed.

(** C7, amended. A submission makes at most three attempts. An attempt
    answered 429 is followed by a pause of 5 * 2^attempt seconds, one answered
    with a status of 500 or more by a pause of 60 seconds; when all three
    attempts end like that the call raises RuntimeError. A rejection carried
    in the body of an answer below 400 (code other than 0) ends the call at
    once with ValueError: no pause, no further attempt. Any other status from
    400 on is a client error like a failed request: on the first two attempts
    it is followed by a pause of 5 seconds and a new attempt, on the third it
    propagates. *)
Theorem C7_submission_backoff_and_rejection (script : nat → klingai.post_outcome) :
  let r := fst (klingai.create_video_task script) in
  let tr := snd (klingai.create_video_task script) in
  (klingai.posts tr <= klingai.max_retries)%nat
  ∧ (∀ k body, klingai.HttpPost k ∈ tr →
       script k = klingai.PostResponse 429 body →
       ∃ pre post, tr = pre ++ klingai.HttpPost k
                          :: klingai.Sleep (2 ^ Z.of_nat k * 5) :: post)
  ∧ (∀ k status body, klingai.HttpPost k ∈ tr →
       script k = klingai.PostResponse status body → 500 <= status →
       ∃ pre post, tr = pre ++ klingai.HttpPost k :: klingai.Sleep 60 :: post)
  ∧ ((∀ k, (k < klingai.max_retries)%nat →
        ∃ status body, script k = klingai.PostResponse status body
                       ∧ (status = 429 ∨ 500 <= status)) →
     r = Raise RuntimeError ∧ klingai.posts tr = klingai.max_retries)
  ∧ (∀ k status body, klingai.HttpPost k ∈ tr →
       script k = klingai.PostResponse status body → status < 400 →
       klingai.b_code body ≠ Some 0 →
       r = Raise ValueError ∧ ∃ pre, tr = pre ++ [klingai.HttpPost k])
  ∧ (∀ k status body, klingai.HttpPost k ∈ tr →
       script k = klingai.PostResponse status body →
       400 <= status < 500 → status ≠ 429 →
       if bool_decide (k = 2%nat)
       then r = Raise ClientError ∧ ∃ pre, tr = pre ++ [klingai.HttpPost k]
       else ∃ pre post, tr = pre ++ klingai.HttpPost k :: klingai.Sleep 5 :: post).
Proof.
  intros r tr. subst r tr. unfold klingai.create_video_task.
  assert (Hnd : NoDup (seq 0 klingai.max_retries)) by apply NoDup_seq.
  split; [|split; [|split; [|split; [|split]]]].
  - pose proof (klingai_facts.posts_bounded script (seq 0 klingai.max_retries)) as H.
    by rewrite length_seq in H.
  - intros k body Hin Hk.
    pose proof (klingai_facts.attempt_in_trace script _ k Hnd Hin) as H.
    rewrite Hk in H. exact H.
  - intros k status body Hin Hk Hst.
    pose proof (klingai_facts.attempt_in_trace script _ k Hnd Hin) as H.
    rewrite Hk in H. cbn in H.
    destruct (Z.eqb_spec status 429) as [->|_]; [lia|].
    destruct (Z.geb_spec status 500); [exact H|lia].
  - intros Hall.
    destruct (klingai_facts.exhausted_result script (seq 0 klingai.max_retries)) as [-> ->].
    + intros a Ha. apply elem_of_seq in Ha.
      destruct (Hall a) as (status & body & -> & Hst); [lia|]. cbn.
      destruct (Z.eqb_spec status 429); [by eexists|].
      destruct (Z.geb_spec status 500); [by eexists|]. lia.
    + by rewrite length_seq.
  - intros k status body Hin Hk Hst Hcode.
    pose proof (klingai_facts.attempt_in_trace script _ k Hnd Hin) as H.
    rewrite Hk in H. cbn in H.
    destruct (Z.eqb_spec status 429); [lia|].
    destruct (Z.geb_spec status 500); [lia|].
    destruct (Z.geb_spec status 400); [lia|].
    destruct (klingai.b_code body) as [[| |]|]; try done;
      destruct (klingai.b_task_id body); done.
  - intros k status body Hin Hk Hst Hne.
    pose proof (klingai_facts.attempt_in_trace script _ k Hnd Hin) as H.
    rewrite Hk in H. cbn in H.
    destruct (Z.eqb_spec status 429); [lia|].
    destruct (Z.geb_spec status 500); [lia|].
    destruct (Z.geb_spec status 400); [|lia].
    unfold klingai.max_retries in H. cbn in H.
    destruct (bool_decide (k = 2%nat)); exact H.
Qed.

Example submission_rate_limited_three_times :
  klingai.create_video_task (λ _, klingai.PostResponse 429 accepted_body)
  = (Raise RuntimeError,
     [klingai.HttpPost 0; klingai.Sleep 5; klingai.HttpPost 1; klingai.Sleep 10;
      klingai.HttpPost 2; klingai.Sleep 20]).
Proof. by vm_compute. Qed.

Example submission_recovers_after_server_error :
  klingai.create_video_task
    (λ k, klingai.PostResponse (if bool_decide (k = 0)%nat then 503 else 200) accepted_body)
  = (Return "kling-task", [klingai.HttpPost 0; klingai.Sleep 60; klingai.HttpPost 1]).
Proof. by vm_compute. Qed.

Example submission_rejected_by_api_code :
  klingai.create_video_task
    (λ _, klingai.PostResponse 200
            {| klingai.b_code := Some 1201; klingai.b_task_id := None |})
  = (Raise ValueError, [klingai.HttpPost 0]).
Proof. by vm_compute. Qed.

(** * Polling *)

Section poll_facts.
Import klingai.

Lemma polls_allowed_done timeout elapsed :
  ¬ elapsed < timeout → polls_allowed timeout elapsed = 0%nat.
Proof.
  intros H. unfold polls_allowed, KLINGAI_POLLING_INTERVAL.
  assert ((timeout - elapsed + (30 - 1)) / 30 <= 0); [|lia].
  assert ((timeout - elapsed + (30 - 1)) / 30 < 1); [|lia].
  apply Z.div_lt_upper_bound; lia.
Qed.

Lemma polls_allowed_step timeout elapsed :
  elapsed < timeout →
  polls_allowed timeout elapsed
  = S (polls_allowed timeout (elapsed + KLINGAI_POLLING_INTERVAL)).
Proof.
  intros H. unfold polls_allowed, KLINGAI_POLLING_INTERVAL.
  replace (timeout - elapsed + (30 - 1))
    with ((timeout - (elapsed + 30) + (30 - 1)) + 1 * 30) by lia.
  rewrite Z.div_add by lia.
  assert (0 <= (timeout - (elapsed + 30) + (30 - 1)) / 30)
    by (apply Z.div_pos; lia).
  lia.
Qed.

Lemma first_ending_Some task_id replies n : ∀ k j,
  first_ending task_id replies k n = Some j →
  (k <= j < k + n)%nat
  ∧ ends_loop (get_task_status task_id (replies j)) = true
  ∧ ∀ i, (k <= i < j)%nat → ends_loop (get_task_status task_id (replies i)) = false.
Proof.
  induction n as [|n IH]; intros k j H; [done|].
  cbn [first_ending] in H.
  destruct (ends_loop (get_task_status task_id (replies k))) eqn:Hk.
  - injection H as <-. repeat split; [lia|lia|done|intros; lia].
  - apply IH in H as (? & ? & Hbefore). repeat split; [lia|lia|done|].
    intros i Hi. destruct (decide (i = k)) as [->|]; [done|]. apply Hbefore. lia.
Qed.

Lemma first_ending_None task_id replies n : ∀ k,
  first_ending task_id replies k n = None →
  ∀ i, (k <= i < k + n)%nat → ends_loop (get_task_status task_id (replies i)) = false.
Proof.
  induction n as [|n IH]; intros k H i Hi; [lia|].
  cbn [first_ending] in H.
  destruct (ends_loop (get_task_status task_id (replies k))) eqn:Hk; [done|].
  destruct (decide (i = k)) as [->|]; [done|]. apply (IH (S k)); [done|lia].
Qed.

Lemma poll_loop_spec task_id replies timeout elapsed k :
  poll_loop task_id replies timeout elapsed k
  = match first_ending task_id replies k (polls_allowed timeout elapsed) with
    | Some j => (get_task_status task_id (replies j), waiting k (j - k) ++ [HttpGet j])
    | None => (Return (timeout_result task_id), waiting k (polls_allowed timeout elapsed))
    end.
Proof.
  funelim (poll_loop task_id replies timeout elapsed k).
  - rewrite polls_allowed_step by done. cbn [first_ending].
    destruct (get_task_status task_id (replies k)) as [result|ex] eqn:Hget;
      cbn [ends_loop]; [|by rewrite Nat.sub_diag, Hget].
    destruct (terminal result) eqn:Hterm.
    + by rewrite Nat.sub_diag, Hget.
    + match goal with IH : _ → poll_loop _ _ _ _ _ = _ |- _ =>
        rewrite (IH result) end.
      destruct (first_ending _ _ (S k) _) as [j|] eqn:Hj; [|done].
      apply first_ending_Some in Hj as [Hj _].
      replace (j - k)%nat with (S (j - S k)) by lia. done.
  - by rewrite polls_allowed_done.
Qed.

(** The replies after which the loop polls again: a failed request, or a
    body with API code 0 whose object under [data] reports a status other
    than succeed and failed. *)
Lemma polled_again task_id reply :
  ends_loop (get_task_status task_id reply) = false
  ↔ (∃ msg, reply = GetClientError msg)
    ∨ (∃ message data, reply = GetResponse (Some 0) message (AnObject data)
                       ∧ task_status data ≠ Some "succeed"
                       ∧ task_status data ≠ Some "failed").
Proof.
  split.
  - destruct reply as [msg| | | |code message data]; try done; [left; by exists msg|].
    cbn [get_task_status]. case_bool_decide as Hcode; [|done]. subst code.
    destruct data as [| |data]; try done.
    intros H. right. exists message, data. split; [done|].
    destruct (task_status data) as [status|]; [|done]. cbn [default id] in H.
    destruct (String.eqb_spec status "succeed") as [Heq|Hs].
    { rewrite Heq in H. by destruct (task_result data) as [| |[|v vs]]. }
    destruct (String.eqb_spec status "failed") as [Heq|Hf].
    { unfold ends_loop, terminal, bare_result in H. cbn [r_status] in H.
      rewrite Heq in H. by rewrite orb_true_r in H. }
    split; congruence.
  - intros [[msg ->]|(message & data & -> & Hs & Hf)]; [done|].
    cbn [get_task_status]. rewrite bool_decide_eq_true_2 by done.
    destruct (task_status data) as [status|]; [|done]. cbn [default id].
    destruct (String.eqb_spec status "succeed") as [->|Hs']; [done|].
    destruct (String.eqb_spec status "failed") as [->|Hf']; [done|].
    unfold ends_loop, terminal, bare_result. cbn [r_status].
    by rewrite (proj2 (String.eqb_neq _ _) Hs'), (proj2 (String.eqb_neq _ _) Hf').
Qed.

Lemma polls_waiting k n : polls (waiting k n) = n.
Proof.
  revert k. induction n as [|n IH]; intros k; [done|].
  unfold polls in *. cbn. by rewrite IH.
Qed.

Lemma polls_app tr1 tr2 : polls (tr1 ++ tr2) = (polls tr1 + polls tr2)%nat.
Proof. unfold polls. by rewrite List.filter_app, length_app. Qed.

Lemma sleeps_waiting k n : sleeps (waiting k n) = replicate n KLINGAI_POLLING_INTERVAL.
Proof.
  revert k. induction n as [|n IH]; intros k; [done|].
  cbn. by rewrite <- (IH (S k)).
Qed.

End poll_facts.

(** * The poll phase of a run *)

#[global] Arguments update_video_task : simpl never.
#[global] Arguments update_session : simpl never.
#[global] Arguments send_video_for_approval : simpl never.
#[global] Arguments models.update_video_task : simpl never.
#[global] Arguments models.get_video_task : simpl never.
#[global] Arguments models.get_task_with_product : simpl never.
#[global] Arguments klingai.poll_task_until_done : simpl never.
#[global] Arguments klingai.create_video_task : simpl never.

Section poll_phase_facts.
Variable e : env.

Lemma get_video_task_update d t task_id k other :
  models.kwargs_empty k = false →
  models.get_video_task (models.update_video_task d t task_id k) other
  = (λ vt, if bool_decide (other = task_id)
           then models.apply_task_update t k vt else vt)
    <$> models.get_video_task d other.
Proof.
  intros Hk. unfold models.get_video_task, models.update_video_task.
  rewrite Hk. cbn [video_tasks]. rewrite find_task_after_update.
  by destruct (list_find _ (video_tasks d)) as [[i r]|].
Qed.

Lemma handle_of_update d t task_id k other :
  handle_of (models.update_video_task d t task_id k) other = handle_of d other.
Proof.
  destruct (models.kwargs_empty k) eqn:Hk.
  - unfold models.update_video_task. by rewrite Hk.
  - unfold handle_of. rewrite get_video_task_update by done.
    destruct (models.get_video_task d other); [|done]. simpl.
    by case_bool_decide.
Qed.

Lemma status_of_update_keep d t task_id k other :
  models.set_status k = None →
  status_of (models.update_video_task d t task_id k) other = status_of d other.
Proof.
  intros Hs. destruct (models.kwargs_empty k) eqn:Hk.
  - unfold models.update_video_task. by rewrite Hk.
  - rewrite status_of_update by done. rewrite Hs.
    case_bool_decide; [|done]. by destruct (status_of d other).
Qed.

(** The run-level update: it never raises, and its store is the job
    store's update at the clock reading it took. *)
Lemma update_video_task_run task_id k w :
  ∃ w', update_video_task e task_id k w = (Return tt, w')
        ∧ w_db w' = models.update_video_task (w_db w) (clock e (w_tick w)) task_id k.
Proof.
  unfold update_video_task, models.update_video_task.
  destruct (models.kwargs_empty k) eqn:Hk.
  - by exists w.
  - eexists. split; [reflexivity|]. done.
Qed.

Lemma send_video_for_approval_frame recipient twp w :
  ∃ w', send_video_for_approval e recipient twp w = (Return tt, w')
        ∧ (∀ id, handle_of (w_db w') id = handle_of (w_db w) id)
        ∧ (∀ id, status_of (w_db w') id = status_of (w_db w) id).
Proof.
  unfold send_video_for_approval.
  destruct (vt_video_url twp.1) as [url|]; [|by eexists].
  destruct (String.eqb url ""); [by eexists|].
  destruct (send_video e recipient (vt_id twp.1)) as [mid|]; [|by eexists].
  unfold bind, emit. cbn.
  match goal with |- context [update_video_task e ?i ?k ?w0] =>
    destruct (update_video_task_run i k w0) as (w' & -> & Hdb) end.
  exists w'. split; [done|]. rewrite Hdb. cbn [w_db]. split; intros id.
  - apply handle_of_update.
  - by apply status_of_update_keep.
Qed.

Lemma send_to_all_frame twp recipients : ∀ w,
  ∃ w', foldM (λ _ r, send_video_for_approval e r twp) tt recipients w = (Return tt, w')
        ∧ (∀ id, handle_of (w_db w') id = handle_of (w_db w) id)
        ∧ (∀ id, status_of (w_db w') id = status_of (w_db w) id).
Proof.
  induction recipients as [|r rs IH]; intros w; [by exists w|].
  cbn [foldM]. unfold bind at 1.
  destruct (send_video_for_approval_frame r twp w) as (w1 & -> & Hh1 & Hs1).
  destruct (IH w1) as (w2 & -> & Hh2 & Hs2).
  exists w2. split; [done|]. split; intros id; [by rewrite Hh2|by rewrite Hs2].
Qed.

(** One pass of the poll loop over the jobs. When the poll of the job's
    handle returns, the pass returns and the job is stored as succeed or
    failed; when it raises, so does the pass, with the store as it was. A
    job without a usable handle is passed over. No other job is touched. *)
Lemma poll_one_cases recipients announce completed task_id w :
  ∃ res w',
    poll_one e recipients announce completed task_id w = (res, w')
    ∧ (∀ id, handle_of (w_db w') id = handle_of (w_db w) id)
    ∧ (∀ id, id ≠ task_id → status_of (w_db w') id = status_of (w_db w) id)
    ∧ match res with
      | Return _ =>
          ∀ handle, handle_of (w_db w) task_id = Some (Some handle) → handle ≠ "" →
            ∃ r, poll_outcome e handle = Return r
                 ∧ status_of (w_db w') task_id = Some (stored_status r)
      | Raise ex =>
          w_db w' = w_db w
          ∧ ∃ handle, handle_of (w_db w) task_id = Some (Some handle) ∧ handle ≠ ""
                      ∧ poll_outcome e handle = Raise ex
      end.
Proof.
  unfold poll_one, handle_of. unfold bind at 1. unfold read_db at 1.
  destruct (models.get_video_task (w_db w) task_id) as [task|] eqn:Htask;
    [|by exists (Return completed), w].
  destruct (vt_klingai_task_id task) as [handle|] eqn:Hh;
    [|exists (Return completed), w; simpl; by rewrite Hh].
  destruct (String.eqb_spec handle "") as [->|Hne].
  { exists (Return completed), w. simpl. rewrite Hh. repeat split; try done.
    intros h [= <-]. done. }
  unfold stored_status, poll_outcome.
  destruct (klingai.poll_task_until_done handle None (http_get e handle))
    as [[result|ex] tr] eqn:Hpoll.
  2:{ unfold bind, emit_io, lift. cbn. eexists _, _. split; [reflexivity|].
      cbn [w_db]. repeat split; try done.
      exists handle. simpl. rewrite Hh, Hpoll. done. }
  assert (Hstat : status_of (w_db w) task_id = Some (vt_status task))
    by (unfold status_of; by rewrite Htask).
  destruct (String.eqb (klingai.r_status result) "succeed") eqn:Hsucc.
  - unfold bind, emit_io, emit, lift, ret. cbn. rewrite Hsucc.
    match goal with |- context [update_video_task e ?i ?k ?w0] =>
      destruct (update_video_task_run i k w0) as (w1 & -> & Hdb1) end.
    cbn [w_db] in Hdb1. unfold read_db.
    destruct (models.get_task_with_product (w_db w1) task_id) as [twp|].
    + destruct (send_to_all_frame twp recipients w1) as (w2 & -> & Hh2 & Hs2).
      eexists _, _. split; [reflexivity|]. cbn [w_db].
      split; [|split].
      * intros id. fold (handle_of (w_db w2) id). rewrite Hh2, Hdb1.
        apply handle_of_update.
      * intros id Hid. rewrite Hs2, Hdb1, status_of_update by done.
        by rewrite bool_decide_eq_false_2.
      * intros h. simpl. rewrite Hh. intros [= <-] _.
        rewrite Hpoll. eexists. split; [reflexivity|]. rewrite Hsucc.
        rewrite Hs2, Hdb1, status_of_update by done.
        rewrite bool_decide_eq_true_2 by done. by rewrite Hstat.
    + eexists _, _. split; [reflexivity|]. cbn [w_db].
      split; [|split].
      * intros id. fold (handle_of (w_db w1) id). rewrite Hdb1.
        apply handle_of_update.
      * intros id Hid. rewrite Hdb1, status_of_update by done.
        by rewrite bool_decide_eq_false_2.
      * intros h. simpl. rewrite Hh. intros [= <-] _.
        rewrite Hpoll. eexists. split; [reflexivity|]. rewrite Hsucc.
        rewrite Hdb1, status_of_update by done.
        rewrite bool_decide_eq_true_2 by done. by rewrite Hstat.
  - destruct announce; unfold bind, emit_io, emit, lift, ret; cbn; rewrite Hsucc;
      (match goal with |- context [update_video_task e ?i ?k ?w0] =>
        destruct (update_video_task_run i k w0) as (w1 & -> & Hdb1) end);
      cbn [w_db] in Hdb1;
      ((eexists _, _; split; [reflexivity|]; cbn [w_db]; split; [|split]);
      [ intros id; fold (handle_of (w_db w1) id); rewrite Hdb1;
        apply handle_of_update
      | intros id Hid; rewrite Hdb1, status_of_update by done;
        by rewrite bool_decide_eq_false_2
      | intros h; simpl; rewrite Hh; intros [= <-] _;
        rewrite Hpoll; eexists; (split; [reflexivity|]); rewrite Hsucc;
        rewrite Hdb1, status_of_update by done;
        rewrite bool_decide_eq_true_2 by done; by rewrite Hstat ]).
Qed.

End poll_phase_facts.

Section poll_all_facts.
Variable e : env.

(** The loop over the jobs ends at the first job whose poll raises: the
    jobs before it are stored as their polls ended, the others are as
    they were. When no poll raises it returns with every job stored. *)
Lemma poll_all_cases recipients announce task_ids : ∀ completed w,
  ∃ res w',
    foldM (poll_one e recipients announce) completed task_ids w = (res, w')
    ∧ (∀ id, handle_of (w_db w') id = handle_of (w_db w) id)
    ∧ (∀ id, id ∉ task_ids → status_of (w_db w') id = status_of (w_db w) id)
    ∧ match res with
      | Return _ =>
          ∀ id handle, id ∈ task_ids →
            handle_of (w_db w) id = Some (Some handle) → handle ≠ "" →
            ∃ r, poll_outcome e handle = Return r
                 ∧ status_of (w_db w') id = Some (stored_status r)
      | Raise ex =>
          ∃ before id after handle,
            task_ids = before ++ id :: after
            ∧ handle_of (w_db w) id = Some (Some handle) ∧ handle ≠ ""
            ∧ poll_outcome e handle = Raise ex
            ∧ (∀ id', id' ∉ before → status_of (w_db w') id' = status_of (w_db w) id')
            ∧ (∀ id' handle', id' ∈ before →
                 handle_of (w_db w) id' = Some (Some handle') → handle' ≠ "" →
                 ∃ r, poll_outcome e handle' = Return r
                      ∧ status_of (w_db w') id' = Some (stored_status r))
      end.
Proof.
  induction task_ids as [|tid rest IH]; intros completed w.
  - exists (Return completed), w. repeat split; try done.
    intros id handle Hin. by apply elem_of_nil in Hin.
  - cbn [foldM]. unfold bind at 1.
    destruct (poll_one_cases e recipients announce completed tid w)
      as ([c1|ex] & w1 & -> & Hh1 & Hs1 & Hd1).
    + destruct (IH c1 w1) as ([c2|ex] & w2 & -> & Hh2 & Hs2 & Hd2).
      * exists (Return c2), w2. split; [done|]. split; [|split].
        -- intros id. by rewrite Hh2.
        -- intros id Hid. apply not_elem_of_cons in Hid as [Hne Hid].
           by rewrite Hs2, Hs1.
        -- intros id handle Hin Hhandle Hne.
           destruct (decide (id ∈ rest)) as [Hrest|Hrest].
           ++ apply Hd2; [done| |done]. by rewrite Hh1.
           ++ apply elem_of_cons in Hin as [->|Hin]; [|done].
              rewrite Hs2 by done. by apply Hd1.
      * destruct Hd2 as (before & id & after & handle & -> & Hhandle & Hne
                         & Hex & Hrest & Hbefore).
        exists (Raise ex), w2. split; [done|]. split; [|split].
        -- intros id'. by rewrite Hh2.
        -- intros id' Hid. apply not_elem_of_cons in Hid as [Hne' Hid].
           by rewrite Hs2, Hs1.
        -- exists (tid :: before), id, after, handle.
           split; [done|]. split; [by rewrite <- Hh1|]. split; [done|].
           split; [done|]. split.
           ++ intros id' Hid. apply not_elem_of_cons in Hid as [Hne' Hid].
              by rewrite Hrest, Hs1.
           ++ intros id' handle' Hin Hhandle' Hne'.
              destruct (decide (id' ∈ before)) as [Hb|Hb].
              ** apply Hbefore; [done| |done]. by rewrite Hh1.
              ** apply elem_of_cons in Hin as [->|Hin]; [|done].
                 rewrite Hrest by done. by apply Hd1.
    + destruct Hd1 as (Hdb & handle & Hhandle & Hne & Hex).
      exists (Raise ex), w1. split; [done|]. rewrite Hdb.
      split; [done|]. split; [done|].
      exists [], tid, rest, handle. repeat split; try done.
      intros id' handle' Hin. by apply elem_of_nil in Hin.
Qed.

(** When the polls of the listed jobs return, the loop returns. *)
Lemma poll_all_spec recipients announce task_ids completed w :
  polls_return e (w_db w) task_ids →
  ∃ completed' w',
    foldM (poll_one e recipients announce) completed task_ids w = (Return completed', w')
    ∧ (∀ id, handle_of (w_db w') id = handle_of (w_db w) id)
    ∧ (∀ id, id ∉ task_ids → status_of (w_db w') id = status_of (w_db w) id)
    ∧ (∀ id handle r, id ∈ task_ids →
         handle_of (w_db w) id = Some (Some handle) → handle ≠ "" →
         poll_outcome e handle = Return r →
         status_of (w_db w') id = Some (stored_status r)).
Proof.
  intros Hret.
  destruct (poll_all_cases recipients announce task_ids completed w)
    as ([c|ex] & w' & Hrun & Hh & Hs & Hd).
  - exists c, w'. split; [done|]. split; [done|]. split; [done|].
    intros id handle r Hin Hhandle Hne Hr.
    destruct (Hd id handle Hin Hhandle Hne) as (r' & Hr' & Hst).
    rewrite Hr in Hr'. by injection Hr' as <-.
  - destruct Hd as (before & id & after & handle & -> & Hhandle & Hne & Hex & _).
    destruct (Hret id handle) as [r Hr]; [|done|done|congruence].
    apply elem_of_app. right. by left.
Qed.

End poll_all_facts.

(** C4, as stated, at concrete replies. A first answer carrying an API
    error code is not polled again: the poll ends at once as failed,
    although the second answer would have reported the finished render.
    A first request that times out is not polled again either: the
    exception leaves the loop, and in the poll phase of a run the job
    after it is never polled. *)
Lemma C4_error_reply_ends_polling_counterexample :
  klingai.poll_task_until_done "kling-task" None api_error_then_succeeded
  = (Return (klingai.bare_result "kling-task" "failed" (Some "Service busy")),
     [klingai.HttpGet 0])
  ∧ (klingai.r_status <$>
       match klingai.get_task_status "kling-task" (api_error_then_succeeded 1) with
       | Return r => Some r | Raise _ => None end) = Some "succeed"
  ∧ klingai.poll_task_until_done "kling-task" None timeout_then_succeeded
    = (Raise TimeoutError, [klingai.HttpGet 0])
  ∧ (vt_klingai_task_id <$> video_tasks C4_store)
    = [Some "task_mock_001"; Some "task_mock_002"]
  ∧ (poll_all C4_env [7] false [1; 2] (initial_world C4_store)).1
    = Raise TimeoutError
  ∧ (vt_status <$>
       video_tasks (w_db (poll_all C4_env [7] false [1; 2] (initial_world C4_store)).2))
    = ["submitted"; "submitted"]
  ∧ w_trace (poll_all C4_env [7] false [1; 2] (initial_world C4_store)).2
    = [Io (klingai.HttpGet 0)].
Proof. by vm_compute. Qed.

(** C4. The poll loop ends after at most one status request per started
    interval of the wait budget (20 with the configured 600 s and 30 s),
    pausing 30 s after every request but the last. It ends at the first
    request that reports succeed or failed or that raises, and returns
    what that request gave. The answers after which it polls again are a
    failed request (a client error) and a body with API code 0 reporting
    another status; an answer with another API code counts as failed and
    ends the poll at once. When no request within the budget ends it, it
    returns status failed with the reason Timeout. In the poll phase of a
    run, when the polls of the listed jobs return, the phase returns and
    every listed job with a handle is stored as succeed or failed as its
    poll ended, whatever happened to the jobs before it. *)
Theorem C4_poll_loop_terminates (e : env) (task_id : string) (timeout : option Z)
    (replies : nat → klingai.get_outcome)
    (recipients : list Z) (announce : bool) (task_ids : list Z) (w : world) :
  let budget := polls_allowed (default KLINGAI_TASK_TIMEOUT timeout) 0 in
  let polled := klingai.poll_task_until_done task_id timeout replies in
  polled = match first_ending task_id replies 0 budget with
           | Some j => (klingai.get_task_status task_id (replies j),
                        waiting 0 j ++ [klingai.HttpGet j])
           | None => (Return (klingai.timeout_result task_id), waiting 0 budget)
           end
  ∧ (klingai.polls (snd polled) <= budget)%nat
  ∧ polls_allowed KLINGAI_TASK_TIMEOUT 0 = 20%nat
  ∧ (∀ j, first_ending task_id replies 0 budget = Some j →
       (j < budget)%nat
       ∧ ends_loop (klingai.get_task_status task_id (replies j)) = true
       ∧ (∀ i, (i < j)%nat →
            ends_loop (klingai.get_task_status task_id (replies i)) = false)
       ∧ klingai.sleeps (snd polled) = replicate j KLINGAI_POLLING_INTERVAL)
  ∧ (first_ending task_id replies 0 budget = None →
       (∀ i, (i < budget)%nat →
          ends_loop (klingai.get_task_status task_id (replies i)) = false)
       ∧ klingai.sleeps (snd polled) = replicate budget KLINGAI_POLLING_INTERVAL)
  ∧ (∀ reply,
       ends_loop (klingai.get_task_status task_id reply) = false
       ↔ (∃ msg, reply = klingai.GetClientError msg)
         ∨ (∃ message data,
              reply = klingai.GetResponse (Some 0) message (klingai.AnObject data)
              ∧ klingai.task_status data ≠ Some "succeed"
              ∧ klingai.task_status data ≠ Some "failed"))
  ∧ (∀ code message data, code ≠ Some 0 →
       klingai.get_task_status task_id (klingai.GetResponse code message data)
       = Return (klingai.bare_result task_id "failed"
                   (Some (default "Unknown error" message))))
  ∧ (klingai.r_status (klingai.timeout_result task_id) = "failed"
     ∧ klingai.r_error (klingai.timeout_result task_id) = Some "Timeout"
     ∧ stored_status (klingai.timeout_result task_id) = "failed")
  ∧ (polls_return e (w_db w) task_ids →
     ∃ completed w',
       poll_all e recipients announce task_ids w = (Return completed, w')
       ∧ ∀ id handle r, id ∈ task_ids →
           handle_of (w_db w) id = Some (Some handle) → handle ≠ "" →
           poll_outcome e handle = Return r →
           status_of (w_db w') id = Some (stored_status r)).
Proof.
  intros budget polled.
  assert (Hspec : polled = match first_ending task_id replies 0 budget with
           | Some j => (klingai.get_task_status task_id (replies j),
                        waiting 0 j ++ [klingai.HttpGet j])
           | None => (Return (klingai.timeout_result task_id), waiting 0 budget)
           end).
  { unfold polled, klingai.poll_task_until_done. rewrite poll_loop_spec.
    fold budget. destruct (first_ending task_id replies 0 budget); [|done].
    by rewrite Nat.sub_0_r. }
  split; [done|].
  split.
  { rewrite Hspec. destruct (first_ending task_id replies 0 budget) as [j|] eqn:Hj.
    - apply first_ending_Some in Hj as [Hj _]. cbn [snd].
      rewrite polls_app, polls_waiting. cbn. lia.
    - cbn [snd]. by rewrite polls_waiting. }
  split; [by vm_compute|].
  split.
  { intros j Hj. rewrite Hspec, Hj. cbn [snd].
    apply first_ending_Some in Hj as (Hj & Hterm & Hbefore).
    repeat split; [lia|done|intros; apply Hbefore; lia|].
    unfold klingai.sleeps. rewrite omap_app. cbn [omap]. rewrite app_nil_r.
    apply sleeps_waiting. }
  split.
  { intros Hnone. rewrite Hspec, Hnone. cbn [snd]. split.
    - intros i Hi. eapply first_ending_None; [exact Hnone|lia].
    - apply sleeps_waiting. }
  split; [apply polled_again|].
  split.
  { intros code message data Hcode. cbn [klingai.get_task_status].
    by rewrite bool_decide_eq_false_2. }
  split; [done|].
  intros Hret.
  destruct (poll_all_spec e recipients announce task_ids 0 w Hret)
    as (c & w' & Hrun & _ & _ & Hdone).
  by exists c, w'.
Qed.

Example poll_never_terminal_times_out :
  klingai.poll_task_until_done "kling-task" None (λ _, render_processing)
  = (Return (klingai.timeout_result "kling-task"), waiting 0 20).
Proof. by vm_compute. Qed.

Example poll_retries_request_errors :
  (klingai.poll_task_until_done "kling-task" None flaky_then_succeeded).2
  = [klingai.HttpGet 0; klingai.Sleep 30; klingai.HttpGet 1; klingai.Sleep 30;
     klingai.HttpGet 2]
  ∧ (klingai.r_status <$>
       match (klingai.poll_task_until_done "kling-task" None flaky_then_succeeded).1 with
       | Return r => Some r | Raise _ => None end) = Some "succeed".
Proof. by vm_compute. Qed.

(** * Timestamps as SQLite compares them *)

Section text_order.

Lemma ascii_compare_refl c : Ascii.compare c c = Eq.
Proof. unfold Ascii.compare. apply N.compare_refl. Qed.

Lemma append_cons c a s : String c a +:+ s = String c (a +:+ s).
Proof. reflexivity. Qed.

Lemma append_empty s : "" +:+ s = s.
Proof. reflexivity. Qed.

Lemma append_nil_r s : s +:+ "" = s.
Proof. induction s as [|c s IH]; [done|]. by rewrite append_cons, IH. Qed.

Lemma compare_append a : ∀ b s t,
  String.length a = String.length b →
  String.compare (a +:+ s) (b +:+ t)
  = match String.compare a b with Eq => String.compare s t | c => c end.
Proof.
  induction a as [|c a IH]; intros [|c' b] s t Hlen; try done.
  rewrite !append_cons. cbn [String.compare].
  destruct (Ascii.compare c c'); try done.
  apply IH. by injection Hlen.
Qed.

Lemma digit_compare x y :
  0 <= x <= 9 → 0 <= y <= 9 → Ascii.compare (digit x) (digit y) = (x ?= y).
Proof.
  intros Hx Hy. unfold Ascii.compare, digit.
  rewrite !N_ascii_embedding by lia.
  rewrite Z2N.inj_compare by lia. apply Z.add_compare_mono_l.
Qed.

Lemma pad2_compare a b :
  0 <= a < 100 → 0 <= b < 100 → String.compare (pad2 a) (pad2 b) = (a ?= b).
Proof.
  intros Ha Hb. unfold pad2. cbn [String.compare].
  pose proof (Z.div_mod a 10 ltac:(lia)) as Ea.
  pose proof (Z.div_mod b 10 ltac:(lia)) as Eb.
  pose proof (Z.mod_pos_bound a 10 ltac:(lia)).
  pose proof (Z.mod_pos_bound b 10 ltac:(lia)).
  assert (0 <= a / 10 <= 9) by (split; [apply Z.div_pos|apply Z.lt_succ_r, Z.div_lt_upper_bound]; lia).
  assert (0 <= b / 10 <= 9) by (split; [apply Z.div_pos|apply Z.lt_succ_r, Z.div_lt_upper_bound]; lia).
  rewrite !digit_compare by lia.
  destruct (Z.compare_spec (a / 10) (b / 10));
    destruct (Z.compare_spec (a mod 10) (b mod 10));
    symmetry; first [apply Z.compare_eq_iff | apply Z.compare_lt_iff | apply Z.compare_gt_iff]; lia.
Qed.

Lemma pad4_compare a b :
  0 <= a < 10000 → 0 <= b < 10000 → String.compare (pad4 a) (pad4 b) = (a ?= b).
Proof.
  intros Ha Hb. unfold pad4.
  pose proof (Z.div_mod a 100 ltac:(lia)) as Ea.
  pose proof (Z.div_mod b 100 ltac:(lia)) as Eb.
  pose proof (Z.mod_pos_bound a 100 ltac:(lia)).
  pose proof (Z.mod_pos_bound b 100 ltac:(lia)).
  assert (0 <= a / 100 < 100) by (split; [apply Z.div_pos|apply Z.div_lt_upper_bound]; lia).
  assert (0 <= b / 100 < 100) by (split; [apply Z.div_pos|apply Z.div_lt_upper_bound]; lia).
  rewrite <- (append_nil_r (pad2 (a mod 100))), <- (append_nil_r (pad2 (b mod 100))).
  rewrite compare_append by done.
  rewrite !append_nil_r, !pad2_compare by lia.
  destruct (Z.compare_spec (a / 100) (b / 100));
    destruct (Z.compare_spec (a mod 100) (b mod 100));
    symmetry; first [apply Z.compare_eq_iff | apply Z.compare_lt_iff | apply Z.compare_gt_iff]; lia.
Qed.

Lemma compare_after_dash s t :
  String.compare ("-" +:+ s) ("-" +:+ t) = String.compare s t.
Proof. reflexivity. Qed.

Lemma date_text_length d : String.length (date_text d) = 10%nat.
Proof. reflexivity. Qed.

Lemma date_text_compare a b :
  wf_datetime a → wf_datetime b →
  String.compare (date_text a) (date_text b) = date_compare (utc_date a) (utc_date b).
Proof.
  intros (Hy1 & Hm1 & Hd1 & _) (Hy2 & Hm2 & Hd2 & _).
  unfold date_text, utc_date, date_compare.
  rewrite compare_append by done. rewrite pad4_compare by lia.
  destruct (dt_year a ?= dt_year b); try done.
  rewrite compare_after_dash, compare_append by done.
  rewrite pad2_compare by lia.
  destruct (dt_month a ?= dt_month b); try done.
  rewrite compare_after_dash. apply pad2_compare; lia.
Qed.

Lemma date_text_midnight now : date_text (replace_midnight now) = date_text now.
Proof. reflexivity. Qed.

(** The stamp of a row against the bound of the query: the dates decide,
    and on equal dates the blank of the stamp sorts before the "T" of the
    bound. *)
Lemma stamp_against_bound created now :
  wf_datetime created → wf_datetime now →
  sql_text_ge (CURRENT_TIMESTAMP created) (isoformat (models.today_start now))
  = match date_compare (utc_date created) (utc_date now) with
    | Gt => true
    | _ => false
    end.
Proof.
  intros Hc Hn. unfold sql_text_ge, CURRENT_TIMESTAMP, isoformat, models.today_start.
  rewrite date_text_midnight.
  rewrite compare_append by done. rewrite date_text_compare by done.
  destruct (date_compare (utc_date created) (utc_date now)); try done.
Qed.

End text_order.

Section idempotency_facts.

Lemma has_video_today_false d now cscart_id :
  (∀ r, r ∈ models.tasks_join_products d →
        models.has_video_where cscart_id (isoformat (models.today_start now)) r = false) →
  models.product_has_video_today d now cscart_id = false.
Proof.
  intros H. unfold models.product_has_video_today.
  induction (models.tasks_join_products d) as [|r l IH]; [done|].
  rewrite filter_cons, (H r) by left.
  rewrite decide_False by done. apply IH. intros r' Hr'. apply H. by right.
Qed.

End idempotency_facts.

Section idempotency_checks.

Lemma stamped_not_later_is_not_counted cscart_id created now vt p :
  wf_datetime created → wf_datetime now →
  vt_created_at vt = CURRENT_TIMESTAMP created →
  date_compare (utc_date created) (utc_date now) ≠ Gt →
  models.has_video_where cscart_id (isoformat (models.today_start now)) (vt, p) = false.
Proof.
  intros Hc Hn Hstamp Hdate. unfold models.has_video_where. cbn [fst snd].
  rewrite Hstamp, stamp_against_bound by done.
  destruct (date_compare (utc_date created) (utc_date now)); try done;
    apply andb_false_r.
Qed.

Lemma today_start_of_date a b :
  utc_date a = utc_date b → models.today_start a = models.today_start b.
Proof.
  unfold utc_date, models.today_start, replace_midnight.
  by intros [= -> -> ->].
Qed.

(** With the two text forms as they are, the jobs of an item are counted
    only when stamped on a UTC date after the current one. *)
Lemma jobs_not_later_are_not_counted d now cscart_id :
  wf_datetime now →
  (∀ vt p, (vt, p) ∈ models.tasks_join_products d → p_cscart_id p = cscart_id →
     ∃ created, wf_datetime created
                ∧ vt_created_at vt = CURRENT_TIMESTAMP created
                ∧ date_compare (utc_date created) (utc_date now) ≠ Gt) →
  models.product_has_video_today d now cscart_id = false.
Proof.
  intros Hnow Hjobs. apply has_video_today_false. intros [vt p] Hin.
  destruct (String.eqb_spec (p_cscart_id p) cscart_id) as [Hp|Hp].
  - destruct (Hjobs vt p Hin Hp) as (created & Hwf & Hstamp & Hdate).
    by eapply stamped_not_later_is_not_counted.
  - unfold models.has_video_where. cbn [fst snd].
    by rewrite (proj2 (String.eqb_neq _ _) Hp).
Qed.

End idempotency_checks.

(** C1, as stated, fails: the job and the check fall on the same business
    day (2026-11-04 in UTC+5), the check comes later, and yet it answers
    false. The job lies before the bound the query uses, midnight UTC of
    2026-11-04, also as an instant. *)
Lemma C1_same_business_day_counterexample :
  business_date C1_created = (2026, 11, 4)
  ∧ business_date C1_checked = (2026, 11, 4)
  ∧ epoch_seconds C1_created < epoch_seconds C1_checked
  ∧ (vt_created_at <$> models.get_video_task C1_store 1) = Some "2026-11-03 20:00:00"
  ∧ isoformat (models.today_start C1_checked) = "2026-11-04T00:00:00+00:00"
  ∧ epoch_seconds C1_created < epoch_seconds (models.today_start C1_checked)
  ∧ models.product_has_video_today C1_store C1_checked "1006" = false.
Proof. by vm_compute. Qed.

(** C1, amended. The day window of the idempotency check starts at midnight
    of the current UTC date (plain UTC; the business timezone plays no
    part): the bound handed to the query is that date followed by
    T00:00:00+00:00, two clock readings of one UTC date give the same
    answer, and a job created on an earlier UTC date never makes the check
    answer true, so an item with jobs of earlier days only is eligible
    again. *)
Theorem C1_day_window_starts_at_utc_midnight
    (d : db) (now : datetime) (cscart_id : string) :
  wf_datetime now →
  (∀ vt p, (vt, p) ∈ models.tasks_join_products d → p_cscart_id p = cscart_id →
     ∃ created, wf_datetime created
                ∧ vt_created_at vt = CURRENT_TIMESTAMP created
                ∧ date_compare (utc_date created) (utc_date now) = Lt) →
  isoformat (models.today_start now) = date_text now +:+ "T00:00:00+00:00"
  ∧ (∀ later, utc_date later = utc_date now →
       models.product_has_video_today d later cscart_id
       = models.product_has_video_today d now cscart_id)
  ∧ models.product_has_video_today d now cscart_id = false.
Proof.
  intros Hnow Hjobs. split; [done|]. split.
  - intros later Hdate. unfold models.product_has_video_today.
    by rewrite (today_start_of_date later now Hdate).
  - apply jobs_not_later_are_not_counted; [done|].
    intros vt p Hin Hp.
    destruct (Hjobs vt p Hin Hp) as (created & Hwf & Hstamp & Hdate).
    exists created. by rewrite Hdate.
Qed.

Lemma C1_day_window_witness :
  isoformat (models.today_start C1_checked) = "2026-11-04" +:+ "T00:00:00+00:00"
  ∧ models.product_has_video_today C1_store (mk_datetime 2026 11 4 23 59 59 0) "1006"
    = models.product_has_video_today C1_store C1_checked "1006"
  ∧ models.product_has_video_today C1_store C1_checked "1006" = false.
Proof.
  assert (Hnow : wf_datetime C1_checked) by (unfold wf_datetime; simpl; lia).
  assert (Hjobs : ∀ vt p, (vt, p) ∈ models.tasks_join_products C1_store →
            p_cscart_id p = "1006" →
            ∃ created, wf_datetime created
                       ∧ vt_created_at vt = CURRENT_TIMESTAMP created
                       ∧ date_compare (utc_date created) (utc_date C1_checked) = Lt).
  { intros vt p Hin _.
    assert (Hj : models.tasks_join_products C1_store
                 = [(default vt (models.get_video_task C1_store 1),
                     default p (models.get_product_by_cscart_id C1_store "1006"))])
      by (by vm_compute).
    rewrite Hj in Hin. apply list_elem_of_singleton in Hin.
    exists C1_created. split; [unfold wf_datetime; simpl; lia|].
    split; [|reflexivity].
    injection Hin as -> _. by vm_compute. }
  destruct (C1_day_window_starts_at_utc_midnight C1_store C1_checked "1006" Hnow Hjobs)
    as (Hbound & Hdate & Hfalse).
  split; [exact Hbound|]. split; [|exact Hfalse].
  apply Hdate. reflexivity.
Defined.

(** C10: the code at the failing input. The item's only job was created
    today (same UTC date, same business date, after the midnight the bound
    names) and has failed; the check answers false, so the item is not
    skipped. *)
Theorem C10_failed_job_of_today_is_not_counted :
  status_of C10_store 1 = Some "failed"
  ∧ (vt_created_at <$> models.get_video_task C10_store 1) = Some "2026-11-03 04:05:00"
  ∧ isoformat (models.today_start C10_checked) = "2026-11-03T00:00:00+00:00"
  ∧ utc_date C10_created = utc_date C10_checked
  ∧ business_date C10_created = business_date C10_checked
  ∧ epoch_seconds (models.today_start C10_checked) <= epoch_seconds C10_created
  ∧ sql_text_ge "2026-11-03 04:05:00" "2026-11-03T00:00:00+00:00" = false
  ∧ models.product_has_video_today C10_store C10_checked "1006" = false.
Proof. by vm_compute. Qed.

Section status_blind.

(** The query never reads a job's status: changing the status of any job
    leaves the check's answer as it was. *)
Lemma product_has_video_today_ignores_status d t task_id s now cscart_id :
  models.product_has_video_today
    (models.update_video_task d t task_id (status_only s)) now cscart_id
  = models.product_has_video_today d now cscart_id.
Proof.
  set (bound := isoformat (models.today_start now)).
  enough (Hlen :
    length (filter (λ r, models.has_video_where cscart_id bound r = true)
              (models.tasks_join_products
                 (models.update_video_task d t task_id (status_only s))))
    = length (filter (λ r, models.has_video_where cscart_id bound r = true)
                (models.tasks_join_products d))).
  { unfold models.product_has_video_today. fold bound. by rewrite Hlen. }
  unfold models.tasks_join_products, models.update_video_task.
  cbn [models.kwargs_empty status_only models.set_status models.set_video_url
       models.set_telegram_message_id video_tasks products].
  set (upd := λ vt, if bool_decide (vt_id vt = task_id)
                    then models.apply_task_update t (status_only s) vt else vt).
  assert (Hpid : ∀ vt, vt_product_id (upd vt) = vt_product_id vt)
    by (intros vt; unfold upd; by case_bool_decide).
  assert (Hcr : ∀ vt, vt_created_at (upd vt) = vt_created_at vt)
    by (intros vt; unfold upd; by case_bool_decide).
  induction (video_tasks d) as [|vt vts IH]; [done|].
  rewrite fmap_cons, !bind_cons, !filter_app, !length_app, IH. f_equal.
  rewrite Hpid. clear IH.
  induction (products d) as [|p ps IHp]; [done|].
  rewrite !bind_cons, !filter_app, !length_app, IHp. f_equal.
  case_bool_decide; [|done].
  rewrite !filter_cons, !filter_nil.
  unfold models.has_video_where. cbn [fst snd]. rewrite Hcr.
  by destruct (decide _).
Qed.

End status_blind.

(** * Steps of a run: what they leave alone, and when they return *)

Section frames.
Variable e : env.

Lemma keeps_sessions_ret {A : Type} (a : A) : keeps_sessions (ret a).
Proof. done. Qed.

Lemma keeps_sessions_lift {A : Type} (r : result A) : keeps_sessions (lift r).
Proof. done. Qed.

Lemma keeps_sessions_emit ev : keeps_sessions (emit ev).
Proof. done. Qed.

Lemma keeps_sessions_emit_io tr : keeps_sessions (emit_io tr).
Proof. done. Qed.

Lemma keeps_sessions_read_db {A : Type} (f : db → A) : keeps_sessions (read_db f).
Proof. done. Qed.

Lemma keeps_sessions_now : keeps_sessions (now e).
Proof. done. Qed.

Lemma keeps_sessions_next_submission : keeps_sessions next_submission.
Proof. done. Qed.

Lemma keeps_sessions_write_db {A : Type} (f : db → db * A) :
  (∀ d, generation_sessions (f d).1 = generation_sessions d) →
  keeps_sessions (write_db f).
Proof.
  intros Hf w. unfold write_db. specialize (Hf (w_db w)).
  by destruct (f (w_db w)).
Qed.

Lemma keeps_sessions_bind {A B : Type} (m : M A) (k : A → M B) :
  keeps_sessions m → (∀ a, keeps_sessions (k a)) → keeps_sessions (bind m k).
Proof.
  intros Hm Hk w. unfold bind. specialize (Hm w).
  destruct (m w) as [[a|ex] w1]; [|done].
  cbn [snd] in Hm. by rewrite (Hk a w1).
Qed.

Lemma keeps_sessions_try_except {A : Type} (m : M A) (h : exn → M A) :
  keeps_sessions m → (∀ ex, keeps_sessions (h ex)) → keeps_sessions (try_except m h).
Proof.
  intros Hm Hh w. unfold try_except. specialize (Hm w).
  destruct (m w) as [[a|ex] w1]; [done|].
  cbn [snd] in Hm. by rewrite (Hh ex w1).
Qed.

Lemma keeps_sessions_foldM {A B : Type} (f : A → B → M A) (l : list B) :
  (∀ s b, keeps_sessions (f s b)) → ∀ s, keeps_sessions (foldM f s l).
Proof.
  intros Hf. induction l as [|b l IH]; intros s; cbn [foldM].
  - apply keeps_sessions_ret.
  - apply keeps_sessions_bind; [apply Hf|apply IH].
Qed.

Lemma returns_ret {A : Type} (a : A) : returns (ret a).
Proof. intros w. by exists a. Qed.

Lemma returns_emit ev : returns (emit ev).
Proof. intros w. by exists tt. Qed.

Lemma returns_emit_io tr : returns (emit_io tr).
Proof. intros w. by exists tt. Qed.

Lemma returns_read_db {A : Type} (f : db → A) : returns (read_db f).
Proof. intros w. by eexists. Qed.

Lemma returns_write_db {A : Type} (f : db → db * A) : returns (write_db f).
Proof. intros w. unfold write_db. destruct (f (w_db w)). by eexists. Qed.

Lemma returns_now : returns (now e).
Proof. intros w. by eexists. Qed.

Lemma returns_bind {A B : Type} (m : M A) (k : A → M B) :
  returns m → (∀ a, returns (k a)) → returns (bind m k).
Proof.
  intros Hm Hk w. unfold bind. destruct (Hm w) as [a Ha].
  destruct (m w) as [[a'|ex] w1]; [|done]. apply Hk.
Qed.

Lemma returns_try_except {A : Type} (m : M A) (h : exn → M A) :
  (∀ ex, returns (h ex)) → returns (try_except m h).
Proof.
  intros Hh w. unfold try_except.
  destruct (m w) as [[a|ex] w1]; [by exists a|]. apply Hh.
Qed.

(** A task started in the background does not raise into its creator. *)
Lemma returns_create_task (m : M unit) : returns (create_task m).
Proof. apply returns_try_except. intros ex. apply returns_ret. Qed.

Lemma keeps_sessions_create_task (m : M unit) :
  keeps_sessions m → keeps_sessions (create_task m).
Proof.
  intros Hm. apply keeps_sessions_try_except; [done|].
  intros ex. apply keeps_sessions_ret.
Qed.

Lemma returns_foldM {A B : Type} (f : A → B → M A) (l : list B) :
  (∀ s b, returns (f s b)) → ∀ s, returns (foldM f s l).
Proof.
  intros Hf. induction l as [|b l IH]; intros s; cbn [foldM].
  - apply returns_ret.
  - apply returns_bind; [apply Hf|apply IH].
Qed.

(** Both facts at one world. *)
Lemma run_of {A : Type} (m : M A) w :
  returns m → keeps_sessions m →
  ∃ a w', m w = (Return a, w')
          ∧ generation_sessions (w_db w') = generation_sessions (w_db w).
Proof.
  intros Hr Hk. destruct (Hr w) as [a Ha]. specialize (Hk w).
  destruct (m w) as [r w']. cbn [fst snd] in *. subst r. by exists a, w'.
Qed.

End frames.

Ltac step_facts :=
  repeat first
    [ match goal with |- ∀ _, _ => intro end
    | apply keeps_sessions_ret | apply keeps_sessions_lift
    | apply keeps_sessions_emit | apply keeps_sessions_emit_io
    | apply keeps_sessions_read_db | apply keeps_sessions_now
    | apply keeps_sessions_next_submission
    | apply keeps_sessions_bind | apply keeps_sessions_try_except
    | apply keeps_sessions_foldM
    | apply keeps_sessions_write_db
    | apply returns_ret | apply returns_emit | apply returns_emit_io
    | apply returns_read_db | apply returns_write_db | apply returns_now
    | apply returns_bind | apply returns_try_except | apply returns_foldM
    | match goal with
      | |- keeps_sessions (match ?x with _ => _ end) => destruct x
      | |- returns (match ?x with _ => _ end) => destruct x
      end ].

Section run_frames.
Variable e : env.

Lemma update_session_sessions d session_id k :
  gs_id <$> generation_sessions (models.update_session d session_id k)
  = gs_id <$> generation_sessions d.
Proof.
  unfold models.update_session. destruct (models.session_kwargs_empty k); [done|].
  cbn [generation_sessions]. rewrite <- list_fmap_compose.
  apply list_fmap_ext. intros i s _. simpl. by case_bool_decide.
Qed.

Lemma keeps_sessions_update_video_task task_id k :
  keeps_sessions (update_video_task e task_id k).
Proof.
  unfold update_video_task. step_facts.
  unfold models.update_video_task. by destruct (models.kwargs_empty k).
Qed.

Lemma returns_update_video_task task_id k : returns (update_video_task e task_id k).
Proof. unfold update_video_task. step_facts. Qed.

Lemma returns_update_session session_id k : returns (update_session session_id k).
Proof. unfold update_session. step_facts. Qed.

Lemma keeps_sessions_product_has_video_today cid :
  keeps_sessions (product_has_video_today e cid).
Proof. unfold product_has_video_today. step_facts. Qed.

Lemma keeps_sessions_send_video_for_approval r twp :
  keeps_sessions (send_video_for_approval e r twp).
Proof.
  unfold send_video_for_approval. step_facts;
    apply keeps_sessions_update_video_task.
Qed.

Lemma returns_send_video_for_approval r twp :
  returns (send_video_for_approval e r twp).
Proof.
  unfold send_video_for_approval. step_facts; apply returns_update_video_task.
Qed.

Lemma keeps_sessions_poll_one recipients announce completed task_id :
  keeps_sessions (poll_one e recipients announce completed task_id).
Proof.
  unfold poll_one. step_facts;
    first [apply keeps_sessions_update_video_task
          |apply keeps_sessions_send_video_for_approval].
Qed.

Lemma keeps_sessions_poll_all recipients announce task_ids :
  keeps_sessions (poll_all e recipients announce task_ids).
Proof. apply keeps_sessions_foldM, keeps_sessions_poll_one. Qed.

Lemma keeps_sessions_save_scored product_map ranking :
  keeps_sessions (save_scored e product_map ranking).
Proof.
  unfold save_scored. step_facts.
  unfold models.upsert_product. cbn [fst].
  by destruct (list_find _ (products d)) as [[? ?]|].
Qed.

Lemma returns_save_scored product_map ranking :
  returns (save_scored e product_map ranking).
Proof. unfold save_scored. step_facts. Qed.

Lemma keeps_sessions_submit_prompt product db_product acc pd :
  keeps_sessions (submit_prompt e product db_product acc pd).
Proof. unfold submit_prompt. step_facts. Qed.

Lemma returns_submit_prompt product db_product acc pd :
  returns (submit_prompt e product db_product acc pd).
Proof. unfold submit_prompt. step_facts. Qed.

Lemma keeps_sessions_create_tasks product_map selected :
  keeps_sessions (create_tasks e product_map selected).
Proof.
  unfold create_tasks, tasks_for_selected. step_facts;
    first [apply keeps_sessions_product_has_video_today
          |apply keeps_sessions_submit_prompt].
Qed.

End run_frames.

(** * Fan-out: one failed submission does not stop the others *)

Section fan_out_facts.
Variable e : env.





End fan_out_facts.

(** * The end of a run *)

#[global] Arguments poll_all : simpl never.
#[global] Arguments create_tasks : simpl never.
#[global] Arguments save_scored : simpl never.
#[global] Arguments create_session : simpl never.
#[global] Arguments models.update_session : simpl never.
#[global] Arguments models.create_session : simpl never.
#[global] Arguments deduplicate : simpl never.
#[global] Arguments select_for_generation : simpl never.
#[global] Arguments claude_stylist.select_and_score_products : simpl never.

Section run_end_facts.
Variable e : env.









End run_end_facts.

Section item_loop_facts.
Variable e : env.
Hypothesis prompts_delivered : ∀ p, ∃ prompts, generate_prompts e p = Return prompts.



End item_loop_facts.


(** The scenario of the specification: item 102 is rejected twice and gets
    no job; the jobs of items 101 and 103 are created, polled to success and
    the run ends completed, both scheduled and manual. *)
Example C8_rejected_item_scenario :
  let scheduled := (scheduler.daily_generation_job C8_env (initial_world empty_db)).2 in
  let manual := (handlers.manual_run C8_env 7 (initial_world empty_db)).2 in
  (p_cscart_id <$> products (w_db scheduled)) = ["101"; "102"; "103"]
  ∧ ((λ vt, (vt_product_id vt, vt_status vt)) <$> video_tasks (w_db scheduled))
    = [(1, "succeed"); (1, "succeed"); (3, "succeed"); (3, "succeed")]
  ∧ session_status (w_db scheduled) 1 = Some "completed"
  ∧ ((λ vt, (vt_product_id vt, vt_status vt)) <$> video_tasks (w_db manual))
    = [(1, "succeed"); (1, "succeed"); (3, "succeed"); (3, "succeed")]
  ∧ session_status (w_db manual) 1 = Some "completed".
Proof. by vm_compute. Qed.

(** At the level of a run: a manual run on the day of the scheduled run is
    not held back by the jobs that run created; items 101 and 103 get a
    second pair of jobs. *)
Example same_day_rerun_creates_jobs_again :
  let scheduled := (scheduler.daily_generation_job C8_env (initial_world empty_db)).2 in
  let manual := (handlers.manual_run C8_env 7 scheduled).2 in
  (vt_product_id <$> video_tasks (w_db scheduled)) = [1; 1; 3; 3]
  ∧ (vt_product_id <$> video_tasks (w_db manual)) = [1; 1; 3; 3; 1; 1; 2; 2; 3; 3]
  ∧ ((λ vt, vt_created_at vt) <$> video_tasks (w_db manual))
    = replicate 10 "2026-11-03 04:00:00".
Proof. by vm_compute. Qed.

(** * The run's row in the table of runs *)

Section session_row_facts.
Variable e : env.

Lemma last_session_update d session_id k row :
  last_session d = Some row → gs_id row = session_id →
  last_session (models.update_session d session_id k)
  = Some (if models.session_kwargs_empty k then row
          else models.apply_session_update k row)
  ∧ length (generation_sessions (models.update_session d session_id k))
    = length (generation_sessions d).
Proof.
  intros Hlast Hid. unfold last_session, models.update_session in *.
  destruct (models.session_kwargs_empty k); [done|].
  cbn [generation_sessions]. rewrite fmap_last, Hlast, length_fmap. simpl.
  by rewrite bool_decide_eq_true_2.
Qed.

Lemma last_session_create d t :
  last_session (models.create_session d t).1
  = Some {| gs_id := (models.create_session d t).2;
            gs_started_at := CURRENT_TIMESTAMP t;
            gs_products_fetched := 0; gs_products_selected := 0;
            gs_videos_generated := 0; gs_videos_approved := 0;
            gs_status := "running" |}
  ∧ length (generation_sessions (models.create_session d t).1)
    = S (length (generation_sessions d))
  ∧ products (models.create_session d t).1 = products d
  ∧ video_tasks (models.create_session d t).1 = video_tasks d.
Proof.
  unfold last_session, models.create_session. cbn [fst snd generation_sessions].
  rewrite last_snoc, length_app. cbn. split; [done|]. split; [lia|done].
Qed.

End session_row_facts.

(** C9: the code at the failing input. When both fetches come back empty,
    the manual run only reports it: the store is left as it was, so no row
    of the run exists and no failed status is recorded. The scheduled run,
    on the same input, has inserted its row before fetching and marks it
    failed, reporting once. *)
Theorem C9_manual_run_without_items_records_no_run
    (e : env) (chat_id : Z) (w : world) :
  get_new_products e = Return [] →
  get_popular_products e = Return [] →
  handlers.manual_run e chat_id w = (Return tt, add_trace w [Notice NoProducts])
  ∧ ∃ w', scheduler.daily_generation_job e w = (Return tt, w')
          ∧ length (generation_sessions (w_db w'))
            = S (length (generation_sessions (w_db w)))
          ∧ (gs_status <$> last_session (w_db w')) = Some "failed"
          ∧ (gs_products_fetched <$> last_session (w_db w')) = Some 0
          ∧ w_trace w' = w_trace w ++ [Notice RunStarted; Notice NoProducts].
Proof.
  intros Hnew Hpop. split.
  - unfold handlers.manual_run, handlers.cmd_generate, bind at 1, try_except.
    rewrite Hnew. unfold bind at 1, lift. rewrite Hpop. unfold bind at 1. done.
  - unfold scheduler.daily_generation_job, bind at 1.
    unfold create_session, bind at 1, now, write_db. cbn [w_db w_tick].
    destruct (last_session_create (w_db w) (clock e (w_tick w)))
      as (Hlast & Hlen & _).
    destruct (models.create_session (w_db w) (clock e (w_tick w))) as [d1 sid].
    cbn [fst snd] in *.
    unfold try_except, scheduler.job_body, bind at 1, emit. 
    rewrite Hnew. unfold bind at 1, lift. rewrite Hpop. unfold bind at 1.
    unfold deduplicate. cbn [app foldl snd length Z.of_nat].
    unfold bind, update_session, write_db, emit. cbn.
    destruct (last_session_update d1 sid (only_fetched 0) _ Hlast eq_refl)
      as [Hlast2 Hlen2]. cbn in Hlast2.
    destruct (last_session_update _ sid (only_status "failed") _ Hlast2 eq_refl)
      as [Hlast3 Hlen3]. cbn in Hlast3.
    eexists. split; [reflexivity|]. cbn [w_db w_trace]. change (Z.of_nat 0) with 0.
    rewrite Hlast3, Hlen3, Hlen2, Hlen, <- app_assoc. done.
Qed.

Lemma C9_no_items_witness :
  handlers.manual_run C9_env 7 (initial_world empty_db)
    = (Return tt, add_trace (initial_world empty_db) [Notice NoProducts])
  ∧ ∃ w', scheduler.daily_generation_job C9_env (initial_world empty_db) = (Return tt, w')
          ∧ length (generation_sessions (w_db w'))
            = S (length (generation_sessions (w_db (initial_world empty_db))))
          ∧ (gs_status <$> last_session (w_db w')) = Some "failed"
          ∧ (gs_products_fetched <$> last_session (w_db w')) = Some 0
          ∧ w_trace w' = w_trace (initial_world empty_db)
                         ++ [Notice RunStarted; Notice NoProducts].
Proof.
  apply (C9_manual_run_without_items_records_no_run C9_env 7 (initial_world empty_db));
    reflexivity.
Defined.

(** * Curation: fallback and abort *)

Section curation_facts.
Variable e : env.

Lemma fallback_selected_prefix products : ∀ k,
  filter (λ s, is_selected s = true) (imap (λ i, fallback_entry (k + i)) products)
  = take (PRODUCTS_TO_SELECT_DAILY - k) (imap (λ i, fallback_entry (k + i)) products).
Proof.
  induction products as [|p ps IH]; intros k; [cbn [imap]; by rewrite take_nil|].
  cbn [imap]. rewrite filter_cons.
  rewrite (imap_ext _ (λ i, fallback_entry (S k + i))) by (intros; simpl; f_equal; lia).
  rewrite IH.
  destruct (decide (is_selected (fallback_entry (k + 0) p) = true)) as [Hs|Hs];
    unfold is_selected, fallback_entry in Hs; cbn [s_selected default] in Hs.
  - apply bool_decide_eq_true in Hs.
    replace (PRODUCTS_TO_SELECT_DAILY - k)%nat
      with (S (PRODUCTS_TO_SELECT_DAILY - S k)) by lia. done.
  - apply not_true_is_false, bool_decide_eq_false in Hs.
    replace (PRODUCTS_TO_SELECT_DAILY - S k)%nat with 0%nat by lia.
    replace (PRODUCTS_TO_SELECT_DAILY - k)%nat with 0%nat by lia. done.
Qed.

Lemma fallback_ranking_selection products :
  products ≠ [] →
  select_for_generation PRODUCTS_TO_SELECT_DAILY (claude_stylist.fallback_ranking products)
  = (claude_stylist.fallback_ranking products,
     take PRODUCTS_TO_SELECT_DAILY (claude_stylist.fallback_ranking products)).
Proof.
  intros Hne. unfold select_for_generation.
  change (claude_stylist.fallback_ranking products)
    with (imap (λ i, fallback_entry (0 + i)) products).
  rewrite fallback_selected_prefix, Nat.sub_0_r.
  destruct products as [|p ps]; [done|]. done.
Qed.

Lemma fallback_ranking_lookup products i p :
  products !! i = Some p →
  claude_stylist.fallback_ranking products !! i = Some (fallback_entry i p).
Proof.
  intros Hp. unfold claude_stylist.fallback_ranking.
  rewrite list_lookup_imap, Hp. done.
Qed.

Lemma job_body_after_fallback session_id w new_products popular_products products :
  get_new_products e = Return new_products →
  get_popular_products e = Return popular_products →
  deduplicate new_products popular_products = products →
  products ≠ [] →
  curator_scoring e products = ReplyText NotJson →
  scheduler.job_body e session_id w
  = scheduler.after_curation e session_id products
      (claude_stylist.fallback_ranking products)
      (take PRODUCTS_TO_SELECT_DAILY (claude_stylist.fallback_ranking products))
      (before_curation w session_id (length products)).
Proof.
  intros Hnew Hpop Hall Hne Hreply.
  unfold scheduler.job_body, bind at 1, emit.
  rewrite Hnew. unfold bind at 1, lift. rewrite Hpop. unfold bind at 1.
  rewrite Hall. unfold bind at 1, update_session, write_db. cbn [w_db].
  destruct products as [|p ps] eqn:Hproducts; [done|]. rewrite <- Hproducts in *.
  cbn [claude_stylist.select_and_score_products]. rewrite Hreply.
  unfold claude_stylist.select_and_score_products, bind at 1.
  by rewrite fallback_ranking_selection.
Qed.

Lemma job_aborts_when_scoring_raises w new_products popular_products products ex :
  get_new_products e = Return new_products →
  get_popular_products e = Return popular_products →
  deduplicate new_products popular_products = products →
  products ≠ [] →
  claude_stylist.select_and_score_products products (curator_scoring e products)
    = Raise ex →
  ∃ w', scheduler.daily_generation_job e w = (Return tt, w')
        ∧ (gs_status <$> last_session (w_db w')) = Some "failed"
        ∧ video_tasks (w_db w') = video_tasks (w_db w)
        ∧ w_trace w' = w_trace w ++ [Notice RunStarted; LogError ex; Notice (RunFailed ex)].
Proof.
  intros Hnew Hpop Hall Hne Hraise.
  unfold scheduler.daily_generation_job, bind at 1.
  unfold create_session, bind at 1, now, write_db. cbn [w_db w_tick].
  destruct (last_session_create (w_db w) (clock e (w_tick w)))
    as (Hlast & _ & _ & Htasks).
  destruct (models.create_session (w_db w) (clock e (w_tick w))) as [d1 sid].
  cbn [fst snd] in *.
  unfold try_except, scheduler.job_body, bind at 1, emit.
  rewrite Hnew. unfold bind at 1, lift. rewrite Hpop. unfold bind at 1.
  rewrite Hall. unfold bind at 1, update_session, write_db. cbn [w_db].
  destruct products as [|p ps] eqn:Hproducts; [done|]. rewrite <- Hproducts in *.
  unfold bind at 1. rewrite Hraise.
  unfold bind, emit, write_db. cbn.
  destruct (last_session_update d1 sid (only_fetched (Z.of_nat (length products)))
              _ Hlast eq_refl) as [Hlast2 _]. cbn in Hlast2.
  destruct (last_session_update _ sid (only_status "failed") _ Hlast2 eq_refl)
    as [Hlast3 _]. cbn in Hlast3.
  eexists. split; [reflexivity|]. cbn [w_db w_trace].
  rewrite Hlast3, <- !app_assoc. split; [done|]. split; [|done].
  rewrite <- Htasks. unfold models.update_session. cbn. done.
Qed.

End curation_facts.

(** C6, as stated, fails: a reply that is malformed but parses (here a JSON
    array where an object was asked for) is not replaced by the fallback.
    The scoring call raises, and the scheduled run ends failed without
    creating a job. The same happens when the first ranked entry has no
    score. *)
Lemma C6_malformed_json_aborts_counterexample :
  let all_products := [sample_item "101"; sample_item "102"; sample_item "103"] in
  let w' := (scheduler.daily_generation_job C6_env (initial_world empty_db)).2 in
  claude_stylist.select_and_score_products all_products
    (ReplyText (JsonOther JsonArray)) = Raise AttributeError
  ∧ claude_stylist.select_and_score_products all_products
      (ReplyText (JsonObject (Some
         [ {| s_cscart_id := "101"; s_score := None;
              s_reasoning := None; s_selected := Some true |} ]))) = Raise KeyError
  ∧ session_status (w_db w') 1 = Some "failed"
  ∧ video_tasks (w_db w') = []
  ∧ w_trace w' = [Notice RunStarted; LogError AttributeError;
                  Notice (RunFailed AttributeError)].
Proof. by vm_compute. Qed.

(** C6, amended. Reply text that is not JSON is not fatal: the scoring call
    returns the fallback ranking (every product with score 5, the first five
    marked selected), the selection is those first five, and the scheduled
    run goes on to the steps after curation. A failure of the API call
    propagates, and so does any other error of the scoring call, such as a
    reply that is valid JSON of another shape (top level not an object, a
    first ranked entry without score); whenever the scoring call raises, the
    scheduled run ends failed, creates no job and reports the error. *)
Theorem C6_only_unparseable_text_falls_back (e : env) (products : list item) :
  claude_stylist.select_and_score_products products (ReplyText NotJson)
    = Return (claude_stylist.fallback_ranking products)
  ∧ length (claude_stylist.fallback_ranking products) = length products
  ∧ (∀ i p, products !! i = Some p →
       claude_stylist.fallback_ranking products !! i
       = Some {| s_cscart_id := it_cscart_id p; s_score := Some 5%Q;
                 s_reasoning := Some "Fallback";
                 s_selected := Some (bool_decide (i < PRODUCTS_TO_SELECT_DAILY)%nat) |})
  ∧ (products ≠ [] →
       select_for_generation PRODUCTS_TO_SELECT_DAILY
         (claude_stylist.fallback_ranking products)
       = (claude_stylist.fallback_ranking products,
          take PRODUCTS_TO_SELECT_DAILY (claude_stylist.fallback_ranking products)))
  ∧ (∀ session_id w new_products popular_products,
       get_new_products e = Return new_products →
       get_popular_products e = Return popular_products →
       deduplicate new_products popular_products = products →
       products ≠ [] →
       curator_scoring e products = ReplyText NotJson →
       scheduler.job_body e session_id w
       = scheduler.after_curation e session_id products
           (claude_stylist.fallback_ranking products)
           (take PRODUCTS_TO_SELECT_DAILY (claude_stylist.fallback_ranking products))
           (before_curation w session_id (length products)))
  ∧ claude_stylist.select_and_score_products products ReplyApiError = Raise APIError
  ∧ (∀ k, claude_stylist.select_and_score_products products (ReplyText (JsonOther k))
          = Raise AttributeError)
  ∧ (∀ s rest, s_score s = None →
       claude_stylist.select_and_score_products products
         (ReplyText (JsonObject (Some (s :: rest)))) = Raise KeyError)
  ∧ (∀ w new_products popular_products ex,
       get_new_products e = Return new_products →
       get_popular_products e = Return popular_products →
       deduplicate new_products popular_products = products →
       products ≠ [] →
       claude_stylist.select_and_score_products products (curator_scoring e products)
         = Raise ex →
       ∃ w', scheduler.daily_generation_job e w = (Return tt, w')
             ∧ (gs_status <$> last_session (w_db w')) = Some "failed"
             ∧ video_tasks (w_db w') = video_tasks (w_db w)
             ∧ w_trace w' = w_trace w ++ [Notice RunStarted; LogError ex;
                                          Notice (RunFailed ex)]).
Proof.
  split; [done|].
  split; [apply length_imap|].
  split; [intros i p Hp; by apply fallback_ranking_lookup|].
  split; [apply fallback_ranking_selection|].
  split; [intros; by apply (job_body_after_fallback e _ _ new_products popular_products)|].
  split; [done|].
  split; [done|].
  split.
  { intros s rest Hs. unfold claude_stylist.select_and_score_products.
    cbn [default id]. by rewrite Hs. }
  intros. by eapply job_aborts_when_scoring_raises.
Qed.

(** * The job store: items *)

Section upsert_facts.
Variables (d : db) (t : datetime) (cscart_id name : string)
          (category image_url : option string) (price : option Q)
          (vendor : option string) (ai_score : Q).

Let upserted := models.upsert_product d t cscart_id name category image_url
                  price vendor ai_score.

Lemma upsert_product_known i old :
  list_find (λ p, p_cscart_id p = cscart_id) (products d) = Some (i, old) →
  upserted.2 = p_id old
  ∧ length (products upserted.1) = length (products d)
  ∧ list_find (λ p, p_cscart_id p = cscart_id) (products upserted.1)
    = Some (i, {| p_id := p_id old; p_cscart_id := p_cscart_id old; p_name := name;
                  p_category := category; p_image_url := image_url;
                  p_price := price; p_vendor := vendor; p_ai_score := ai_score;
                  p_created_at := p_created_at old |}).
Proof.
  intros Hfind. unfold upserted, models.upsert_product. rewrite Hfind.
  cbn [fst snd products]. split; [done|]. split; [by rewrite length_fmap|].
  rewrite list_find_fmap.
  rewrite (list_find_ext _ (λ p, p_cscart_id p = cscart_id)).
  - rewrite Hfind. cbn. apply list_find_Some in Hfind as (_ & Hid & _).
    by rewrite (proj2 (String.eqb_eq _ _) Hid).
  - intros p. cbn. by destruct (String.eqb (p_cscart_id p) cscart_id).
Qed.

Lemma upsert_product_new :
  list_find (λ p, p_cscart_id p = cscart_id) (products d) = None →
  upserted.2 = next_product_id d
  ∧ products upserted.1
    = products d ++ [{| p_id := next_product_id d; p_cscart_id := cscart_id;
                        p_name := name; p_category := category;
                        p_image_url := image_url; p_price := price;
                        p_vendor := vendor; p_ai_score := ai_score;
                        p_created_at := CURRENT_TIMESTAMP t |}].
Proof.
  intros Hfind. unfold upserted, models.upsert_product. by rewrite Hfind.
Qed.

Lemma upsert_product_other other :
  other ≠ cscart_id →
  models.get_product_by_cscart_id upserted.1 other
  = models.get_product_by_cscart_id d other.
Proof.
  intros Hne. unfold models.get_product_by_cscart_id.
  destruct (list_find (λ p, p_cscart_id p = cscart_id) (products d))
    as [[i old]|] eqn:Hfind.
  - unfold upserted, models.upsert_product. rewrite Hfind. cbn [fst products].
    rewrite list_find_fmap.
    rewrite (list_find_ext _ (λ p, p_cscart_id p = other)).
    + destruct (list_find (λ p, p_cscart_id p = other) (products d))
        as [[j p]|] eqn:Hother; [|done].
      cbn. apply list_find_Some in Hother as (_ & Hid & _).
      rewrite (proj2 (String.eqb_neq _ _)); [done|]. by rewrite Hid.
    + intros p. cbn. by destruct (String.eqb (p_cscart_id p) cscart_id).
  - destruct (upsert_product_new Hfind) as [_ ->].
    destruct (list_find (λ p, p_cscart_id p = other) (products d))
      as [[j p]|] eqn:Hother.
    + by rewrite (list_find_app_l _ _ _ _ _ Hother).
    + rewrite list_find_app_r by done. cbn.
      by rewrite decide_False by (intros ?; by apply Hne).
Qed.

Lemma upsert_product_leaves_jobs :
  video_tasks upserted.1 = video_tasks d
  ∧ generation_sessions upserted.1 = generation_sessions d.
Proof.
  unfold upserted, models.upsert_product.
  by destruct (list_find _ (products d)) as [[? ?]|].
Qed.

End upsert_facts.

(** X1. An upsert is read back: afterwards the item's row carries the fields
    just written and its id is the one returned. A known item keeps its id
    and creation stamp and the table its size; a new item is one more row,
    stamped with the clock. The rows of other items, the jobs and the runs
    are untouched. *)
Theorem X1_upsert_product_is_read_back (d : db) (t : datetime)
    (cscart_id name : string) (category image_url : option string)
    (price : option Q) (vendor : option string) (ai_score : Q) :
  let d' := (models.upsert_product d t cscart_id name category image_url
               price vendor ai_score).1 in
  let id := (models.upsert_product d t cscart_id name category image_url
               price vendor ai_score).2 in
  (∃ row, models.get_product_by_cscart_id d' cscart_id = Some row
          ∧ p_id row = id ∧ p_cscart_id row = cscart_id ∧ p_name row = name
          ∧ p_category row = category ∧ p_image_url row = image_url
          ∧ p_price row = price ∧ p_vendor row = vendor ∧ p_ai_score row = ai_score
          ∧ match models.get_product_by_cscart_id d cscart_id with
            | Some old =>
                p_id row = p_id old ∧ p_created_at row = p_created_at old
                ∧ length (products d') = length (products d)
            | None =>
                p_created_at row = CURRENT_TIMESTAMP t
                ∧ length (products d') = S (length (products d))
            end)
  ∧ (∀ other, other ≠ cscart_id →
       models.get_product_by_cscart_id d' other
       = models.get_product_by_cscart_id d other)
  ∧ video_tasks d' = video_tasks d
  ∧ generation_sessions d' = generation_sessions d.
Proof.
  intros d' id. subst d' id.
  split; [|split; [apply upsert_product_other|apply upsert_product_leaves_jobs]].
  unfold models.get_product_by_cscart_id.
  destruct (list_find (λ p, p_cscart_id p = cscart_id) (products d))
    as [[i old]|] eqn:Hfind.
  - destruct (upsert_product_known d t cscart_id name category image_url
                price vendor ai_score i old Hfind) as (Hid & Hlen & ->).
    eexists. split; [reflexivity|]. cbn. rewrite Hid.
    apply list_find_Some in Hfind as (_ & Hcid & _). done.
  - destruct (upsert_product_new d t cscart_id name category image_url
                price vendor ai_score Hfind) as (Hid & Hrows).
    rewrite Hrows, list_find_app_r by done. cbn.
    rewrite decide_True by done. cbn.
    eexists. split; [reflexivity|]. cbn. rewrite Hid, length_app. cbn.
    repeat split; try done. lia.
Qed.

(** * The job store: what its operations keep *)

Section rowid_facts.
Context {A : Type} (id : A → Z).
Implicit Types rows : list A.

Lemma rowids_nil : rowids id [].
Proof. intros i row Hi. by rewrite lookup_nil in Hi. Qed.

Lemma rowids_snoc rows row :
  rowids id rows → id row = next_rowid rows → rowids id (rows ++ [row]).
Proof.
  intros Hrows Hid i r Hi. apply lookup_app_Some in Hi as [Hi|[Hlen Hi]].
  - by apply Hrows.
  - apply list_lookup_singleton_Some in Hi as [Hi ->].
    rewrite Hid. unfold next_rowid. lia.
Qed.

Lemma rowids_fmap rows (f : A → A) :
  (∀ r, id (f r) = id r) → rowids id rows → rowids id (f <$> rows).
Proof.
  intros Hf Hrows i r Hi. apply list_lookup_fmap_Some in Hi as (r0 & -> & Hi).
  rewrite Hf. by apply Hrows.
Qed.

(** A lookup by id finds the row at position id - 1, and only that one. *)
Lemma rowids_find rows i row :
  rowids id rows → rows !! i = Some row →
  list_find (λ r, id r = Z.of_nat i + 1) rows = Some (i, row).
Proof.
  intros Hrows Hi. apply list_find_Some. split; [done|]. split; [by apply Hrows|].
  intros j y Hj Hlt Hid. apply Hrows in Hj. lia.
Qed.

Lemma rowids_find_Some rows k i row :
  rowids id rows → list_find (λ r, id r = k) rows = Some (i, row) →
  k = Z.of_nat i + 1 ∧ rows !! i = Some row.
Proof.
  intros Hrows (Hi & Hid & _)%list_find_Some. split; [|done].
  apply Hrows in Hi. lia.
Qed.

Lemma rowids_fresh rows r : rowids id rows → r ∈ rows → id r ≠ next_rowid rows.
Proof.
  intros Hrows (i & Hi)%list_elem_of_lookup.
  pose proof (lookup_lt_Some _ _ _ Hi). apply Hrows in Hi.
  unfold next_rowid. lia.
Qed.

End rowid_facts.

Section store_ok_facts.
Implicit Types d : db.

Lemma store_ok_empty : store_ok empty_db.
Proof.
  split; cbn; [apply rowids_nil..|apply NoDup_nil_2| |];
    intros vt Hvt; by apply elem_of_nil in Hvt.
Qed.

Lemma store_ok_upsert_product d t cscart_id name category image_url price vendor ai_score :
  store_ok d →
  store_ok (models.upsert_product d t cscart_id name category image_url
              price vendor ai_score).1.
Proof.
  intros [Ht Hs Hu Ho Hst].
  destruct (upsert_product_leaves_jobs d t cscart_id name category image_url
              price vendor ai_score) as [Htasks Hsess].
  destruct (list_find (λ p, p_cscart_id p = cscart_id) (products d))
    as [[i old]|] eqn:Hfind.
  - assert (Hrows : products (models.upsert_product d t cscart_id name category
                                image_url price vendor ai_score).1
              = (λ p, if String.eqb (p_cscart_id p) cscart_id
                      then {| p_id := p_id p; p_cscart_id := p_cscart_id p;
                              p_name := name; p_category := category;
                              p_image_url := image_url; p_price := price;
                              p_vendor := vendor; p_ai_score := ai_score;
                              p_created_at := p_created_at p |}
                      else p) <$> products d).
    { unfold models.upsert_product. by rewrite Hfind. }
    split; rewrite ?Htasks, ?Hsess, ?Hrows; try done.
    + rewrite <- list_fmap_compose.
      erewrite list_fmap_ext; [exact Hu|].
      intros j r _. cbn. by destruct (String.eqb _ _).
    + intros vt Hvt. destruct (Ho vt Hvt) as (p & Hin & Hid).
      eexists. split; [by apply list_elem_of_fmap_2|].
      by destruct (String.eqb _ _).
  - destruct (upsert_product_new d t cscart_id name category image_url
                price vendor ai_score Hfind) as [_ Hrows].
    split; rewrite ?Htasks, ?Hsess, ?Hrows; try done.
    + rewrite fmap_app. apply NoDup_app. split; [done|]. split; [|apply NoDup_singleton].
      intros x Hx Hnew. apply list_elem_of_singleton in Hnew as ->.
      apply list_elem_of_fmap in Hx as (p & Hcid & Hin).
      apply list_find_None in Hfind. rewrite Forall_forall in Hfind.
      by apply (Hfind p).
    + intros vt Hvt. destruct (Ho vt Hvt) as (p & Hin & Hid).
      exists p. split; [|done]. apply elem_of_app. by left.
Qed.

Lemma store_ok_create_video_task d t product_id handle prompt prompt_type :
  store_ok d → (∃ p, p ∈ products d ∧ p_id p = product_id) →
  store_ok (models.create_video_task d t product_id handle prompt prompt_type).1.
Proof.
  intros [Ht Hs Hu Ho Hst] Howner. split; cbn; try done.
  - by apply rowids_snoc.
  - intros vt [Hvt|Hvt]%elem_of_app; [by apply Ho|].
    apply list_elem_of_singleton in Hvt. subst vt. exact Howner.
  - intros vt [Hvt|Hvt]%elem_of_app; [by apply Hst|].
    apply list_elem_of_singleton in Hvt. subst vt.
    cbn. unfold written_statuses. by left.
Qed.

Lemma store_ok_update_video_task d t task_id k :
  store_ok d →
  (∀ s, models.set_status k = Some s → s ∈ written_statuses) →
  store_ok (models.update_video_task d t task_id k).
Proof.
  intros [Ht Hs Hu Ho Hst] Hk. unfold models.update_video_task.
  destruct (models.kwargs_empty k); [done|]. split; cbn; try done.
  - apply rowids_fmap; [|done]. intros r. by case_bool_decide.
  - intros vt (vt0 & -> & Hin)%list_elem_of_fmap.
    destruct (Ho vt0 Hin) as (p & ? & ?). exists p. by case_bool_decide.
  - intros vt (vt0 & -> & Hin)%list_elem_of_fmap.
    case_bool_decide; [|by apply Hst]. cbn.
    destruct (models.set_status k) as [s|] eqn:Hs'; cbn; [by apply Hk|by apply Hst].
Qed.

Lemma store_ok_create_session d t : store_ok d → store_ok (models.create_session d t).1.
Proof.
  intros [Ht Hs Hu Ho Hst]. split; cbn; try done. by apply rowids_snoc.
Qed.

Lemma store_ok_update_session d session_id k :
  store_ok d → store_ok (models.update_session d session_id k).
Proof.
  intros [Ht Hs Hu Ho Hst]. unfold models.update_session.
  destruct (models.session_kwargs_empty k); [done|]. split; cbn; try done.
  apply rowids_fmap; [|done]. intros r. by case_bool_decide.
Qed.

End store_ok_facts.

(** X2. Every writing operation of the job store keeps the store well
    formed (the rowids of jobs and runs in sequence, [cscart_id] unique,
    every job owned by an existing item, every status one of the six the
    code writes), provided a job is created for an existing item and a
    status update writes one of those six. *)
Theorem X2_store_operations_keep_store_ok (d : db) (t : datetime) :
  store_ok d →
  (∀ cscart_id name category image_url price vendor ai_score,
     store_ok (models.upsert_product d t cscart_id name category image_url
                 price vendor ai_score).1)
  ∧ (∀ product_id handle prompt prompt_type,
       (∃ p, p ∈ products d ∧ p_id p = product_id) →
       store_ok (models.create_video_task d t product_id handle prompt prompt_type).1)
  ∧ (∀ task_id k,
       (∀ s, models.set_status k = Some s → s ∈ written_statuses) →
       store_ok (models.update_video_task d t task_id k))
  ∧ store_ok (models.create_session d t).1
  ∧ (∀ session_id k, store_ok (models.update_session d session_id k)).
Proof.
  intros Hok. split; [|split; [|split; [|split]]].
  - intros. by apply store_ok_upsert_product.
  - intros. by apply store_ok_create_video_task.
  - intros. by apply store_ok_update_video_task.
  - by apply store_ok_create_session.
  - intros. by apply store_ok_update_session.
Qed.

Lemma X2_store_ok_witness :
  store_ok (models.create_session empty_db (mk_datetime 2026 11 3 4 0 0 0)).1
  ∧ store_ok (models.upsert_product empty_db (mk_datetime 2026 11 3 4 0 0 0)
                "1006" "Leather bag" None None None None 0%Q).1.
Proof.
  destruct (X2_store_operations_keep_store_ok empty_db
              (mk_datetime 2026 11 3 4 0 0 0) store_ok_empty)
    as (Hupsert & _ & _ & Hsession & _).
  split; [exact Hsession|apply Hupsert].
Defined.

(** * The job store: jobs *)

Section job_lookup_facts.
Implicit Types d : db.

Lemma join_of_one_job (vt : video_task_row) (ps : list product_row) p :
  NoDup (p_id <$> ps) → p ∈ ps → p_id p = vt_product_id vt →
  (q ← ps; if bool_decide (p_id q = vt_product_id vt) then [(vt, q)] else [])
  = [(vt, p)].
Proof.
  intros Hnd Hin Hid. induction ps as [|q ps IH]; [by apply elem_of_nil in Hin|].
  rewrite fmap_cons in Hnd. apply NoDup_cons in Hnd as [Hq Hnd].
  rewrite bind_cons.
  assert (Hnone : ∀ qs : list product_row,
            (∀ r, r ∈ qs → p_id r ≠ vt_product_id vt) →
            (r ← qs; if bool_decide (p_id r = vt_product_id vt)
                     then [(vt, r)] else []) = []).
  { intros qs. induction qs as [|r qs IHqs]; intros Hqs; [done|].
    rewrite bind_cons, bool_decide_eq_false_2 by (apply Hqs; by left).
    apply IHqs. intros r' Hr'. apply Hqs. by right. }
  apply elem_of_cons in Hin as [->|Hin].
  - rewrite bool_decide_eq_true_2 by done. rewrite Hnone; [done|].
    intros r Hr Heq. apply Hq. apply list_elem_of_fmap. exists r.
    split; [congruence|done].
  - rewrite bool_decide_eq_false_2.
    + by rewrite IH.
    + intros Heq. apply Hq. apply list_elem_of_fmap. exists p.
      split; [congruence|done].
Qed.

Lemma join_rows_are_jobs d r : r ∈ models.tasks_join_products d → r.1 ∈ video_tasks d.
Proof.
  unfold models.tasks_join_products. intros (vt & Hr & Hvt)%list_elem_of_bind.
  apply list_elem_of_bind in Hr as (p & Hr & _).
  case_bool_decide; [|by apply elem_of_nil in Hr].
  apply list_elem_of_singleton in Hr. by subst r.
Qed.

Lemma get_video_task_created d t product_id handle prompt prompt_type :
  rowids vt_id (video_tasks d) →
  let created := models.create_video_task d t product_id handle prompt prompt_type in
  models.get_video_task created.1 created.2
  = Some {| vt_id := next_rowid (video_tasks d); vt_product_id := product_id;
            vt_klingai_task_id := handle;
            vt_prompt := Some prompt; vt_prompt_type := Some prompt_type;
            vt_status := "submitted"; vt_video_url := None;
            vt_telegram_message_id := None;
            vt_created_at := CURRENT_TIMESTAMP t;
            vt_updated_at := CURRENT_TIMESTAMP t |}
  ∧ ∀ other, other ≠ created.2 →
      models.get_video_task created.1 other = models.get_video_task d other.
Proof.
  intros Hrows created. subst created.
  unfold models.get_video_task, models.create_video_task. cbn [fst snd video_tasks].
  assert (Hfresh : list_find (λ vt, vt_id vt = next_rowid (video_tasks d))
                     (video_tasks d) = None).
  { apply list_find_None, Forall_forall. intros vt Hvt.
    by apply rowids_fresh. }
  split.
  - rewrite list_find_app_r by done. cbn. by rewrite decide_True.
  - intros other Hne.
    destruct (list_find (λ vt, vt_id vt = other) (video_tasks d))
      as [[i vt]|] eqn:Hfind.
    + by rewrite (list_find_app_l _ _ _ _ _ Hfind).
    + rewrite list_find_app_r by done. cbn. rewrite decide_False; [done|].
      intros Heq. by apply Hne.
Qed.

End job_lookup_facts.

(** X3. A created job is read back. In a well-formed store whose items
    have distinct ids (the primary key) the id returned
    by [create_video_task] is the next rowid; [get_video_task] of it returns
    the new row (status submitted, the given item, handle, prompt and type,
    no video yet); [get_task_with_product] returns that row joined with its
    item; every other job reads as before. *)
Theorem X3_created_job_is_read_back (d : db) (t : datetime) (owner : product_row)
    (handle prompt prompt_type : string) :
  store_ok d → NoDup (p_id <$> products d) → owner ∈ products d →
  let created := models.create_video_task d t (p_id owner) (Some handle)
                   prompt prompt_type in
  let row := {| vt_id := next_rowid (video_tasks d); vt_product_id := p_id owner;
                vt_klingai_task_id := Some handle;
                vt_prompt := Some prompt; vt_prompt_type := Some prompt_type;
                vt_status := "submitted"; vt_video_url := None;
                vt_telegram_message_id := None;
                vt_created_at := CURRENT_TIMESTAMP t;
                vt_updated_at := CURRENT_TIMESTAMP t |} in
  created.2 = next_rowid (video_tasks d)
  ∧ models.get_video_task created.1 created.2 = Some row
  ∧ models.get_task_with_product created.1 created.2 = Some (row, owner)
  ∧ (∀ other, other ≠ created.2 →
       models.get_video_task created.1 other = models.get_video_task d other)
  ∧ products created.1 = products d.
Proof.
  intros Hok Hitems Howner created row.
  destruct (get_video_task_created d t (p_id owner) (Some handle) prompt prompt_type
              (ok_task_ids d Hok)) as [Hget Hother].
  split; [done|]. split; [exact Hget|]. split; [|split; [exact Hother|done]].
  unfold models.get_task_with_product, models.tasks_join_products.
  subst created. cbn [fst snd models.create_video_task video_tasks products].
  rewrite bind_app.
  rewrite list_find_app_r.
  - cbn [mbind list_bind]. rewrite app_nil_r.
    fold row.
    rewrite (join_of_one_job row (products d) owner);
      [|exact Hitems|done|done].
    cbn. by rewrite decide_True.
  - apply list_find_None, Forall_forall. intros r Hr.
    apply (join_rows_are_jobs d) in Hr.
    cbn. apply (rowids_fresh vt_id); [apply (ok_task_ids d Hok)|done].
Qed.

Lemma X3_created_job_witness :
  let d := (models.upsert_product empty_db (mk_datetime 2026 11 3 4 0 0 0)
              "1006" "Leather bag" None None None None 0%Q).1 in
  let created := models.create_video_task d (mk_datetime 2026 11 3 4 5 0 0) 1
                   (Some "task_mock_001") "Extreme close-up" "detail" in
  created.2 = 1
  ∧ (vt_status <$> models.get_video_task created.1 1) = Some "submitted"
  ∧ (p_cscart_id ∘ snd <$> models.get_task_with_product created.1 1) = Some "1006".
Proof.
  intros d created.
  assert (Hok : store_ok d)
    by (apply store_ok_upsert_product, store_ok_empty).
  pose (owner := {| p_id := 1; p_cscart_id := "1006"; p_name := "Leather bag";
                    p_category := None; p_image_url := None; p_price := None;
                    p_vendor := None; p_ai_score := 0%Q;
                    p_created_at := "2026-11-03 04:00:00" |}).
  assert (Howner : owner ∈ products d) by (vm_compute; left).
  assert (Hitems : NoDup (p_id <$> products d))
    by (vm_compute; apply NoDup_singleton).
  destruct (X3_created_job_is_read_back d (mk_datetime 2026 11 3 4 5 0 0) owner
              "task_mock_001" "Extreme close-up" "detail" Hok Hitems Howner)
    as (Hid & Hget & Hjoin & _).
  split; [exact Hid|]. split.
  - exact (f_equal (fmap vt_status) Hget).
  - exact (f_equal (fmap (p_cscart_id ∘ snd)) Hjoin).
Defined.

(** X4. A job update is partial. Without keyword arguments the store is
    left as it is (not even [updated_at] moves). Otherwise the tables of
    items and runs and every other job are untouched, and the addressed job
    keeps its id, item, handle, prompt, type and creation stamp: only the
    named fields change, and [updated_at] becomes the ISO text of the clock
    reading. An id without a job changes nothing that can be read. *)
Theorem X4_job_update_is_partial (d : db) (t : datetime) (task_id other : Z)
    (k : models.task_update) :
  let d' := models.update_video_task d t task_id k in
  products d' = products d
  ∧ generation_sessions d' = generation_sessions d
  ∧ length (video_tasks d') = length (video_tasks d)
  ∧ (models.kwargs_empty k = true → d' = d)
  ∧ (other ≠ task_id → models.get_video_task d' other = models.get_video_task d other)
  ∧ (models.kwargs_empty k = false →
     models.get_video_task d' task_id
     = (λ row, {| vt_id := vt_id row; vt_product_id := vt_product_id row;
                  vt_klingai_task_id := vt_klingai_task_id row;
                  vt_prompt := vt_prompt row; vt_prompt_type := vt_prompt_type row;
                  vt_status := default (vt_status row) (models.set_status k);
                  vt_video_url :=
                    match models.set_video_url k with
                    | Some u => Some u | None => vt_video_url row end;
                  vt_telegram_message_id :=
                    match models.set_telegram_message_id k with
                    | Some m => Some m | None => vt_telegram_message_id row end;
                  vt_created_at := vt_created_at row;
                  vt_updated_at := isoformat t |})
       <$> models.get_video_task d task_id).
Proof.
  intros d'. subst d'. unfold models.update_video_task at 1 2 3 4.
  destruct (models.kwargs_empty k) eqn:Hk.
  - repeat split; try done. intros _. unfold models.update_video_task. by rewrite Hk.
  - cbn [products generation_sessions video_tasks]. rewrite length_fmap.
    repeat split; try done.
    + intros Hne. rewrite get_video_task_update by done.
      rewrite bool_decide_eq_false_2 by done.
      by destruct (models.get_video_task d other).
    + intros _. rewrite get_video_task_update by done.
      rewrite bool_decide_eq_true_2 by done. done.
Qed.

(** * Reasoning about the steps of a run *)

Section triple_rules.
Context {A B : Type}.
Implicit Types (P E : db → Prop).

Lemma triple_ret P (a : A) (Q : A → db → Prop) E :
  (∀ d, P d → Q a d) → triple P (ret a) Q E.
Proof. intros H w Hw. by apply H. Qed.

Lemma triple_lift P (r : result A) (Q : A → db → Prop) E :
  (∀ d, P d → match r with Return a => Q a d | Raise _ => E d end) →
  triple P (lift r) Q E.
Proof. intros H w Hw. unfold lift. specialize (H _ Hw). by destruct r. Qed.

Lemma triple_read_db P (f : db → A) (Q : A → db → Prop) E :
  (∀ d, P d → Q (f d) d) → triple P (read_db f) Q E.
Proof. intros H w Hw. by apply H. Qed.

Lemma triple_write_db P (f : db → db * A) (Q : A → db → Prop) E :
  (∀ d, P d → Q (f d).2 (f d).1) → triple P (write_db f) Q E.
Proof.
  intros H w Hw. unfold write_db. specialize (H _ Hw).
  by destruct (f (w_db w)).
Qed.

Lemma triple_bind P (m : M A) (k : A → M B) (R : A → db → Prop)
    (Q : B → db → Prop) E :
  triple P m R E → (∀ a, triple (R a) (k a) Q E) → triple P (bind m k) Q E.
Proof.
  intros Hm Hk w Hw. unfold bind. specialize (Hm w Hw).
  destruct (m w) as [[a|ex] w1]; [|done]. by apply Hk.
Qed.

Lemma triple_try_except P (m : M A) (h : exn → M A) (Q : A → db → Prop) E' E :
  triple P m Q E' → (∀ ex, triple E' (h ex) Q E) → triple P (try_except m h) Q E.
Proof.
  intros Hm Hh w Hw. unfold try_except. specialize (Hm w Hw).
  destruct (m w) as [[a|ex] w1]; [done|]. by apply Hh.
Qed.

Lemma triple_weaken P P' (m : M A) (Q Q' : A → db → Prop) E E' :
  triple P' m Q' E' → (∀ d, P d → P' d) → (∀ a d, Q' a d → Q a d) →
  (∀ d, E' d → E d) → triple P m Q E.
Proof.
  intros Hm HP HQ HE w Hw. specialize (Hm w (HP _ Hw)).
  destruct (m w) as [[a|ex] w1]; auto.
Qed.

End triple_rules.

Lemma triple_foldM {A B} (I : db → Prop) (f : A → B → M A) (l : list B) :
  (∀ s b, keeps I (f s b)) → ∀ s, keeps I (foldM f s l).
Proof.
  intros Hf. induction l as [|b l IH]; intros s; cbn [foldM].
  - by apply triple_ret.
  - apply (triple_bind I _ _ (λ _, I)); [apply Hf|]. intros a. apply IH.
Qed.

Section keeps_rules.
Variable e : env.
Context {A B : Type}.
Implicit Types I : db → Prop.

Lemma keeps_ret I (a : A) : keeps I (ret a).
Proof. by apply triple_ret. Qed.

Lemma keeps_lift I (r : result A) : keeps I (lift r).
Proof. apply triple_lift. intros d Hd. by destruct r. Qed.

Lemma keeps_emit I ev : keeps I (emit ev).
Proof. intros w Hw. done. Qed.

Lemma keeps_emit_io I tr : keeps I (emit_io tr).
Proof. intros w Hw. done. Qed.

Lemma keeps_now I : keeps I (now e).
Proof. intros w Hw. done. Qed.

Lemma keeps_next_submission I : keeps I next_submission.
Proof. intros w Hw. done. Qed.

Lemma keeps_read_db I (f : db → A) : keeps I (read_db f).
Proof. by apply triple_read_db. Qed.

Lemma keeps_write_db I (f : db → db * A) :
  (∀ d, I d → I (f d).1) → keeps I (write_db f).
Proof. intros H. by apply triple_write_db. Qed.

Lemma keeps_bind I (m : M A) (k : A → M B) :
  keeps I m → (∀ a, keeps I (k a)) → keeps I (bind m k).
Proof. intros Hm Hk. apply (triple_bind I _ _ (λ _, I)); [exact Hm|exact Hk]. Qed.

Lemma keeps_try_except I (m : M A) (h : exn → M A) :
  keeps I m → (∀ ex, keeps I (h ex)) → keeps I (try_except m h).
Proof. intros Hm Hh. apply (triple_try_except I _ _ _ I); [exact Hm|exact Hh]. Qed.

(** A step that leaves the table of runs alone keeps whatever is said
    about that table only. *)
Lemma keeps_of_keeps_sessions I (m : M A) :
  keeps_sessions m →
  (∀ d d', generation_sessions d' = generation_sessions d → I d → I d') →
  keeps I m.
Proof.
  intros Hm HI w Hw. specialize (Hm w).
  destruct (m w) as [[a|ex] w1]; cbn [snd] in Hm; by eapply HI.
Qed.

End keeps_rules.

(** A task started in the background: what ended it stays with it. *)
Lemma triple_create_task (P : db → Prop) (m : M unit) (Q E' E : db → Prop) :
  triple P m (λ _, Q) E' → (∀ d, E' d → Q d) →
  triple P (create_task m) (λ _, Q) E.
Proof.
  intros Hm HE w Hw. unfold create_task, try_except. specialize (Hm w Hw).
  destruct (m w) as [[[]|ex] w1]; [done|]. cbn. by apply HE.
Qed.

Lemma keeps_create_task (I : db → Prop) (m : M unit) :
  keeps I m → keeps I (create_task m).
Proof. intros Hm. by apply (triple_create_task I m I I I). Qed.


Ltac keeps_steps :=
  repeat first
    [ match goal with |- ∀ _, _ => intro end
    | apply keeps_ret | apply keeps_lift | apply keeps_emit | apply keeps_emit_io
    | apply keeps_now | apply keeps_next_submission | apply keeps_read_db
    | apply keeps_bind | apply keeps_try_except | apply triple_foldM
    | apply keeps_write_db
    | match goal with
      | |- keeps _ (match ?x with _ => _ end) => destruct x
      end ].

(** * The runs keep the store well-formed *)

Section runs_keep_store_ok.
Variable e : env.

Lemma keeps_ok_create_session : keeps store_ok (create_session e).
Proof.
  unfold create_session. keeps_steps. by apply store_ok_create_session.
Qed.

Lemma keeps_ok_update_session sid k : keeps store_ok (update_session sid k).
Proof.
  unfold update_session. keeps_steps. by apply store_ok_update_session.
Qed.

Lemma keeps_ok_update_video_task task_id k :
  (∀ s, models.set_status k = Some s → s ∈ written_statuses) →
  keeps store_ok (update_video_task e task_id k).
Proof.
  intros Hk. unfold update_video_task. keeps_steps.
  by apply store_ok_update_video_task.
Qed.

Lemma keeps_ok_save_scored product_map ranking :
  keeps store_ok (save_scored e product_map ranking).
Proof.
  unfold save_scored. keeps_steps. by apply store_ok_upsert_product.
Qed.

Lemma keeps_owned_submit_prompt product db_product acc pd :
  keeps (owned (p_id db_product)) (submit_prompt e product db_product acc pd).
Proof.
  unfold submit_prompt. keeps_steps.
  match goal with H : owned _ _ |- _ => destruct H as [Hok Hp] end.
  split.
  - by apply store_ok_create_video_task.
  - exact Hp.
Qed.

Lemma keeps_ok_tasks_for_selected product_map acc sel :
  keeps store_ok (tasks_for_selected e product_map acc sel).
Proof.
  unfold tasks_for_selected, product_has_video_today.
  destruct (product_map !! s_cscart_id sel) as [product|]; [|apply keeps_ret].
  apply keeps_bind; [keeps_steps|]. intros [|]; [apply keeps_ret|].
  apply (triple_bind store_ok _ _
           (λ found d, store_ok d ∧ ∀ p, found = Some p → p ∈ products d)).
  - apply triple_read_db. intros d Hd. split; [done|]. intros p Hp.
    unfold models.get_product_by_cscart_id in Hp.
    destruct (list_find _ (products d)) as [[i q]|] eqn:Hfind; [|done].
    injection Hp as ->. apply list_find_Some in Hfind as (Hi & _).
    by eapply list_elem_of_lookup_2.
  - intros [db_product|].
    + apply (triple_weaken _ (owned (p_id db_product)) _ _
               (λ _, owned (p_id db_product)) _ (owned (p_id db_product))).
      * keeps_steps. apply keeps_owned_submit_prompt.
      * intros d [Hok Hin]. split; [done|]. exists db_product. split; [|done].
        by apply Hin.
      * by intros _ d [Hok _].
      * by intros d [Hok _].
    + apply triple_ret. by intros d [Hok _].
Qed.

Lemma keeps_ok_create_tasks product_map selected :
  keeps store_ok (create_tasks e product_map selected).
Proof.
  unfold create_tasks. apply triple_foldM. intros.
  apply keeps_ok_tasks_for_selected.
Qed.

Lemma keeps_ok_send_video_for_approval recipient task :
  keeps store_ok (send_video_for_approval e recipient task).
Proof.
  unfold send_video_for_approval.
  destruct (vt_video_url task.1) as [url|]; [|apply keeps_emit].
  destruct (String.eqb url ""); [apply keeps_emit|].
  destruct (send_video e recipient _) as [message_id|]; [|apply keeps_emit].
  apply keeps_bind; [apply keeps_emit|]. intros _.
  apply keeps_ok_update_video_task. by intros s.
Qed.

Lemma keeps_ok_poll_one recipients announce completed task_id :
  keeps store_ok (poll_one e recipients announce completed task_id).
Proof.
  unfold poll_one. apply keeps_bind; [apply keeps_read_db|].
  intros [task|]; [|apply keeps_ret].
  destruct (vt_klingai_task_id task) as [handle|]; [|apply keeps_ret].
  destruct (String.eqb handle ""); [apply keeps_ret|].
  destruct (klingai.poll_task_until_done _ _ _) as [polled tr].
  apply keeps_bind; [apply keeps_emit_io|]. intros _.
  apply keeps_bind; [apply keeps_lift|]. intros result.
  apply keeps_bind; [|keeps_steps].
  destruct (String.eqb (klingai.r_status result) "succeed").
  - apply keeps_bind.
    { apply keeps_ok_update_video_task. intros s [= <-].
      unfold written_statuses. set_solver. }
    intros _. apply keeps_bind; [apply keeps_read_db|]. intros twp.
    apply keeps_bind; [|keeps_steps]. destruct twp as [twp|]; [|apply keeps_ret].
    apply triple_foldM. intros. apply keeps_ok_send_video_for_approval.
  - apply keeps_bind.
    { apply keeps_ok_update_video_task. intros s [= <-].
      unfold written_statuses. set_solver. }
    keeps_steps.
Qed.

Lemma keeps_ok_poll_all recipients announce task_ids :
  keeps store_ok (poll_all e recipients announce task_ids).
Proof.
  unfold poll_all. apply triple_foldM. intros. apply keeps_ok_poll_one.
Qed.

Lemma keeps_ok_finish_run sid created :
  keeps store_ok (scheduler.finish_run e sid created).
Proof.
  unfold scheduler.finish_run. destruct created as [task_ids total].
  apply keeps_bind; [apply keeps_ok_update_session|]. intros _.
  apply keeps_bind; [apply keeps_emit|]. intros _.
  destruct task_ids.
  - apply keeps_bind; [apply keeps_emit|]. intros _. apply keeps_ok_update_session.
  - apply keeps_bind; [apply keeps_ok_poll_all|]. intros completed.
    apply keeps_bind; [apply keeps_ok_update_session|]. intros _. apply keeps_emit.
Qed.

Lemma keeps_ok_after_curation sid all_products ranking selected :
  keeps store_ok (scheduler.after_curation e sid all_products ranking selected).
Proof.
  unfold scheduler.after_curation.
  apply keeps_bind; [apply keeps_ok_update_session|]. intros _.
  apply keeps_bind; [apply keeps_ok_save_scored|]. intros _.
  apply keeps_bind; [apply keeps_ok_create_tasks|]. intros created.
  apply keeps_ok_finish_run.
Qed.

Lemma keeps_ok_job_body sid : keeps store_ok (scheduler.job_body e sid).
Proof.
  unfold scheduler.job_body.
  apply keeps_bind; [apply keeps_emit|]. intros _.
  apply keeps_bind; [apply keeps_lift|]. intros new_products.
  apply keeps_bind; [apply keeps_lift|]. intros popular_products.
  apply keeps_bind; [apply keeps_ok_update_session|]. intros _.
  destruct (deduplicate new_products popular_products) as [|p all_products].
  - apply keeps_bind; [apply keeps_emit|]. intros _. apply keeps_ok_update_session.
  - apply keeps_bind; [apply keeps_lift|]. intros ranking.
    destruct (select_for_generation _ ranking) as [ranking' selected].
    apply keeps_ok_after_curation.
Qed.

Lemma keeps_ok_daily_generation_job :
  keeps store_ok (scheduler.daily_generation_job e).
Proof.
  unfold scheduler.daily_generation_job.
  apply keeps_bind; [apply keeps_ok_create_session|]. intros sid.
  apply keeps_try_except; [apply keeps_ok_job_body|]. intros ex.
  apply keeps_bind; [apply keeps_emit|]. intros _.
  apply keeps_bind; [apply keeps_ok_update_session|]. intros _. apply keeps_emit.
Qed.

Lemma keeps_ok_generate_after_curation all_products ranking selected :
  keeps store_ok (handlers.generate_after_curation e all_products ranking selected).
Proof.
  unfold handlers.generate_after_curation.
  apply keeps_bind; [apply keeps_ok_create_session|]. intros sid.
  apply keeps_bind; [apply keeps_ok_update_session|]. intros _.
  apply keeps_bind; [apply keeps_ok_save_scored|]. intros _.
  apply keeps_bind; [apply keeps_emit|]. intros _.
  apply keeps_bind; [apply keeps_ok_create_tasks|]. intros [tasks_created total].
  apply keeps_bind; [apply keeps_ok_update_session|]. intros _.
  apply keeps_bind; [apply keeps_emit|]. intros _.
  destruct tasks_created; [|apply keeps_ret].
  apply keeps_bind; [apply keeps_emit|]. intros _.
  apply keeps_bind; [apply keeps_ok_update_session|]. intros _. apply keeps_ret.
Qed.

Lemma keeps_ok_cmd_generate : keeps store_ok (handlers.cmd_generate e).
Proof.
  unfold handlers.cmd_generate. apply keeps_try_except; [|keeps_steps].
  apply keeps_bind; [apply keeps_lift|]. intros new_products.
  apply keeps_bind; [apply keeps_lift|]. intros popular_products.
  destruct (deduplicate new_products popular_products) as [|p all_products].
  - keeps_steps.
  - apply keeps_bind; [apply keeps_emit|]. intros _.
    apply keeps_bind; [apply keeps_lift|]. intros ranking.
    destruct (select_for_generation _ ranking) as [ranking' selected].
    apply keeps_ok_generate_after_curation.
Qed.

Lemma keeps_ok_poll_and_send_videos chat_id task_ids session_id :
  keeps store_ok (handlers._poll_and_send_videos e chat_id task_ids session_id).
Proof.
  unfold handlers._poll_and_send_videos.
  apply keeps_bind; [apply keeps_ok_poll_all|]. intros completed.
  apply keeps_bind.
  - destruct session_id as [sid|]; [|apply keeps_ret].
    destruct (sid =? 0); [apply keeps_ret|apply keeps_ok_update_session].
  - intros _. destruct (0 <? completed); [apply keeps_emit|].
    destruct (0 <? _); [apply keeps_emit|apply keeps_ret].
Qed.

Lemma keeps_ok_manual_run chat_id : keeps store_ok (handlers.manual_run e chat_id).
Proof.
  unfold handlers.manual_run.
  apply keeps_bind; [apply keeps_ok_cmd_generate|].
  intros [[task_ids sid]|]; [|apply keeps_ret].
  apply keeps_create_task, keeps_ok_poll_and_send_videos.
Qed.

End runs_keep_store_ok.

(** X5. A scheduled run and a manual run (command and background poller)
    started on a well-formed store leave a well-formed store, whatever the
    catalog, the curator, the render service and the chat answer and whether
    or not the run fails on the way: the row ids of jobs and runs stay the
    positions, no catalog id is stored twice, every render job still
    belongs to a stored product and carries one of the six statuses the
    code writes.  The same holds for the approve, reject and publish
    callbacks. *)
Theorem X5_runs_keep_the_store_well_formed (e : env) (w : world)
    (chat_id task_id : Z) (t : datetime) :
  store_ok (w_db w) →
  store_ok (w_db (scheduler.daily_generation_job e w).2)
  ∧ store_ok (w_db (handlers.manual_run e chat_id w).2)
  ∧ store_ok (handlers._handle_approve (w_db w) t task_id)
  ∧ store_ok (handlers._handle_reject (w_db w) t task_id)
  ∧ store_ok (handlers._handle_publish (w_db w) t task_id).
Proof.
  intros Hok. split; [|split; [|split; [|split]]].
  - pose proof (keeps_ok_daily_generation_job e w Hok) as H.
    by destruct (scheduler.daily_generation_job e w) as [[[]|ex] w'].
  - pose proof (keeps_ok_manual_run e chat_id w Hok) as H.
    by destruct (handlers.manual_run e chat_id w) as [[[]|ex] w'].
  - apply store_ok_update_video_task; [done|]. intros s [= <-].
    unfold written_statuses. set_solver.
  - apply store_ok_update_video_task; [done|]. intros s [= <-].
    unfold written_statuses. set_solver.
  - apply store_ok_update_video_task; [done|]. intros s [= <-].
    unfold written_statuses. set_solver.
Qed.

Lemma X5_store_ok_witness :
  store_ok (w_db (scheduler.daily_generation_job C8_env (initial_world empty_db)).2)
  ∧ store_ok (w_db (handlers.manual_run C8_env 1 (initial_world empty_db)).2).
Proof.
  destruct (X5_runs_keep_the_store_well_formed C8_env (initial_world empty_db)
              1 1 (mk_datetime 2026 11 3 4 0 0 0) store_ok_empty)
    as (Hjob & Hmanual & _).
  split; [exact Hjob|exact Hmanual].
Defined.

(** * The row of a scheduled run *)

Section run_row_facts.
Variable e : env.

Lemma run_row_same sid n ok d d' :
  generation_sessions d' = generation_sessions d →
  run_row sid n ok d → run_row sid n ok d'.
Proof. intros H. unfold run_row, last_session. by rewrite H. Qed.

Lemma run_row_weaken sid n (ok ok' : string → Prop) d :
  (∀ s, ok s → ok' s) → run_row sid n ok d → run_row sid n ok' d.
Proof.
  intros H (Hn & row & Hlast & Hid & Hs). split; [done|]. exists row. auto.
Qed.

Lemma run_row_update sid n ok k d :
  run_row sid n ok d →
  run_row sid n (λ s, match models.set_session_status k with
                      | Some s' => s = s'
                      | None => ok s
                      end) (models.update_session d sid k).
Proof.
  intros (Hn & row & Hlast & Hid & Hs).
  destruct (last_session_update d sid k row Hlast Hid) as [Hlast' Hlen].
  split; [by rewrite Hlen|]. eexists. split; [exact Hlast'|].
  unfold models.session_kwargs_empty.
  destruct (models.set_session_status k) as [s'|] eqn:Hk.
  - destruct (models.set_products_fetched k), (models.set_products_selected k),
      (models.set_videos_generated k); cbn; by rewrite ?Hk.
  - destruct (models.set_products_fetched k), (models.set_products_selected k),
      (models.set_videos_generated k); cbn; by rewrite ?Hk.
Qed.

Lemma keeps_run_row_update_session sid n k :
  models.set_session_status k = None →
  keeps (run_row sid n any_status) (update_session sid k).
Proof.
  intros Hk. unfold update_session. apply keeps_write_db. intros d Hd. cbn [fst].
  eapply run_row_weaken; [|by apply run_row_update]. done.
Qed.

Lemma triple_end_run sid n s E :
  ended s →
  triple (run_row sid n any_status) (update_session sid (only_status s))
         (λ _, run_row sid n ended) E.
Proof.
  intros Hs. unfold update_session. apply triple_write_db. intros d Hd. cbn [fst snd].
  eapply run_row_weaken; [|by apply run_row_update]. cbn. by intros ? ->.
Qed.

Lemma keeps_run_row {A} sid n ok (m : M A) :
  keeps_sessions m → keeps (run_row sid n ok) m.
Proof.
  intros Hm. apply keeps_of_keeps_sessions; [done|].
  intros d d'. apply run_row_same.
Qed.

(** A step that keeps the invariant, then the rest. *)
Lemma triple_after {A B} (I : db → Prop) (m : M A) (k : A → M B)
    (Q : B → db → Prop) :
  keeps I m → (∀ a, triple I (k a) Q I) → triple I (bind m k) Q I.
Proof. intros Hm Hk. apply (triple_bind I _ _ (λ _, I)); [exact Hm|exact Hk]. Qed.

Lemma triple_finish_run sid n created :
  triple (run_row sid n any_status) (scheduler.finish_run e sid created)
         (λ _, run_row sid n ended) (run_row sid n any_status).
Proof.
  unfold scheduler.finish_run. destruct created as [task_ids total].
  apply triple_after; [by apply keeps_run_row_update_session|]. intros _.
  apply triple_after; [apply keeps_emit|]. intros _.
  destruct task_ids.
  - apply triple_after; [apply keeps_emit|]. intros _.
    apply triple_end_run. by right.
  - apply triple_after; [apply keeps_run_row, keeps_sessions_poll_all|].
    intros completed.
    eapply triple_bind; [apply triple_end_run; by left|].
    intros _ w Hw. exact Hw.
Qed.

Lemma triple_after_curation sid n all_products ranking selected :
  triple (run_row sid n any_status)
         (scheduler.after_curation e sid all_products ranking selected)
         (λ _, run_row sid n ended) (run_row sid n any_status).
Proof.
  unfold scheduler.after_curation.
  apply triple_after; [by apply keeps_run_row_update_session|]. intros _.
  apply triple_after; [apply keeps_run_row, keeps_sessions_save_scored|]. intros _.
  apply triple_after; [apply keeps_run_row, keeps_sessions_create_tasks|].
  intros created. apply triple_finish_run.
Qed.

Lemma triple_job_body sid n :
  triple (run_row sid n any_status) (scheduler.job_body e sid)
         (λ _, run_row sid n ended) (run_row sid n any_status).
Proof.
  unfold scheduler.job_body.
  apply triple_after; [apply keeps_emit|]. intros _.
  apply triple_after; [apply keeps_lift|]. intros new_products.
  apply triple_after; [apply keeps_lift|]. intros popular_products.
  apply triple_after; [by apply keeps_run_row_update_session|]. intros _.
  destruct (deduplicate new_products popular_products) as [|p all_products].
  - apply triple_after; [apply keeps_emit|]. intros _.
    apply triple_end_run. by right.
  - apply triple_after; [apply keeps_lift|]. intros ranking.
    destruct (select_for_generation _ ranking) as [ranking' selected].
    apply triple_after_curation.
Qed.

Lemma triple_pure {A} (φ : Prop) (P : db → Prop) (m : M A) Q E :
  (φ → triple P m Q E) → triple (λ d, φ ∧ P d) m Q E.
Proof. intros H w [Hφ Hw]. by apply H. Qed.

Lemma triple_daily_generation_job n :
  triple (λ d, length (generation_sessions d) = n)
         (scheduler.daily_generation_job e)
         (λ _, run_row (Z.of_nat n + 1) (S n) ended) (λ _, False).
Proof.
  unfold scheduler.daily_generation_job.
  apply (triple_bind _ _ _ (λ sid d, sid = Z.of_nat n + 1
                                     ∧ run_row sid (S n) any_status d)).
  - unfold create_session.
    apply (triple_bind _ _ _ (λ _ d, length (generation_sessions d) = n)).
    { intros w Hw. exact Hw. }
    intros t. apply triple_write_db. intros d Hd.
    destruct (last_session_create d t) as (Hlast & Hlen & _).
    split.
    + unfold models.create_session. cbn [snd]. unfold next_rowid. by rewrite Hd.
    + split; [by rewrite Hlen, Hd|]. eexists. split; [exact Hlast|]. done.
  - intros sid. apply triple_pure. intros ->.
    apply (triple_try_except _ _ _ _ (run_row (Z.of_nat n + 1) (S n) any_status)).
    + apply triple_job_body.
    + intros ex.
      apply (triple_bind _ _ _ (λ _, run_row (Z.of_nat n + 1) (S n) any_status)).
      { intros w Hw. exact Hw. }
      intros _.
      apply (triple_bind _ _ _ (λ _, run_row (Z.of_nat n + 1) (S n) ended)).
      { apply triple_end_run. by right. }
      intros _ w Hw. exact Hw.
Qed.

End run_row_facts.

(** X6. A scheduled run never raises and never leaves its row running:
    whatever the catalog, the curator, the render service and the chat
    answer, the run returns, the table of runs has exactly one more row,
    that row is the newest and carries the next row id, and its status is
    completed or failed. *)
Theorem X6_scheduled_run_ends_completed_or_failed (e : env) (w : world) :
  ∃ w' row,
    scheduler.daily_generation_job e w = (Return tt, w')
    ∧ length (generation_sessions (w_db w'))
      = S (length (generation_sessions (w_db w)))
    ∧ last_session (w_db w') = Some row
    ∧ gs_id row = next_rowid (generation_sessions (w_db w))
    ∧ (gs_status row = "completed" ∨ gs_status row = "failed").
Proof.
  pose proof (triple_daily_generation_job e _ w eq_refl) as H.
  destruct (scheduler.daily_generation_job e w) as [[[]|ex] w']; [|done].
  destruct H as (Hn & row & Hlast & Hid & Hs).
  exists w', row. done.
Qed.

(** * Runs only add rows *)

Section grows_facts.
Variable allowed : list string.

Lemma grows_refl d : grows allowed d d.
Proof.
  split; [done|]. split; [done|]. split; [done|].
  intros p Hp. left. apply list_elem_of_fmap. by exists p.
Qed.

Lemma grows_trans d0 d1 d2 :
  grows allowed d0 d1 → grows allowed d1 d2 → grows allowed d0 d2.
Proof.
  intros (Hp & Ht & Hs & Hc) (Hp' & Ht' & Hs' & Hc').
  split; [by etrans|]. split; [by etrans|]. split; [by etrans|].
  intros p Hin. destruct (Hc' p Hin) as [Hold|Hnew]; [|by right].
  apply list_elem_of_fmap in Hold as (q & Hq & Hqin).
  rewrite Hq. by apply Hc.
Qed.

Lemma grows_upsert_product d t cscart_id name category image_url price vendor ai_score :
  cscart_id ∈ allowed →
  grows allowed d (models.upsert_product d t cscart_id name category image_url
                     price vendor ai_score).1.
Proof.
  intros Hin. unfold models.upsert_product. cbv zeta.
  destruct (list_find _ (products d)) as [[i old]|]; cbn [fst products video_tasks
    generation_sessions].
  - split; [|split; [done|split; [done|]]].
    + simpl products. rewrite <- list_fmap_compose.
      erewrite (list_fmap_ext (product_key ∘ _)); [done|].
      intros j p _. cbn. by destruct (String.eqb _ _).
    + simpl products. intros p Hp. left. apply list_elem_of_fmap in Hp as (q & -> & Hq).
      apply list_elem_of_fmap. exists q. split; [|done].
      by destruct (String.eqb _ _).
  - split; [|split; [done|split; [done|]]].
    + simpl products. rewrite fmap_app. by apply prefix_app_r.
    + simpl products. intros p Hp. apply elem_of_app in Hp as [Hp|Hp].
      * left. apply list_elem_of_fmap. by exists p.
      * apply list_elem_of_singleton in Hp as ->. by right.
Qed.

Lemma grows_create_video_task d t product_id handle prompt prompt_type :
  grows allowed d (models.create_video_task d t product_id handle prompt prompt_type).1.
Proof.
  unfold models.create_video_task. cbn [fst].
  split; [done|]. split; [|split; [done|]].
  - cbn [video_tasks]. rewrite fmap_app. by apply prefix_app_r.
  - intros p Hp. left. apply list_elem_of_fmap. by exists p.
Qed.

Lemma grows_update_video_task d t task_id k :
  grows allowed d (models.update_video_task d t task_id k).
Proof.
  unfold models.update_video_task.
  destruct (models.kwargs_empty k); [apply grows_refl|].
  split; [done|]. split; [|split; [done|]].
  - cbn [video_tasks]. rewrite <- list_fmap_compose.
    erewrite (list_fmap_ext (task_key ∘ _)); [done|].
    intros j vt _. cbn. by case_bool_decide.
  - intros p Hp. left. apply list_elem_of_fmap. by exists p.
Qed.

Lemma grows_create_session d t : grows allowed d (models.create_session d t).1.
Proof.
  unfold models.create_session. cbn [fst].
  split; [done|]. split; [done|]. split.
  - cbn [generation_sessions]. rewrite fmap_app. by apply prefix_app_r.
  - intros p Hp. left. apply list_elem_of_fmap. by exists p.
Qed.

Lemma grows_update_session d session_id k :
  grows allowed d (models.update_session d session_id k).
Proof.
  unfold models.update_session.
  destruct (models.session_kwargs_empty k); [apply grows_refl|].
  split; [done|]. split; [done|]. split.
  - cbn [generation_sessions]. rewrite <- list_fmap_compose.
    erewrite (list_fmap_ext (session_key ∘ _)); [done|].
    intros j s _. cbn. by case_bool_decide.
  - intros p Hp. left. apply list_elem_of_fmap. by exists p.
Qed.

End grows_facts.

Lemma product_map_of_keys all_products cid p :
  product_map_of all_products !! cid = Some p →
  cid ∈ it_cscart_id <$> all_products.
Proof.
  unfold product_map_of.
  assert (∀ (m : gmap string item),
            foldl (λ m p, <[it_cscart_id p := p]> m) m all_products !! cid = Some p →
            cid ∈ it_cscart_id <$> all_products ∨ m !! cid = Some p) as H.
  { induction all_products as [|q l IH]; intros m Hm; cbn in *; [by right|].
    destruct (IH _ Hm) as [Hin|Hq]; [left; by right|].
    destruct (decide (it_cscart_id q = cid)) as [<-|Hne].
    - left. by left.
    - right. by rewrite lookup_insert_ne in Hq. }
  intros Hm. destruct (H _ Hm) as [Hin|Hempty]; [done|].
  by rewrite lookup_empty in Hempty.
Qed.

Lemma deduplicate_ids new_products popular_products cid :
  cid ∈ it_cscart_id <$> deduplicate new_products popular_products →
  cid ∈ it_cscart_id <$> (new_products ++ popular_products).
Proof.
  rewrite deduplicate_first_occurrences. intros Hin.
  apply list_elem_of_fmap in Hin as (p & -> & Hp).
  apply list_elem_of_fmap. exists p. split; [done|].
  eapply elem_of_sublist; [exact Hp|]. apply keep_first_seen_sublist.
Qed.

Section runs_grow.
Variable e : env.
Variable allowed : list string.
Variable d0 : db.

Lemma grows_step d d' : grows allowed d d' → grows allowed d0 d → grows allowed d0 d'.
Proof. intros H H0. by eapply grows_trans. Qed.

Lemma keeps_grows_create_session : keeps (grows allowed d0) (create_session e).
Proof.
  unfold create_session. keeps_steps.
  eapply grows_step; [apply grows_create_session|done].
Qed.

Lemma keeps_grows_update_session sid k : keeps (grows allowed d0) (update_session sid k).
Proof.
  unfold update_session. keeps_steps.
  eapply grows_step; [apply grows_update_session|done].
Qed.

Lemma keeps_grows_update_video_task task_id k :
  keeps (grows allowed d0) (update_video_task e task_id k).
Proof.
  unfold update_video_task. keeps_steps.
  eapply grows_step; [apply grows_update_video_task|done].
Qed.

Lemma keeps_grows_save_scored all_products ranking :
  (∀ cid, cid ∈ it_cscart_id <$> all_products → cid ∈ allowed) →
  keeps (grows allowed d0) (save_scored e (product_map_of all_products) ranking).
Proof.
  intros Hall. unfold save_scored. apply triple_foldM. intros _ s.
  destruct (product_map_of all_products !! s_cscart_id s) as [p|] eqn:Hp;
    [|apply keeps_ret].
  apply keeps_bind; [apply keeps_now|]. intros t.
  apply keeps_write_db. intros d Hd.
  eapply grows_step; [|done]. cbn [fst]. apply grows_upsert_product.
  eapply Hall, product_map_of_keys, Hp.
Qed.

Lemma keeps_grows_create_tasks product_map selected :
  keeps (grows allowed d0) (create_tasks e product_map selected).
Proof.
  unfold create_tasks, tasks_for_selected, product_has_video_today, submit_prompt.
  keeps_steps. eapply grows_step; [apply grows_create_video_task|done].
Qed.

Lemma keeps_grows_send_video_for_approval recipient task :
  keeps (grows allowed d0) (send_video_for_approval e recipient task).
Proof.
  unfold send_video_for_approval.
  destruct (vt_video_url task.1) as [url|]; [|apply keeps_emit].
  destruct (String.eqb url ""); [apply keeps_emit|].
  destruct (send_video e recipient _) as [message_id|]; [|apply keeps_emit].
  apply keeps_bind; [apply keeps_emit|]. intros _.
  apply keeps_grows_update_video_task.
Qed.

Lemma keeps_grows_poll_all recipients announce task_ids :
  keeps (grows allowed d0) (poll_all e recipients announce task_ids).
Proof.
  unfold poll_all. apply triple_foldM. intros completed task_id.
  unfold poll_one. apply keeps_bind; [apply keeps_read_db|].
  intros [task|]; [|apply keeps_ret].
  destruct (vt_klingai_task_id task) as [handle|]; [|apply keeps_ret].
  destruct (String.eqb handle ""); [apply keeps_ret|].
  destruct (klingai.poll_task_until_done _ _ _) as [polled tr].
  apply keeps_bind; [apply keeps_emit_io|]. intros _.
  apply keeps_bind; [apply keeps_lift|]. intros result.
  apply keeps_bind; [|keeps_steps].
  destruct (String.eqb (klingai.r_status result) "succeed").
  - apply keeps_bind; [apply keeps_grows_update_video_task|].
    intros _. apply keeps_bind; [apply keeps_read_db|]. intros twp.
    apply keeps_bind; [|keeps_steps]. destruct twp as [twp|]; [|apply keeps_ret].
    apply triple_foldM. intros. apply keeps_grows_send_video_for_approval.
  - apply keeps_bind; [apply keeps_grows_update_video_task|]. keeps_steps.
Qed.

(** The value a service call hands on is the one the service gave. *)
Lemma keeps_lift_bind {A B} (I : db → Prop) (r : result A) (k : A → M B) :
  (∀ a, r = Return a → keeps I (k a)) → keeps I (bind (lift r) k).
Proof.
  intros Hk w Hw. unfold bind, lift. destruct r as [a|ex]; [|done].
  by apply Hk.
Qed.

Hypothesis allowed_catalog : ∀ cid, cid ∈ catalog e → cid ∈ allowed.

Lemma fetched_allowed new_products popular_products cid :
  get_new_products e = Return new_products →
  get_popular_products e = Return popular_products →
  cid ∈ it_cscart_id <$> deduplicate new_products popular_products →
  cid ∈ allowed.
Proof.
  intros Hnew Hpop Hin. apply allowed_catalog. unfold catalog.
  rewrite Hnew, Hpop. by apply deduplicate_ids.
Qed.

Lemma keeps_grows_daily_generation_job :
  keeps (grows allowed d0) (scheduler.daily_generation_job e).
Proof.
  unfold scheduler.daily_generation_job.
  apply keeps_bind; [apply keeps_grows_create_session|]. intros sid.
  apply keeps_try_except.
  2:{ intros ex. apply keeps_bind; [apply keeps_emit|]. intros _.
      apply keeps_bind; [apply keeps_grows_update_session|]. intros _.
      apply keeps_emit. }
  unfold scheduler.job_body.
  apply keeps_bind; [apply keeps_emit|]. intros _.
  apply keeps_lift_bind. intros new_products Hnew.
  apply keeps_lift_bind. intros popular_products Hpop.
  apply keeps_bind; [apply keeps_grows_update_session|]. intros _.
  pose proof (fetched_allowed new_products popular_products) as Hall.
  destruct (deduplicate new_products popular_products) as [|p all_products].
  - apply keeps_bind; [apply keeps_emit|]. intros _. apply keeps_grows_update_session.
  - apply keeps_bind; [apply keeps_lift|]. intros ranking.
    destruct (select_for_generation _ ranking) as [ranking' selected].
    unfold scheduler.after_curation.
    apply keeps_bind; [apply keeps_grows_update_session|]. intros _.
    apply keeps_bind; [apply keeps_grows_save_scored; by auto|]. intros _.
    apply keeps_bind; [apply keeps_grows_create_tasks|]. intros [task_ids total].
    unfold scheduler.finish_run.
    apply keeps_bind; [apply keeps_grows_update_session|]. intros _.
    apply keeps_bind; [apply keeps_emit|]. intros _.
    destruct task_ids.
    + apply keeps_bind; [apply keeps_emit|]. intros _. apply keeps_grows_update_session.
    + apply keeps_bind; [apply keeps_grows_poll_all|]. intros completed.
      apply keeps_bind; [apply keeps_grows_update_session|]. intros _. apply keeps_emit.
Qed.

Lemma keeps_grows_manual_run chat_id :
  keeps (grows allowed d0) (handlers.manual_run e chat_id).
Proof.
  unfold handlers.manual_run. apply keeps_bind.
  - unfold handlers.cmd_generate. apply keeps_try_except; [|keeps_steps].
    apply keeps_lift_bind. intros new_products Hnew.
    apply keeps_lift_bind. intros popular_products Hpop.
    pose proof (fetched_allowed new_products popular_products) as Hall.
    destruct (deduplicate new_products popular_products) as [|p all_products].
    { keeps_steps. }
    apply keeps_bind; [apply keeps_emit|]. intros _.
    apply keeps_bind; [apply keeps_lift|]. intros ranking.
    destruct (select_for_generation _ ranking) as [ranking' selected].
    unfold handlers.generate_after_curation.
    apply keeps_bind; [apply keeps_grows_create_session|]. intros sid.
    apply keeps_bind; [apply keeps_grows_update_session|]. intros _.
    apply keeps_bind; [apply keeps_grows_save_scored; by auto|]. intros _.
    apply keeps_bind; [apply keeps_emit|]. intros _.
    apply keeps_bind; [apply keeps_grows_create_tasks|]. intros [tasks_created total].
    apply keeps_bind; [apply keeps_grows_update_session|]. intros _.
    apply keeps_bind; [apply keeps_emit|]. intros _.
    destruct tasks_created; [|apply keeps_ret].
    apply keeps_bind; [apply keeps_emit|]. intros _.
    apply keeps_bind; [apply keeps_grows_update_session|]. intros _. apply keeps_ret.
  - intros [[task_ids sid]|]; [|apply keeps_ret].
    apply keeps_create_task. unfold handlers._poll_and_send_videos.
    apply keeps_bind; [apply keeps_grows_poll_all|]. intros completed.
    apply keeps_bind.
    + destruct (sid =? 0); [apply keeps_ret|apply keeps_grows_update_session].
    + intros _. destruct (0 <? completed); [apply keeps_emit|].
      destruct (0 <? _); [apply keeps_emit|apply keeps_ret].
Qed.

End runs_grow.

(** X7. A run only adds: after a scheduled or a manual run (failed or not)
    every item, render job and run row that was stored before is still
    there, in the same place, with its id and creation time, and a job
    also with its item, handle, prompt and prompt type; and every stored
    item has a catalog id that was stored before or that one of the two
    catalog queries of this run returned -- an id the curator invents is
    never stored. *)
Theorem X7_runs_only_add_rows_of_the_catalog (e : env) (w : world) (chat_id : Z) :
  grows (catalog e) (w_db w) (w_db (scheduler.daily_generation_job e w).2)
  ∧ grows (catalog e) (w_db w) (w_db (handlers.manual_run e chat_id w).2).
Proof.
  split.
  - pose proof (keeps_grows_daily_generation_job e (catalog e) (w_db w)
                  (λ _ H, H) w (grows_refl _ _)) as H.
    by destruct (scheduler.daily_generation_job e w) as [[[]|ex] w'].
  - pose proof (keeps_grows_manual_run e (catalog e) (w_db w)
                  (λ _ H, H) chat_id w (grows_refl _ _)) as H.
    by destruct (handlers.manual_run e chat_id w) as [[[]|ex] w'].
Qed.

(** * The approval queue *)

Section queue_facts.
Implicit Types (d : db) (r : video_task_row * product_row).

Lemma insert_newest_Permutation r l : queries.insert_newest r l ≡ₚ r :: l.
Proof.
  induction l as [|r' l IH]; cbn; [done|].
  destruct (sql_text_ge _ _); [done|]. rewrite IH. apply Permutation_swap.
Qed.

Lemma newest_first_Permutation l : foldr queries.insert_newest [] l ≡ₚ l.
Proof.
  induction l as [|r l IH]; cbn; [done|].
  by rewrite insert_newest_Permutation, IH.
Qed.

Lemma sql_text_ge_total a b : sql_text_ge a b = false → sql_text_ge b a = true.
Proof.
  unfold sql_text_ge. rewrite (String.compare_antisym b a).
  by destruct (String.compare a b).
Qed.

Lemma insert_newest_Sorted r l :
  Sorted (λ a b, sql_text_ge (vt_created_at a.1) (vt_created_at b.1) = true) l →
  Sorted (λ a b, sql_text_ge (vt_created_at a.1) (vt_created_at b.1) = true)
         (queries.insert_newest r l).
Proof.
  induction l as [|r' l IH]; intros Hl; cbn.
  - by repeat constructor.
  - destruct (sql_text_ge (vt_created_at r.1) (vt_created_at r'.1)) eqn:Hge.
    + constructor; [done|]. by constructor.
    + apply Sorted_inv in Hl as [Hl Hhd]. constructor; [by apply IH|].
      destruct l as [|r'' l]; cbn.
      * constructor. by apply sql_text_ge_total.
      * destruct (sql_text_ge (vt_created_at r.1) (vt_created_at r''.1)).
        -- constructor. by apply sql_text_ge_total.
        -- constructor. by apply HdRel_inv in Hhd.
Qed.

Lemma queue_membership d r :
  r ∈ queries.get_queue_tasks d
  ↔ r ∈ models.tasks_join_products d ∧ vt_status r.1 = "succeed".
Proof.
  unfold queries.get_queue_tasks. rewrite newest_first_Permutation.
  by rewrite list_elem_of_filter, (comm and).
Qed.

(** The joined rows after an UPDATE of one job. *)
Lemma join_after_update d t task_id k :
  models.kwargs_empty k = false →
  models.tasks_join_products (models.update_video_task d t task_id k)
  = prod_map (λ vt, if bool_decide (vt_id vt = task_id)
                    then models.apply_task_update t k vt else vt) id
      <$> models.tasks_join_products d.
Proof.
  intros Hk. unfold models.tasks_join_products, models.update_video_task.
  rewrite Hk. cbn [video_tasks products].
  set (upd := λ vt, if bool_decide (vt_id vt = task_id)
                    then models.apply_task_update t k vt else vt).
  assert (Hpid : ∀ vt, vt_product_id (upd vt) = vt_product_id vt)
    by (intros vt; unfold upd; by case_bool_decide).
  induction (video_tasks d) as [|vt vts IH]; [done|].
  rewrite fmap_cons, !bind_cons, fmap_app, IH. f_equal.
  rewrite Hpid. clear IH.
  induction (products d) as [|p ps IHp]; [done|].
  rewrite !bind_cons, fmap_app, IHp. f_equal.
  by case_bool_decide.
Qed.

Lemma queue_after_decision d t task_id s r :
  s ≠ "succeed" →
  r ∈ queries.get_queue_tasks (models.update_video_task d t task_id (status_only s))
  ↔ r ∈ queries.get_queue_tasks d ∧ vt_id r.1 ≠ task_id.
Proof.
  intros Hs. rewrite !queue_membership, join_after_update by done.
  rewrite list_elem_of_fmap. split.
  - intros [([vt p] & -> & Hin) Hst]. cbn in *.
    case_bool_decide as Hid; cbn in Hst; [done|]. done.
  - intros [[Hin Hst] Hid]. split; [|done]. exists r. split; [|done].
    destruct r as [vt p]. cbn in *. by rewrite bool_decide_eq_false_2.
Qed.

End queue_facts.

(** X8. The approval queue holds exactly the joined rows of the jobs whose
    status is succeed, the newest creation stamp first.  Approving,
    rejecting or publishing a job takes it out of the queue and leaves
    every other entry of the queue as it was. *)
Theorem X8_queue_holds_the_jobs_awaiting_approval (d : db) (t : datetime)
    (task_id : Z) :
  (∀ r, r ∈ queries.get_queue_tasks d
        ↔ r ∈ models.tasks_join_products d ∧ vt_status r.1 = "succeed")
  ∧ Sorted (λ a b, sql_text_ge (vt_created_at a.1) (vt_created_at b.1) = true)
           (queries.get_queue_tasks d)
  ∧ (∀ r, r ∈ queries.get_queue_tasks (handlers._handle_approve d t task_id)
          ↔ r ∈ queries.get_queue_tasks d ∧ vt_id r.1 ≠ task_id)
  ∧ (∀ r, r ∈ queries.get_queue_tasks (handlers._handle_reject d t task_id)
          ↔ r ∈ queries.get_queue_tasks d ∧ vt_id r.1 ≠ task_id)
  ∧ (∀ r, r ∈ queries.get_queue_tasks (handlers._handle_publish d t task_id)
          ↔ r ∈ queries.get_queue_tasks d ∧ vt_id r.1 ≠ task_id).
Proof.
  split; [apply queue_membership|]. split.
  - unfold queries.get_queue_tasks.
    induction (filter _ (models.tasks_join_products d)) as [|r l IH]; cbn.
    + constructor.
    + by apply insert_newest_Sorted.
  - split; [|split]; intros r; by apply queue_after_decision.
Qed.

(** * The statistics *)

Section stats_facts.
Implicit Types (d : db) (vt : video_task_row).

(** The stamp of a row against any ISO bound: the dates decide, and on
    equal dates the blank of the stamp sorts before the "T" of the bound. *)
Lemma stamp_against_iso created bound :
  wf_datetime created → wf_datetime bound →
  sql_text_ge (CURRENT_TIMESTAMP created) (isoformat bound)
  = match date_compare (utc_date created) (utc_date bound) with
    | Gt => true
    | _ => false
    end.
Proof.
  intros Hc Hb. unfold sql_text_ge, CURRENT_TIMESTAMP, isoformat.
  rewrite compare_append by done. rewrite date_text_compare by done.
  destruct (date_compare (utc_date created) (utc_date bound)); try done.
Qed.

Lemma window_by_date since (rows : list video_task_row) (stamps : list datetime) :
  wf_datetime since →
  Forall2 (λ vt c, wf_datetime c ∧ vt_created_at vt = CURRENT_TIMESTAMP c) rows stamps →
  length (filter (λ vt, queries.in_window (isoformat since) vt = true) rows)
  = length (filter (λ c, date_compare (utc_date c) (utc_date since) = Gt) stamps).
Proof.
  intros Hs. induction 1 as [|vt c rows stamps [Hc Hvt] _ IH]; [done|].
  rewrite !filter_cons.
  assert (Hin : queries.in_window (isoformat since) vt
                = match date_compare (utc_date c) (utc_date since) with
                  | Gt => true
                  | _ => false
                  end).
  { unfold queries.in_window. rewrite Hvt. by apply stamp_against_iso. }
  destruct (date_compare (utc_date c) (utc_date since)) eqn:Hcmp.
  - rewrite decide_False by (by rewrite Hin). rewrite decide_False by done. exact IH.
  - rewrite decide_False by (by rewrite Hin). rewrite decide_False by done. exact IH.
  - rewrite decide_True by (by rewrite Hin). rewrite decide_True by done.
    cbn. by rewrite IH.
Qed.

(** Every job whose status is one the code writes is counted under exactly
    one of the seven statuses of the report. *)
Lemma counts_add_up since (rows : list video_task_row) :
  (∀ vt, vt ∈ rows → vt_status vt ∈ written_statuses) →
  sum_list ((λ status,
               length (filter (λ vt, vt_status vt = status
                                     ∧ queries.in_window since vt = true) rows))
            <$> queries.stats_statuses)
  = length (filter (λ vt, queries.in_window since vt = true) rows).
Proof.
  induction rows as [|vt rows IH]; intros Hst; [done|].
  assert (Hvt : vt_status vt ∈ written_statuses) by (apply Hst; by left).
  specialize (IH (λ v Hv, Hst v (list_elem_of_further _ _ _ Hv))).
  cbn [queries.stats_statuses fmap list_fmap sum_list sum_list_with] in *.
  rewrite !filter_cons.
  destruct (queries.in_window since vt) eqn:Hw.
  - rewrite (decide_True (P := true = true)) by done.
    unfold written_statuses in Hvt.
    repeat (apply elem_of_cons in Hvt as [Hvt|Hvt]);
      [..|by apply elem_of_nil in Hvt];
      rewrite Hvt;
      repeat (first [rewrite decide_True by done
                    |rewrite decide_False by (by intros [? ?])]);
      cbn [length]; unfold id in *; lia.
  - rewrite (decide_False (P := false = true)) by done.
    repeat rewrite decide_False by (by intros [? ?]). exact IH.
Qed.

Lemma count_processing_zero since (rows : list video_task_row) :
  (∀ vt, vt ∈ rows → vt_status vt ∈ written_statuses) →
  filter (λ vt, vt_status vt = "processing" ∧ queries.in_window since vt = true) rows
  = [].
Proof.
  intros Hst. induction rows as [|vt rows IH]; [done|].
  rewrite filter_cons, decide_False.
  - apply IH. intros v Hv. apply Hst. by right.
  - intros [Hp _]. specialize (Hst vt (list_elem_of_here _ _)).
    rewrite Hp in Hst. unfold written_statuses in Hst.
    repeat (apply elem_of_cons in Hst as [Hst|Hst]; [done|]).
    by apply elem_of_nil in Hst.
Qed.

(** With row ids in sequence the row of highest id is the last one. *)
Lemma newest_session_last d :
  rowids gs_id (generation_sessions d) → queries.newest_session d = last_session d.
Proof.
  unfold queries.newest_session, last_session. intros Hrows.
  induction (generation_sessions d) as [|s l IH] using rev_ind; [done|].
  rewrite foldl_app, last_snoc. cbn [foldl].
  assert (Hl : rowids gs_id l).
  { intros i row Hi. apply Hrows. by apply lookup_app_l_Some. }
  rewrite (IH Hl).
  destruct (last l) as [b|] eqn:Hlast; [|done].
  assert (Hs : gs_id s = Z.of_nat (length l) + 1).
  { apply Hrows. by rewrite lookup_app_r, Nat.sub_diag. }
  assert (Hb : gs_id b = Z.of_nat (pred (length l)) + 1).
  { apply Hl. by rewrite <- last_lookup. }
  assert (length l ≠ 0%nat) by (by destruct l).
  rewrite (proj2 (Z.ltb_lt _ _)); [done|lia].
Qed.

End stats_facts.

(** X9. In a well-formed store the report of get_stats counts every job of
    the window once: the total is the sum of the seven counts by status,
    the count for processing is zero (no code path stores that status),
    and the run reported as the last one is the row inserted last. *)
Theorem X9_stats_count_every_job_once (d : db) (now : datetime) (days : Z) :
  store_ok d →
  queries.st_total (queries.get_stats d now days)
  = sum_list (snd <$> queries.st_counts (queries.get_stats d now days))
  ∧ ("processing", 0%nat) ∈ queries.st_counts (queries.get_stats d now days)
  ∧ queries.st_last_session (queries.get_stats d now days) = last_session d.
Proof.
  intros Hok. unfold queries.get_stats. cbn [queries.st_total queries.st_counts
    queries.st_last_session].
  split; [|split].
  - rewrite <- list_fmap_compose. unfold queries.count_total.
    symmetry. apply counts_add_up, (ok_status d Hok).
  - apply list_elem_of_fmap. exists "processing". split.
    + unfold queries.count_status.
      by rewrite count_processing_zero by apply (ok_status d Hok).
    + unfold queries.stats_statuses. set_solver.
  - apply newest_session_last, (ok_session_ids d Hok).
Qed.

Lemma X9_stats_witness :
  queries.st_total (queries.get_stats C2_store C10_checked 7)
  = sum_list (snd <$> queries.st_counts (queries.get_stats C2_store C10_checked 7)).
Proof.
  assert (Hok : store_ok C2_store).
  { unfold C2_store, store_with_job.
    apply store_ok_update_video_task.
    - destruct (models.upsert_product _ _ _ _ _ _ _ _ _) as [d1 pid] eqn:Hup.
      apply store_ok_create_video_task.
      + replace d1 with (d1, pid).1 by done. rewrite <- Hup.
        apply store_ok_upsert_product, store_ok_empty.
      + injection Hup as <- <-. eexists. split; [by left|done].
    - intros s [= <-]. unfold written_statuses. set_solver. }
  exact (proj1 (X9_stats_count_every_job_once C2_store C10_checked 7 Hok)).
Defined.

(** X10. Which jobs the report of get_stats counts is decided by the UTC
    calendar date alone: a job stamped by the store at the clock reading c
    is counted exactly when the date of c is later than the date of
    now - days.  A job created on the boundary date is left out whatever
    its time of day, because the stored stamp (blank after the date) is
    compared as text with the ISO bound (T after the date). *)
Theorem X10_stats_window_is_decided_by_the_utc_date (d : db) (now : datetime)
    (days : Z) (stamps : list datetime) :
  wf_datetime (queries.minus_days now days) →
  Forall2 (λ vt c, wf_datetime c ∧ vt_created_at vt = CURRENT_TIMESTAMP c)
          (video_tasks d) stamps →
  queries.st_total (queries.get_stats d now days)
  = length (filter (λ c, date_compare (utc_date c)
                           (utc_date (queries.minus_days now days)) = Gt) stamps).
Proof.
  intros Hb Hst. unfold queries.get_stats, queries.count_total. cbn [queries.st_total].
  by apply window_by_date.
Qed.

Lemma X10_stats_window_witness :
  queries.st_total
    (queries.get_stats (store_with_job (mk_datetime 2026 10 27 23 0 0 0))
       C10_checked 7) = 0%nat.
Proof.
  refine (X10_stats_window_is_decided_by_the_utc_date
            (store_with_job (mk_datetime 2026 10 27 23 0 0 0)) C10_checked 7
            [mk_datetime 2026 10 27 23 0 0 0] _ _).
  - unfold wf_datetime. vm_compute. repeat split; discriminate.
  - set (rows := video_tasks _). vm_compute in rows. subst rows.
    constructor; [|constructor].
    split; [unfold wf_datetime; simpl; lia|reflexivity].
Defined.

(** * Jobs by status *)

Section by_status_facts.
Implicit Types d : db.

(** In a well-formed store whose items have distinct ids the join lists
    every job once, with its item. *)
Lemma join_lists_every_job d :
  store_ok d → NoDup (p_id <$> products d) →
  fst <$> models.tasks_join_products d = video_tasks d.
Proof.
  intros Hok Hnd. unfold models.tasks_join_products.
  pose proof (ok_owner d Hok) as Hown.
  induction (video_tasks d) as [|vt vts IH]; [done|].
  rewrite bind_cons, fmap_app.
  destruct (Hown vt (list_elem_of_here _ _)) as (p & Hp & Hid).
  rewrite (join_of_one_job vt (products d) p Hnd Hp Hid). cbn.
  f_equal. apply IH. intros v Hv. apply Hown. by right.
Qed.

Lemma fmap_fst_filter_status (s : string) (l : list (video_task_row * product_row)) :
  fst <$> filter (λ r, vt_status r.1 = s) l
  = filter (λ vt, vt_status vt = s) (fst <$> l).
Proof.
  induction l as [|r l IH]; [done|].
  rewrite fmap_cons, !filter_cons. cbn.
  destruct (decide (vt_status r.1 = s)); [|done]. by rewrite fmap_cons, IH.
Qed.

Lemma filter_agree {A} (P1 P2 : A → Prop) `{!∀ x, Decision (P1 x)}
    `{!∀ x, Decision (P2 x)} (l : list A) :
  (∀ x, x ∈ l → P1 x ↔ P2 x) → filter P1 l = filter P2 l.
Proof.
  induction l as [|a l IH]; intros Hagree; [done|].
  rewrite !filter_cons.
  rewrite IH by (intros x Hx; apply Hagree; by right).
  destruct (decide (P1 a)) as [Ha1|Ha1], (decide (P2 a)) as [Ha2|Ha2]; try done.
  - exfalso. apply Ha2, (Hagree a); [by left|done].
  - exfalso. apply Ha1, (Hagree a); [by left|done].
Qed.

End by_status_facts.

(** X11. In a well-formed store the queries by status fit together: the
    pending jobs are exactly the submitted ones (processing is never
    stored), the approval queue lists each job of status succeed exactly
    once (the items' ids being distinct, as the primary key has it), every
    job is returned by get_tasks_by_status for one of the six written
    statuses, and the item of every job is found by get_product. *)
Theorem X11_queries_by_status_agree (d : db) :
  store_ok d → NoDup (p_id <$> products d) →
  queries.get_pending_tasks d = queries.get_tasks_by_status d "submitted"
  ∧ fst <$> queries.get_queue_tasks d ≡ₚ queries.get_tasks_by_status d "succeed"
  ∧ (∀ vt, vt ∈ video_tasks d
           ↔ ∃ s, s ∈ written_statuses ∧ vt ∈ queries.get_tasks_by_status d s)
  ∧ (∀ vt, vt ∈ video_tasks d →
           ∃ p, queries.get_product d (vt_product_id vt) = Some p
                ∧ p ∈ products d ∧ p_id p = vt_product_id vt).
Proof.
  intros Hok Hitems. split; [|split; [|split]].
  - unfold queries.get_pending_tasks, queries.get_tasks_by_status.
    apply filter_agree. intros vt Hvt. split; [|by left].
    intros [Hs|Hp]; [done|].
    pose proof (ok_status d Hok vt Hvt) as Hst. rewrite Hp in Hst.
    unfold written_statuses in Hst.
    repeat (apply elem_of_cons in Hst as [Hst|Hst]; [done|]).
    by apply elem_of_nil in Hst.
  - unfold queries.get_queue_tasks, queries.get_tasks_by_status.
    rewrite newest_first_Permutation, fmap_fst_filter_status.
    by rewrite join_lists_every_job.
  - intros vt. unfold queries.get_tasks_by_status. split.
    + intros Hvt. exists (vt_status vt). split; [by apply (ok_status d Hok)|].
      by apply list_elem_of_filter.
    + intros (s & _ & Hin). by apply list_elem_of_filter in Hin as [_ Hin].
  - intros vt Hvt. destruct (ok_owner d Hok vt Hvt) as (p & Hp & Hid).
    unfold queries.get_product.
    destruct (list_find (λ q, p_id q = vt_product_id vt) (products d))
      as [[i q]|] eqn:Hfind.
    + apply list_find_Some in Hfind as (Hi & Hq & _).
      exists q. split; [done|]. split; [|done]. by eapply list_elem_of_lookup_2.
    + exfalso. eapply list_find_None in Hfind.
      rewrite Forall_forall in Hfind. by apply (Hfind p Hp).
Qed.

Lemma X11_queries_witness :
  queries.get_pending_tasks (store_with_job C1_created)
  = queries.get_tasks_by_status (store_with_job C1_created) "submitted".
Proof.
  assert (Hok : store_ok (store_with_job C1_created)).
  { unfold store_with_job.
    destruct (models.upsert_product _ _ _ _ _ _ _ _ _) as [d1 pid] eqn:Hup.
    apply store_ok_create_video_task.
    - replace d1 with (d1, pid).1 by done. rewrite <- Hup.
      apply store_ok_upsert_product, store_ok_empty.
    - injection Hup as <- <-. eexists. split; [by left|done]. }
  assert (Hitems : NoDup (p_id <$> products (store_with_job C1_created)))
    by (vm_compute; apply NoDup_singleton).
  exact (proj1 (X11_queries_by_status_agree (store_with_job C1_created) Hok Hitems)).
Defined.

(** * Render submission: when a handle is returned *)

Section submission_facts.
Import klingai_spec.
Import klingai.

Lemma attempt_accepted k o task_id :
  attempt_result k o = Finish (Return task_id) ↔ accepted o task_id.
Proof.
  unfold attempt_result, accepted. split.
  - destruct o as [|status body]; [by case_bool_decide|].
    destruct (status =? 429) eqn:H429; [done|].
    destruct (status >=? 500) eqn:H500; [done|].
    destruct (status >=? 400) eqn:H400; [by case_bool_decide|].
    destruct (b_code body) as [[| |]|] eqn:Hcode; try done.
    destruct (b_task_id body) as [id|] eqn:Hid; [|done].
    intros [= ->]. exists status, body. repeat split; try done. lia.
  - intros (status & body & -> & Hlt & Hcode & Hid).
    rewrite (proj2 (Z.eqb_neq status 429)) by lia.
    assert ((status >=? 500) = false) as -> by lia.
    assert ((status >=? 400) = false) as -> by lia.
    by rewrite Hcode, Hid.
Qed.

Lemma attempt_refused k o :
  k ≠ 2%nat → (∃ secs, attempt_result k o = RetryAfter secs) ↔ refused o.
Proof.
  intros Hk. unfold attempt_result, refused, max_retries.
  rewrite bool_decide_eq_false_2 by (cbn; lia). split.
  - intros [secs H]. destruct o as [|status body]; [by left|]. right.
    exists status, body. split; [done|].
    destruct (status =? 429) eqn:H429; [lia|].
    destruct (status >=? 500) eqn:H500; [lia|].
    destruct (status >=? 400) eqn:H400; [lia|].
    destruct (b_code body) as [[| |]|]; try done.
    by destruct (b_task_id body).
  - intros [->|(status & body & -> & Hge)]; [by eexists|].
    destruct (status =? 429); [by eexists|].
    destruct (status >=? 500); [by eexists|].
    assert ((status >=? 400) = true) as -> by lia. by eexists.
Qed.

Lemma attempt_pause k o secs :
  (k < max_retries)%nat → attempt_result k o = RetryAfter secs → 5 <= secs <= 60.
Proof.
  unfold max_retries, attempt_result. intros Hk.
  assert (1 <= 2 ^ Z.of_nat k <= 4).
  { destruct k as [|[|[|k]]]; [cbn; lia..|lia]. }
  destruct o as [|status body].
  - case_bool_decide; [done|]. intros [= <-]. lia.
  - destruct (status =? 429); [intros [= <-]; lia|].
    destruct (status >=? 500); [intros [= <-]; lia|].
    destruct (status >=? 400).
    + case_bool_decide; [done|]. intros [= <-]. lia.
    + destruct (b_code body) as [[| |]|]; try done.
      by destruct (b_task_id body).
Qed.

Lemma create_attempts_finish script pre k post r :
  Forall (λ j, ∃ secs, attempt_result j (script j) = RetryAfter secs) pre →
  attempt_result k (script k) = Finish r →
  (create_attempts script (pre ++ k :: post)).1 = r
  ∧ (∃ tr0, (create_attempts script (pre ++ k :: post)).2 = tr0 ++ [HttpPost k])
  ∧ posts (create_attempts script (pre ++ k :: post)).2 = S (length pre)
  ∧ length (sleeps (create_attempts script (pre ++ k :: post)).2) = length pre.
Proof.
  intros Hpre Hk. induction Hpre as [|j pre [secs Hj] _ IH].
  - cbn [app]. rewrite klingai_facts.create_attempts_cons, Hk. cbn.
    split; [done|]. split; [by exists []|done].
  - rewrite <- app_comm_cons, klingai_facts.create_attempts_cons, Hj.
    destruct IH as (Hr & [tr0 Htr] & Hposts & Hsleeps). cbn [fst snd].
    split; [done|]. split; [|split].
    + exists (HttpPost j :: Sleep secs :: tr0). by rewrite Htr.
    + unfold posts in *. cbn. by rewrite Hposts.
    + unfold sleeps in *. cbn. by rewrite Hsleeps.
Qed.

Lemma create_attempts_return_inv script attempts task_id :
  (create_attempts script attempts).1 = Return task_id →
  ∃ pre k post,
    attempts = pre ++ k :: post
    ∧ Forall (λ j, ∃ secs, attempt_result j (script j) = RetryAfter secs) pre
    ∧ attempt_result k (script k) = Finish (Return task_id).
Proof.
  induction attempts as [|a rest IH]; [done|].
  rewrite klingai_facts.create_attempts_cons.
  destruct (attempt_result a (script a)) as [secs|r] eqn:Ha; cbn [fst].
  - intros (pre & k & post & -> & Hpre & Hk)%IH.
    exists (a :: pre), k, post. split; [done|]. split; [|done].
    constructor; [by exists secs|done].
  - intros ->. by exists [], a, rest.
Qed.

Lemma create_attempts_pauses script attempts :
  Forall (λ a, (a < max_retries)%nat) attempts →
  Forall (λ secs, 5 <= secs <= 60) (sleeps (create_attempts script attempts).2)
  ∧ (length (sleeps (create_attempts script attempts).2) <= length attempts)%nat.
Proof.
  induction 1 as [|a rest Ha _ [IH1 IH2]]; [by split|].
  rewrite klingai_facts.create_attempts_cons.
  destruct (attempt_result a (script a)) as [secs|r] eqn:Hres; cbn [snd].
  - unfold sleeps in *. cbn. split; [|lia].
    constructor; [by eapply attempt_pause|done].
  - unfold sleeps. cbn. split; [constructor|lia].
Qed.

Lemma three_attempts pre k post :
  [0%nat; 1%nat; 2%nat] = pre ++ k :: post →
  pre = seq 0 k ∧ (k < 3)%nat.
Proof.
  destruct pre as [|a [|b [|c pre]]]; cbn; intros [= ]; subst; cbn;
    try (split; [done|lia]).
  by destruct pre.
Qed.

End submission_facts.

(** X12. The render submission returns a handle exactly when one of its
    three attempts is accepted (HTTP status below 400, API code 0, a task
    id in the body) and every attempt before it failed as a request or got
    a status from 400 on; the handle is that of the first such attempt k,
    the call then made k + 1 posts and k pauses, and the accepting post is
    the last thing it did.  Whatever the service answers, each pause lasts
    between 5 and 60 seconds and there are at most three. *)
Theorem X12_submission_returns_the_first_accepted_handle
    (script : nat → klingai.post_outcome) (task_id : string) :
  let r := (klingai.create_video_task script).1 in
  let tr := (klingai.create_video_task script).2 in
  (r = Return task_id
   ↔ ∃ k, (k < klingai.max_retries)%nat ∧ accepted (script k) task_id
          ∧ ∀ j, (j < k)%nat → refused (script j))
  ∧ (r = Return task_id →
     ∃ k pre, accepted (script k) task_id
              ∧ tr = pre ++ [klingai.HttpPost k]
              ∧ klingai.posts tr = S k
              ∧ length (klingai.sleeps tr) = k)
  ∧ Forall (λ secs, 5 <= secs <= 60) (klingai.sleeps tr)
  ∧ (length (klingai.sleeps tr) <= klingai.max_retries)%nat.
Proof.
  intros r tr. subst r tr. unfold klingai.create_video_task.
  change (seq 0 klingai.max_retries) with [0%nat; 1%nat; 2%nat].
  assert (Hinv : (klingai.create_attempts script [0%nat; 1%nat; 2%nat]).1
                 = Return task_id →
            ∃ k, (k < 3)%nat
                 ∧ klingai_spec.attempt_result k (script k)
                   = klingai_spec.Finish (Return task_id)
                 ∧ Forall (λ j, ∃ secs, klingai_spec.attempt_result j (script j)
                                        = klingai_spec.RetryAfter secs) (seq 0 k)
                 ∧ ∃ post, [0%nat; 1%nat; 2%nat] = seq 0 k ++ k :: post).
  { intros (pre & k & post & Heq & Hpre & Hk)%create_attempts_return_inv.
    destruct (three_attempts _ _ _ Heq) as [-> Hlt].
    exists k. split; [done|]. split; [done|]. split; [done|]. by exists post. }
  split; [split|split; [|split]].
  - intros (k & Hlt & Hk & Hpre & _)%Hinv. exists k.
    split; [done|]. split; [by eapply attempt_accepted|].
    intros j Hj. apply (attempt_refused j); [lia|].
    rewrite Forall_forall in Hpre. apply Hpre, elem_of_seq. lia.
  - intros (k & Hlt & Hacc & Hpre).
    assert (Hsplit : [0%nat; 1%nat; 2%nat] = seq 0 k ++ k :: seq (S k) (2 - k)).
    { unfold klingai.max_retries in Hlt.
      destruct k as [|[|[|k]]]; [done..|lia]. }
    rewrite Hsplit.
    apply create_attempts_finish; [|by apply attempt_accepted].
    apply Forall_forall. intros j Hj%elem_of_seq.
    apply attempt_refused; [unfold klingai.max_retries in Hlt; lia|].
    apply Hpre. lia.
  - intros (k & Hlt & Hk & Hpre & post & Hsplit)%Hinv.
    rewrite Hsplit.
    destruct (create_attempts_finish script (seq 0 k) k post _ Hpre Hk)
      as (_ & [tr0 Htr] & Hposts & Hsleeps).
    rewrite length_seq in Hposts, Hsleeps.
    exists k, tr0. split; [by eapply attempt_accepted|done].
  - apply create_attempts_pauses. repeat constructor.
  - apply (create_attempts_pauses script [0%nat; 1%nat; 2%nat]).
    repeat constructor.
Qed.

(** * A finished render without a video *)

Section no_video_facts.
Variable e : env.

Lemma updated_join_row d t task_id k twp :
  models.kwargs_empty k = false →
  models.get_task_with_product (models.update_video_task d t task_id k) task_id
  = Some twp →
  ∃ vt, twp.1 = models.apply_task_update t k vt.
Proof.
  intros Hk. unfold models.get_task_with_product. rewrite join_after_update by done.
  destruct (list_find _ _) as [[i r]|] eqn:Hfind; [|done].
  intros [= <-]. apply list_find_Some in Hfind as (Hi & Hid & _).
  apply list_lookup_fmap_Some in Hi as ([vt p] & -> & _).
  cbn in *. exists vt. case_bool_decide as Hvt; [done|]. by destruct Hvt.
Qed.

Lemma poll_of_finished_without_video handle :
  finished_without_video (http_get e handle 0%nat) →
  ∃ result,
    klingai.poll_task_until_done handle None (http_get e handle)
    = (Return result, [klingai.HttpGet 0])
    ∧ klingai.r_status result = "succeed"
    ∧ default "" (klingai.r_video_url result) = "".
Proof.
  intros (message & data & Hreply & Hstatus & Hvideos).
  assert (∃ result,
            klingai.get_task_status handle (http_get e handle 0%nat) = Return result
            ∧ klingai.r_status result = "succeed"
            ∧ default "" (klingai.r_video_url result) = "")
    as (result & Hget & Hs & Hurl).
  { rewrite Hreply. unfold klingai.get_task_status.
    rewrite bool_decide_eq_true_2 by done. rewrite Hstatus. cbn [default id].
    change (String.eqb "succeed" "succeed") with true. cbn beta iota.
    destruct Hvideos as [->|(videos & -> & Hurl)].
    - eexists. split; [reflexivity|]. done.
    - destruct videos as [|v vs]; (eexists; split; [reflexivity|]); [done|].
      split; [done|]. cbn in *. by destruct (klingai.v_url v). }
  exists result. split; [|done].
  unfold klingai.poll_task_until_done. rewrite poll_loop_spec.
  change (polls_allowed (default KLINGAI_TASK_TIMEOUT None) 0) with 20%nat.
  change 20%nat with (S 19). cbn [first_ending]. rewrite Hget.
  unfold ends_loop, klingai.terminal. rewrite Hs.
  change (String.eqb "succeed" "succeed") with true. cbn [orb]. by rewrite Hget.
Qed.

Lemma send_without_url recipient twp w :
  vt_video_url twp.1 = Some "" →
  send_video_for_approval e recipient twp w
  = (Return tt, add_trace w [Notice (VideoWithoutUrl recipient (vt_id twp.1))]).
Proof. intros Hurl. unfold send_video_for_approval. by rewrite Hurl. Qed.

Lemma send_all_without_url twp recipients : ∀ w,
  vt_video_url twp.1 = Some "" →
  foldM (λ _ r, send_video_for_approval e r twp) tt recipients w
  = (Return tt,
     add_trace w ((λ r, Notice (VideoWithoutUrl r (vt_id twp.1))) <$> recipients)).
Proof.
  induction recipients as [|r rs IH]; intros w Hurl.
  - cbn. unfold ret, add_trace. rewrite app_nil_r. by destruct w.
  - cbn [foldM]. unfold bind at 1. rewrite send_without_url by done.
    rewrite IH by done. unfold add_trace. cbn. by rewrite <- app_assoc.
Qed.

End no_video_facts.

(** X13. A render the service reports as succeed without a usable video
    (no video, or a first video without url) is still stored as succeed,
    with the empty text as its url, and counted as completed: nothing else
    in the store changes, no video is sent and no message id is recorded;
    each recipient gets the notice that the job has no url. *)
Theorem X13_finished_render_without_video_is_stored_as_succeed
    (e : env) (recipients : list Z) (announce : bool) (completed task_id : Z)
    (w : world) (task : video_task_row) (handle : string) :
  models.get_video_task (w_db w) task_id = Some task →
  vt_klingai_task_id task = Some handle → handle ≠ "" →
  finished_without_video (http_get e handle 0%nat) →
  let t := clock e (w_tick w) in
  let d' := models.update_video_task (w_db w) t task_id (succeed_update "") in
  poll_one e recipients announce completed task_id w
  = (Return (completed + 1),
     {| w_db := d'; w_tick := S (w_tick w); w_submissions := w_submissions w;
        w_trace := w_trace w ++ [Io (klingai.HttpGet 0)]
                   ++ match models.get_task_with_product d' task_id with
                      | Some _ =>
                          (λ r, Notice (VideoWithoutUrl r task_id)) <$> recipients
                      | None => []
                      end
                   ++ [Io (klingai.Sleep 2)] |})
  ∧ models.get_video_task d' task_id
    = Some (models.apply_task_update t (succeed_update "") task)
  ∧ vt_telegram_message_id (models.apply_task_update t (succeed_update "") task)
    = vt_telegram_message_id task.
Proof.
  intros Htask Hhandle Hne Hreply t d'.
  destruct (poll_of_finished_without_video e handle Hreply)
    as (result & Hpoll & Hstatus & Hurl).
  split; [|split; [|done]].
  - unfold poll_one. unfold bind at 1. unfold read_db at 1. rewrite Htask, Hhandle.
    rewrite (proj2 (String.eqb_neq handle "")) by done.
    rewrite Hpoll. unfold bind at 1 2, emit_io, lift. rewrite Hstatus, Hurl.
    change (String.eqb "succeed" "succeed") with true. cbn iota.
    unfold update_video_task. cbn [models.kwargs_empty models.set_status].
    unfold bind, emit, ret, now, write_db, read_db. cbn.
    fold t. fold (succeed_update ""). fold d'.
    destruct (models.get_task_with_product d' task_id) as [twp|] eqn:Htwp.
    + assert (Hid : vt_id twp.1 = task_id).
      { unfold models.get_task_with_product in Htwp.
        destruct (list_find _ _) as [[i r]|] eqn:Hfind; [|done].
        injection Htwp as <-. by apply list_find_Some in Hfind as (_ & Hid & _). }
      assert (Hempty : vt_video_url twp.1 = Some "").
      { apply updated_join_row in Htwp as [vt ->]; done. }
      rewrite send_all_without_url by done. unfold add_trace. cbn.
      rewrite Hid. by rewrite <- !app_assoc.
    + cbn. by rewrite <- !app_assoc.
  - subst d'. rewrite get_video_task_update by done. rewrite Htask. cbn.
    by rewrite bool_decide_eq_true_2.
Qed.

Lemma X13_no_video_witness :
  (poll_one no_video_env [7] false 0 1
     (initial_world (store_with_job C1_created))).1 = Return 1
  ∧ ((λ row, (vt_status row, vt_video_url row, vt_telegram_message_id row))
     <$> models.get_video_task
           (w_db (poll_one no_video_env [7] false 0 1
                    (initial_world (store_with_job C1_created))).2) 1)
    = Some ("succeed", Some "", None).
Proof.
  pose (task := {| vt_id := 1; vt_product_id := 1;
                   vt_klingai_task_id := Some "task_mock_001";
                   vt_prompt := Some "Extreme close-up";
                   vt_prompt_type := Some "detail";
                   vt_status := "submitted"; vt_video_url := None;
                   vt_telegram_message_id := None;
                   vt_created_at := CURRENT_TIMESTAMP C1_created;
                   vt_updated_at := CURRENT_TIMESTAMP C1_created |}).
  destruct (X13_finished_render_without_video_is_stored_as_succeed
              no_video_env [7] false 0 1
              (initial_world (store_with_job C1_created)) task "task_mock_001")
    as (Hrun & Hget & _).
  - reflexivity.
  - reflexivity.
  - done.
  - exists None. eexists. split; [reflexivity|]. split; [done|].
    right. exists []. by split.
  - rewrite Hrun. split; [reflexivity|]. cbn [snd w_db].
    exact (f_equal (fmap (λ row, (vt_status row, vt_video_url row,
                                  vt_telegram_message_id row))) Hget).
Defined.

(** * The selection, marked or not *)

Section selection_more_facts.

Lemma filter_selected_nil (l : list scored) :
  filter (λ s, is_selected s = true) l = [] → ∀ s, s ∈ l → is_selected s = false.
Proof.
  intros Hnil s Hs. destruct (is_selected s) eqn:Hsel; [|done].
  assert (Hin : s ∈ filter (λ s, is_selected s = true) l)
    by (by apply list_elem_of_filter).
  rewrite Hnil in Hin. by apply elem_of_nil in Hin.
Qed.

Lemma filter_all_selected (l : list scored) :
  (∀ s, s ∈ l → is_selected s = true) → filter (λ s, is_selected s = true) l = l.
Proof.
  induction l as [|x l IH]; intros H; [done|].
  rewrite filter_cons, decide_True by (apply H; by left).
  f_equal. apply IH. intros s Hs. apply H. by right.
Qed.

End selection_more_facts.

(** X14. What both orchestrators select is exactly what ends up marked:
    after the selection step the entries marked selected in the ranking
    are the selection, in order, and the ranking still names the same
    catalog ids.  When the curator marked at least one entry, the ranking
    is left as it is and every marked entry is taken -- the number N only
    limits the fallback, not the curator's own marks.  The selection is
    empty only for an empty ranking (or N = 0 with nothing marked). *)
Theorem X14_selection_is_what_is_marked (n : nat) (ranking : list scored) :
  let out := select_for_generation n ranking in
  filter (λ s, is_selected s = true) out.1 = out.2
  ∧ s_cscart_id <$> out.1 ≡ₚ s_cscart_id <$> ranking
  ∧ ((∃ s, s ∈ ranking ∧ is_selected s = true) →
     out = (ranking, filter (λ s, is_selected s = true) ranking))
  ∧ (out.2 = [] ↔ ranking = [] ∨ (n = 0%nat ∧ ∀ s, s ∈ ranking → is_selected s = false)).
Proof.
  intros out. subst out. unfold select_for_generation.
  destruct (filter (λ s, is_selected s = true) ranking) as [|m marked] eqn:Hmarked.
  - pose proof (filter_selected_nil ranking Hmarked) as Hnone.
    pose proof (sort_by_score_desc_Permutation ranking) as Hperm.
    cbn [fst snd]. split; [|split; [|split]].
    + rewrite filter_app, filter_all_selected.
      * rewrite none_selected_filter; [by rewrite app_nil_r|].
        intros s Hs. apply Hnone. rewrite <- Hperm. by eapply subseteq_drop.
      * by intros s (s' & -> & _)%list_elem_of_fmap.
    + rewrite fmap_app, <- list_fmap_compose.
      rewrite (list_fmap_ext (s_cscart_id ∘ mark_selected) s_cscart_id
                 (take n (sort_by_score_desc ranking))) by done.
      by rewrite <- fmap_app, take_drop, Hperm.
    + intros (s & Hs & Hsel). by rewrite (Hnone s Hs) in Hsel.
    + split.
      * intros Hnil. apply fmap_nil_inv in Hnil.
        destruct ranking as [|x l]; [by left|]. right.
        split; [|done]. destruct n as [|n]; [done|].
        assert (Hlen : length (sort_by_score_desc (x :: l)) = S (length l))
          by (by rewrite Hperm).
        destruct (sort_by_score_desc (x :: l)); [done|]. done.
      * intros [->|[-> _]]; [|by rewrite take_0].
        unfold sort_by_score_desc. cbn [foldr]. by rewrite take_nil.
  - cbn [fst snd]. split; [done|]. split; [done|]. split; [done|].
    split; [done|]. intros [->|[_ Hnone]]; [done|].
    rewrite none_selected_filter in Hmarked; done.
Qed.

(** * The prompt request *)

Section prompt_facts.

Lemma ends_with_append a b : ends_with (a +:+ b) b = true.
Proof.
  induction a as [|c a IH].
  - rewrite append_empty. destruct b; cbn; by rewrite ?String.eqb_refl, ?Ascii.eqb_refl.
  - rewrite append_cons. cbn [ends_with]. rewrite IH. apply orb_true_r.
Qed.

Lemma append_assoc a b c : (a +:+ b) +:+ c = a +:+ (b +:+ c).
Proof. induction a as [|x a IH]; [done|]. by rewrite !append_cons, IH. Qed.

End prompt_facts.

(** X15. The prompt request hands on a list only when every prompt in it
    has a type: a reply with a prompt without type raises KeyError (at the
    log line), so the default type unknown of the orchestrators is never
    used on its results.  Reply text that is not JSON yields the two
    fallback prompts, of types detail and lifestyle, each naming the item
    and ending with the closing line the prompt rules require, and each
    non-empty, so both are submitted.  An API error and JSON that is not an
    object are raised. *)
Theorem X15_prompts_are_typed_or_raised (product : item) (reply : prompts_reply) :
  (∀ prompts, claude_prompts.generate_prompts product reply = Return prompts →
     ∀ p, p ∈ prompts → ∃ type, claude_stylist.pd_type p = Some type)
  ∧ (∀ prompts p, reply = PromptsText (PromptsJsonObject (Some prompts)) →
       p ∈ prompts → claude_stylist.pd_type p = None →
       claude_prompts.generate_prompts product reply = Raise KeyError)
  ∧ (∀ prompts, reply = PromptsText (PromptsJsonObject (Some prompts)) →
       (∀ p, p ∈ prompts → ∃ type, claude_stylist.pd_type p = Some type) →
       claude_prompts.generate_prompts product reply = Return prompts)
  ∧ (reply = PromptsText PromptsNotJson →
     ∃ detail lifestyle,
       claude_prompts.generate_prompts product reply
       = Return [ {| claude_stylist.pd_type := Some "detail";
                     claude_stylist.pd_prompt := Some detail |};
                  {| claude_stylist.pd_type := Some "lifestyle";
                     claude_stylist.pd_prompt := Some lifestyle |} ]
       ∧ detail ≠ "" ∧ lifestyle ≠ ""
       ∧ ends_with detail CLOSING_LINE = true
       ∧ ends_with lifestyle CLOSING_LINE = true
       ∧ (∃ a b, detail = a +:+ it_name product +:+ b)
       ∧ (∃ a b, lifestyle = a +:+ it_name product +:+ b))
  ∧ (reply = PromptsApiError →
     claude_prompts.generate_prompts product reply = Raise APIError)
  ∧ (∀ k, reply = PromptsText (PromptsJsonOther k) →
       claude_prompts.generate_prompts product reply = Raise AttributeError).
Proof.
  assert (Htyped : ∀ prompts : list claude_stylist.prompt_data,
            forallb claude_prompts.has_type prompts = true
            ↔ ∀ p, p ∈ prompts → ∃ type, claude_stylist.pd_type p = Some type).
  { intros prompts. rewrite forallb_forall. split.
    - intros H p Hp. specialize (H p (proj1 (list_elem_of_In _ _) Hp)).
      unfold claude_prompts.has_type in H.
      destruct (claude_stylist.pd_type p); [by eexists|done].
    - intros H p Hp. destruct (H p (proj2 (list_elem_of_In _ _) Hp)) as [type Ht].
      unfold claude_prompts.has_type. by rewrite Ht. }
  split; [|split; [|split; [|split; [|split]]]].
  - intros prompts Hret p Hp. destruct reply as [|[|k|ps]]; try done.
    + injection Hret as <-. unfold claude_prompts.fallback_prompts in Hp.
      apply elem_of_cons in Hp as [->|Hp]; [by eexists|].
      apply list_elem_of_singleton in Hp as ->. by eexists.
    + cbn in Hret.
      destruct (forallb claude_prompts.has_type (default [] ps)) eqn:Hall; [|done].
      injection Hret as <-. by apply (proj1 (Htyped _) Hall).
  - intros prompts p -> Hp Hnone. cbn.
    destruct (forallb claude_prompts.has_type prompts) eqn:Hall; [|done].
    destruct (proj1 (Htyped _) Hall p Hp) as [type Ht]. congruence.
  - intros prompts -> Hall. cbn. by rewrite (proj2 (Htyped _) Hall).
  - intros ->. cbn. eexists _, _. split; [reflexivity|].
    split; [done|]. split; [done|].
    split; [|split; [|split]].
    + rewrite <- !append_assoc. apply ends_with_append.
    + rewrite <- !append_assoc. apply ends_with_append.
    + eexists _, _. reflexivity.
    + eexists ("A stylish young person confidently walking through a modern city street, "
               +:+ "wearing a "), _.
      rewrite append_assoc. reflexivity.
  - by intros ->.
  - by intros k ->.
Qed.

(** * The jobs of a run: polled to the end, or never *)

Section polled_facts.
Variable rows0 : list video_task_row.
Implicit Types (d : db) (done : list Z).

Lemma polled_same done d d' :
  video_tasks d' = video_tasks d → polled rows0 done d → polled rows0 done d'.
Proof. intros H. unfold polled, own_jobs. by rewrite H. Qed.

Lemma polled_length done d :
  polled rows0 done d → (length rows0 <= length (video_tasks d))%nat.
Proof.
  intros (_ & Htake & _). rewrite <- Htake at 1. rewrite length_take. lia.
Qed.

Lemma polled_create d t product_id handle prompt prompt_type :
  polled rows0 [] d →
  polled rows0 [] (models.create_video_task d t product_id handle prompt prompt_type).1
  ∧ vt_id <$> own_jobs rows0
               (models.create_video_task d t product_id handle prompt prompt_type).1
    = (vt_id <$> own_jobs rows0 d)
      ++ [(models.create_video_task d t product_id handle prompt prompt_type).2].
Proof.
  intros Hp. pose proof (polled_length _ _ Hp) as Hlen.
  destruct Hp as (Hrows & Htake & Hown).
  unfold polled, own_jobs, models.create_video_task. cbn [fst snd video_tasks].
  rewrite take_app_le, drop_app_le by done.
  split; [split; [|split]|].
  - by apply rowids_snoc.
  - done.
  - intros vt [Hvt|Hvt]%elem_of_app; [by apply Hown|].
    apply list_elem_of_singleton in Hvt as ->. split; [|done].
    intros Hin. by apply elem_of_nil in Hin.
  - by rewrite fmap_app.
Qed.

(** The rows after an UPDATE of a job added since [rows0]. *)
Lemma update_of_own_job done d t task_id k :
  Z.of_nat (length rows0) < task_id → models.kwargs_empty k = false →
  polled rows0 done d →
  rowids vt_id (video_tasks (models.update_video_task d t task_id k))
  ∧ take (length rows0) (video_tasks (models.update_video_task d t task_id k)) = rows0
  ∧ own_jobs rows0 (models.update_video_task d t task_id k)
    = (λ vt, if bool_decide (vt_id vt = task_id)
             then models.apply_task_update t k vt else vt) <$> own_jobs rows0 d.
Proof.
  intros Hid Hk (Hrows & Htake & _).
  unfold own_jobs, models.update_video_task. rewrite Hk. cbn [video_tasks].
  split; [|split].
  - apply rowids_fmap; [|done]. intros r. by case_bool_decide.
  - rewrite <- fmap_take, Htake. rewrite <- (list_fmap_id rows0) at 2.
    apply list_fmap_ext. intros i vt Hi.
    rewrite bool_decide_eq_false_2; [done|].
    rewrite <- Htake in Hi. apply lookup_take_Some in Hi as [Hi Hlt].
    apply Hrows in Hi. lia.
  - by rewrite fmap_drop.
Qed.

Lemma polled_update_keep done d t task_id k :
  Z.of_nat (length rows0) < task_id → models.set_status k = None →
  polled rows0 done d → polled rows0 done (models.update_video_task d t task_id k).
Proof.
  intros Hid Hs Hp. destruct (models.kwargs_empty k) eqn:Hk.
  { unfold models.update_video_task. by rewrite Hk. }
  destruct (update_of_own_job done d t task_id k Hid Hk Hp) as (Hrows & Htake & Hown).
  split; [done|]. split; [done|]. rewrite Hown.
  intros vt (vt0 & -> & Hin)%list_elem_of_fmap.
  destruct Hp as (_ & _ & Hp). specialize (Hp vt0 Hin).
  case_bool_decide; [|done]. unfold settled. cbn. by rewrite Hs.
Qed.

Lemma polled_update_terminal done d t task_id k s :
  Z.of_nat (length rows0) < task_id → models.set_status k = Some s →
  s = "succeed" ∨ s = "failed" →
  polled rows0 done d →
  polled rows0 (task_id :: done) (models.update_video_task d t task_id k).
Proof.
  intros Hid Hs Hterm Hp.
  assert (Hk : models.kwargs_empty k = false).
  { unfold models.kwargs_empty. by rewrite Hs. }
  destruct (update_of_own_job done d t task_id k Hid Hk Hp) as (Hrows & Htake & Hown).
  split; [done|]. split; [done|]. rewrite Hown.
  intros vt (vt0 & -> & Hin)%list_elem_of_fmap.
  destruct Hp as (_ & _ & Hp). specialize (Hp vt0 Hin) as [Hdone Hnot].
  case_bool_decide as Hvt.
  - split.
    + intros _ handle _ _. cbn. by rewrite Hs.
    + intros Hnotin. exfalso. apply Hnotin. cbn. rewrite Hvt. by left.
  - split.
    + intros [Heq|Hin']%elem_of_cons; [done|]. by apply Hdone.
    + intros Hnotin. apply Hnot. intros Hin'. apply Hnotin. by right.
Qed.

(** A job that the poll loop passes over has no usable handle. *)
Lemma polled_skip done d task_id :
  (∀ task, models.get_video_task d task_id = Some task →
           vt_klingai_task_id task = None ∨ vt_klingai_task_id task = Some "") →
  polled rows0 done d → polled rows0 (task_id :: done) d.
Proof.
  intros Hskip (Hrows & Htake & Hown). split; [done|]. split; [done|].
  intros vt Hin. destruct (Hown vt Hin) as [Hdone Hnot]. split.
  - intros [Heq|Hin']%elem_of_cons; [|by apply Hdone].
    assert (Hget : models.get_video_task d task_id = Some vt).
    { unfold own_jobs in Hin. apply list_elem_of_lookup in Hin as [i Hi].
      rewrite lookup_drop in Hi. unfold models.get_video_task.
      rewrite <- Heq, (Hrows _ _ Hi).
      by rewrite (rowids_find vt_id _ _ _ Hrows Hi). }
    intros handle Hh Hne. destruct (Hskip vt Hget) as [Hnone|Hempty]; congruence.
  - intros Hnotin. apply Hnot. intros Hin'. apply Hnotin. by right.
Qed.

Lemma polled_same_done done done' d :
  (∀ x, x ∈ done ↔ x ∈ done') → polled rows0 done d → polled rows0 done' d.
Proof.
  intros Hsame (Hrows & Htake & Hown). split; [done|]. split; [done|].
  intros vt Hvt. destruct (Hown vt Hvt) as [Hdone Hnot]. split.
  - intros Hin. apply Hdone. by apply Hsame.
  - intros Hnotin. apply Hnot. intros Hin. apply Hnotin. by apply Hsame.
Qed.

(** The ids of the jobs added since [rows0] are distinct. *)
Lemma own_ids_NoDup d :
  rowids vt_id (video_tasks d) → NoDup (vt_id <$> own_jobs rows0 d).
Proof.
  intros Hrows. apply NoDup_alt. intros i j x Hi Hj.
  apply list_lookup_fmap_Some in Hi as (vi & -> & Hi).
  apply list_lookup_fmap_Some in Hj as (vj & Heq & Hj).
  unfold own_jobs in Hi, Hj. rewrite lookup_drop in Hi, Hj.
  apply Hrows in Hi, Hj. lia.
Qed.

(** A job added since [rows0] is the one a lookup by its id finds. *)
Lemma own_job_found d vt :
  rowids vt_id (video_tasks d) → vt ∈ own_jobs rows0 d →
  models.get_video_task d (vt_id vt) = Some vt.
Proof.
  intros Hrows Hin. unfold own_jobs in Hin.
  apply list_elem_of_lookup in Hin as [i Hi]. rewrite lookup_drop in Hi.
  unfold models.get_video_task. rewrite (Hrows _ _ Hi).
  by rewrite (rowids_find vt_id _ _ _ Hrows Hi).
Qed.

End polled_facts.

Section more_triple_rules.

Lemma triple_and {A} (P1 P2 : db → Prop) (m : M A) (Q1 Q2 : A → db → Prop)
    (E1 E2 : db → Prop) :
  triple P1 m Q1 E1 → triple P2 m Q2 E2 →
  triple (λ d, P1 d ∧ P2 d) m (λ a d, Q1 a d ∧ Q2 a d) (λ d, E1 d ∧ E2 d).
Proof.
  intros H1 H2 w [Hw1 Hw2]. specialize (H1 w Hw1). specialize (H2 w Hw2).
  by destruct (m w) as [[a|ex] w'].
Qed.

Lemma triple_frame_l {A} (I P : db → Prop) (m : M A) (Q : A → db → Prop)
    (E : db → Prop) :
  keeps I m → triple P m Q E →
  triple (λ d, I d ∧ P d) m (λ a d, I d ∧ Q a d) E.
Proof.
  intros HI HP w [Hw1 Hw2]. specialize (HI w Hw1). specialize (HP w Hw2).
  by destruct (m w) as [[a|ex] w'].
Qed.

Lemma triple_frame_r {A} (I P : db → Prop) (m : M A) (Q : A → db → Prop)
    (E : db → Prop) :
  triple P m Q E → keeps I m →
  triple (λ d, P d ∧ I d) m (λ a d, Q a d ∧ I d) E.
Proof.
  intros HP HI w [Hw1 Hw2]. specialize (HI w Hw2). specialize (HP w Hw1).
  by destruct (m w) as [[a|ex] w'].
Qed.

Lemma triple_step {A B} (I : db → Prop) (m : M A) (k : A → M B)
    (Q : B → db → Prop) (E : db → Prop) :
  keeps I m → (∀ d, I d → E d) → (∀ a, triple I (k a) Q E) →
  triple I (bind m k) Q E.
Proof.
  intros Hm HE Hk. apply (triple_bind I _ _ (λ _, I)); [|exact Hk].
  eapply triple_weaken; [exact Hm|done|done|exact HE].
Qed.

Lemma triple_foldM_acc {A B} (J : A → db → Prop) (E : db → Prop)
    (f : A → B → M A) (l : list B) :
  (∀ s b, triple (J s) (f s b) J E) → ∀ s, triple (J s) (foldM f s l) J E.
Proof.
  intros Hf. induction l as [|b l IH]; intros s; cbn [foldM].
  - by apply triple_ret.
  - eapply triple_bind; [apply Hf|]. intros a. apply IH.
Qed.

(** A step that returns, whatever the world, needs no postcondition for
    the case that it raises. *)
Lemma triple_of_returns {A} (I : db → Prop) (m : M A) (E : db → Prop) :
  keeps I m → returns m → triple I m (λ _, I) E.
Proof.
  intros Hk Hr w Hw. specialize (Hk w Hw). destruct (Hr w) as [a Ha].
  destruct (m w) as [[a'|ex] w']; [done|]. by cbn in Ha.
Qed.

Lemma triple_then {A B} (I : db → Prop) (m : M A) (k : A → M B)
    (Q : B → db → Prop) (E : db → Prop) :
  keeps I m → returns m → (∀ a, triple I (k a) Q E) → triple I (bind m k) Q E.
Proof.
  intros Hm Hr Hk. apply (triple_bind I _ _ (λ _, I)); [|exact Hk].
  by apply triple_of_returns.
Qed.

End more_triple_rules.

Section run_jobs.
Variable e : env.
Variable rows0 : list video_task_row.

Lemma polling_same ids done d d' :
  video_tasks d' = video_tasks d → polling rows0 ids done d → polling rows0 ids done d'.
Proof.
  intros H [Hp Hids]. split; [by eapply polled_same|].
  unfold own_jobs in *. by rewrite H.
Qed.

Lemma keeps_polling_update_session ids done sid k :
  keeps (polling rows0 ids done) (update_session sid k).
Proof.
  unfold update_session. apply keeps_write_db. intros d. apply polling_same.
  unfold models.update_session. by destruct (models.session_kwargs_empty k).
Qed.

Lemma keeps_polling_save_scored ids done product_map ranking :
  keeps (polling rows0 ids done) (save_scored e product_map ranking).
Proof.
  unfold save_scored. keeps_steps. eapply polling_same; [|done].
  apply upsert_product_leaves_jobs.
Qed.

Lemma polling_own_ids ids done d vt :
  polling rows0 ids done d → vt ∈ own_jobs rows0 d →
  vt_id vt ∈ ids ∧ Z.of_nat (length rows0) < vt_id vt.
Proof.
  intros [(Hrows & _ & _) Hids] Hin. split.
  - rewrite <- Hids. apply list_elem_of_fmap. by exists vt.
  - unfold own_jobs in Hin. apply list_elem_of_lookup in Hin as [i Hi].
    rewrite lookup_drop in Hi. apply Hrows in Hi. lia.
Qed.

Lemma polling_ids_new ids done d id :
  polling rows0 ids done d → id ∈ ids → Z.of_nat (length rows0) < id.
Proof.
  intros Hp Hin. pose proof Hp as [_ Hids]. rewrite <- Hids in Hin.
  apply list_elem_of_fmap in Hin as (vt & -> & Hvt).
  by eapply polling_own_ids.
Qed.

(** *** Submitting *)

Lemma triple_submit_prompt product db_product acc pd :
  triple (polling rows0 acc.1 [])
         (submit_prompt e product db_product acc pd)
         (λ acc', polling rows0 acc'.1 []) (λ _, False).
Proof.
  unfold submit_prompt. destruct (String.eqb _ ""); [by apply triple_ret|].
  apply (triple_try_except _ _ _ _ (polling rows0 acc.1 [])).
  - apply triple_step; [apply keeps_next_submission|done|]. intros n.
    destruct (klingai.create_video_task (http_post e n)) as [r tr].
    apply triple_step; [apply keeps_emit_io|done|]. intros _.
    eapply triple_bind; [apply (triple_lift _ _ (λ _, polling rows0 acc.1 []))|].
    { intros d Hd. by destruct r. }
    intros handle.
    apply triple_step; [apply keeps_now|done|]. intros t.
    eapply triple_bind.
    + apply (triple_write_db _ _
               (λ task_id, polling rows0 (acc.1 ++ [task_id]) [])).
      intros d [Hp Hids]. destruct (polled_create rows0 d t (p_id db_product)
        (Some handle) (default "" (claude_stylist.pd_prompt pd))
        (default "unknown" (claude_stylist.pd_type pd)) Hp) as [Hp' Hids'].
      split; [done|]. by rewrite Hids', Hids.
    + intros task_id. by apply triple_ret.
  - intros ex. apply triple_then; [apply keeps_emit|apply returns_emit|].
    intros _. by apply triple_ret.
Qed.

Lemma triple_tasks_for_selected product_map acc sel :
  triple (polling rows0 acc.1 [])
         (tasks_for_selected e product_map acc sel)
         (λ acc', polling rows0 acc'.1 [])
         (λ d, ∃ ids, polling rows0 ids [] d).
Proof.
  unfold tasks_for_selected, product_has_video_today.
  destruct (product_map !! s_cscart_id sel) as [product|]; [|by apply triple_ret].
  assert (HE : ∀ d, polling rows0 acc.1 [] d → ∃ ids, polling rows0 ids [] d)
    by (intros d Hd; by eexists).
  apply triple_step; [keeps_steps|done|]. intros [|]; [by apply triple_ret|].
  apply triple_step; [apply keeps_read_db|done|].
  intros [db_product|]; [|by apply triple_ret].
  apply triple_step; [apply keeps_lift|done|]. intros prompts.
  eapply triple_weaken.
  - apply (triple_foldM_acc (λ acc', polling rows0 acc'.1 []) (λ _, False)).
    intros. apply triple_submit_prompt.
  - done.
  - done.
  - done.
Qed.

Lemma triple_create_tasks product_map selected :
  triple (polling rows0 [] [])
         (create_tasks e product_map selected)
         (λ created, polling rows0 created.1 [])
         (λ d, ∃ ids, polling rows0 ids [] d).
Proof.
  unfold create_tasks.
  apply (triple_foldM_acc (λ acc', polling rows0 acc'.1 [])
           (λ d, ∃ ids, polling rows0 ids [] d) _ selected
           (λ s b, triple_tasks_for_selected product_map s b) ([], 0)).
Qed.

End run_jobs.

Section run_polls.
Variable e : env.
Variable rows0 : list video_task_row.

Lemma polling_update_keep ids done d t task_id k :
  Z.of_nat (length rows0) < task_id → models.set_status k = None →
  polling rows0 ids done d →
  polling rows0 ids done (models.update_video_task d t task_id k).
Proof.
  intros Hid Hs [Hp Hids]. split; [by apply polled_update_keep|].
  destruct (models.kwargs_empty k) eqn:Hk.
  { unfold models.update_video_task. by rewrite Hk. }
  destruct (update_of_own_job rows0 done d t task_id k Hid Hk Hp) as (_ & _ & ->).
  rewrite <- Hids, <- list_fmap_compose. apply list_fmap_ext.
  intros i vt _. cbn. by case_bool_decide.
Qed.

Lemma polling_update_terminal ids done d t task_id k s :
  Z.of_nat (length rows0) < task_id → models.set_status k = Some s →
  s = "succeed" ∨ s = "failed" →
  polling rows0 ids done d →
  polling rows0 ids (task_id :: done) (models.update_video_task d t task_id k).
Proof.
  intros Hid Hs Hterm [Hp Hids]. split; [by eapply polled_update_terminal|].
  assert (Hk : models.kwargs_empty k = false).
  { unfold models.kwargs_empty. by rewrite Hs. }
  destruct (update_of_own_job rows0 done d t task_id k Hid Hk Hp) as (_ & _ & ->).
  rewrite <- Hids, <- list_fmap_compose. apply list_fmap_ext.
  intros i vt _. cbn. by case_bool_decide.
Qed.

Lemma keeps_polling_send_video ids done recipient twp :
  Z.of_nat (length rows0) < vt_id twp.1 →
  keeps (polling rows0 ids done) (send_video_for_approval e recipient twp).
Proof.
  intros Hid. unfold send_video_for_approval.
  destruct (vt_video_url twp.1) as [url|]; [|apply keeps_emit].
  destruct (String.eqb url ""); [apply keeps_emit|].
  destruct (send_video e recipient _) as [message_id|]; [|apply keeps_emit].
  apply keeps_bind; [apply keeps_emit|]. intros _.
  unfold update_video_task. cbn [models.kwargs_empty models.set_status
    models.set_video_url models.set_telegram_message_id].
  apply keeps_bind; [apply keeps_now|]. intros t.
  apply keeps_write_db. intros d Hd. cbn [fst]. by apply polling_update_keep.
Qed.

Lemma triple_set_job_status ids done task_id k s (E : db → Prop) :
  Z.of_nat (length rows0) < task_id → models.set_status k = Some s →
  s = "succeed" ∨ s = "failed" →
  triple (polling rows0 ids done) (update_video_task e task_id k)
         (λ _, polling rows0 ids (task_id :: done)) E.
Proof.
  intros Hid Hs Hterm. unfold update_video_task.
  assert (models.kwargs_empty k = false) as ->.
  { unfold models.kwargs_empty. by rewrite Hs. }
  apply triple_then; [apply keeps_now|apply returns_now|]. intros t.
  apply triple_write_db. intros d Hd. cbn [fst]. by eapply polling_update_terminal.
Qed.

(** The value a poll hands on is the one it returned. *)
Lemma triple_lift_return {A B} (P : db → Prop) (a : A) (k : A → M B)
    (Q : B → db → Prop) (E : db → Prop) :
  triple P (k a) Q E → triple P (bind (lift (Return a)) k) Q E.
Proof. intros H w Hw. exact (H w Hw). Qed.

(** One pass of the poll loop: the job is settled, or its poll raised and
    nothing was written. *)
Lemma triple_poll_one ids done recipients announce completed task_id :
  Z.of_nat (length rows0) < task_id →
  triple (polling rows0 ids done)
         (poll_one e recipients announce completed task_id)
         (λ _, polling rows0 ids (task_id :: done))
         (λ d, polling rows0 ids done d ∧ poll_raised e d task_id).
Proof.
  intros Hid. unfold poll_one.
  apply (triple_bind _ _ _
    (λ task d, polling rows0 ids done d
               ∧ models.get_video_task d task_id = task
               ∧ ((∀ row, task = Some row →
                     vt_klingai_task_id row = None
                     ∨ vt_klingai_task_id row = Some "") →
                  polling rows0 ids (task_id :: done) d))).
  { apply triple_read_db. intros d Hd. split; [done|]. split; [done|].
    intros Hskip. destruct Hd as [Hp Hids]. split; [|done].
    apply polled_skip; [|done]. exact Hskip. }
  intros [task|]; [|apply triple_ret; intros d (_ & _ & Hd); by apply Hd].
  destruct (vt_klingai_task_id task) as [handle|] eqn:Hhandle;
    [|apply triple_ret; intros d (_ & _ & Hd); apply Hd; intros row [= Hrow];
      rewrite <- Hrow; by left].
  destruct (String.eqb_spec handle "") as [->|Hne].
  { apply triple_ret. intros d (_ & _ & Hd). apply Hd. intros row [= Hrow].
    rewrite <- Hrow. by right. }
  destruct (klingai.poll_task_until_done _ _ _) as [polled tr] eqn:Hpoll.
  eapply triple_weaken
    with (P' := λ d, polling rows0 ids done d
                     ∧ models.get_video_task d task_id = Some task)
         (Q' := λ _, polling rows0 ids (task_id :: done))
         (E' := λ d, polling rows0 ids done d ∧ poll_raised e d task_id);
    [|by intros d (Hd & Hget & _)|done|done].
  apply triple_then; [apply keeps_emit_io|apply returns_emit_io|]. intros _.
  destruct polled as [result|ex].
  2:{ intros w [Hp Hget]. unfold bind, lift. cbn. split; [done|].
      exists task, handle, ex. repeat split; try done.
      unfold poll_outcome. by rewrite Hpoll. }
  apply triple_lift_return.
  eapply triple_weaken
    with (P' := polling rows0 ids done)
         (Q' := λ _, polling rows0 ids (task_id :: done))
         (E' := λ _, False);
    [|by intros d [Hd _]|done|done].
  eapply triple_bind with (R := λ _, polling rows0 ids (task_id :: done)).
  2:{ intros c. apply triple_then; [apply keeps_emit|apply returns_emit|].
      intros _. by apply triple_ret. }
  destruct (String.eqb (klingai.r_status result) "succeed").
  - apply (triple_bind _ _ _ (λ _, polling rows0 ids (task_id :: done)));
      [by eapply triple_set_job_status; [done|done|left]|].
    intros _.
    apply (triple_bind _ _ _
      (λ twp d, (∀ r, twp = Some r → vt_id r.1 = task_id)
                ∧ polling rows0 ids (task_id :: done) d)).
    { apply triple_read_db. intros d Hd. split; [|done]. intros r Hr.
      unfold models.get_task_with_product in Hr.
      destruct (list_find _ _) as [[i r']|] eqn:Hfind; [|done].
      injection Hr as <-. by apply list_find_Some in Hfind as (_ & Hfound & _). }
    intros twp. apply triple_pure. intros Htwp.
    eapply triple_bind with (R := λ _, polling rows0 ids (task_id :: done));
      [|intros _; by apply triple_ret].
    destruct twp as [twp|]; [|by apply triple_ret].
    apply triple_of_returns.
    + apply triple_foldM. intros _ r. apply keeps_polling_send_video.
      by rewrite (Htwp twp eq_refl).
    + apply returns_foldM. intros _ r. apply returns_send_video_for_approval.
  - apply (triple_bind _ _ _ (λ _, polling rows0 ids (task_id :: done)));
      [by eapply triple_set_job_status; [done|done|right]|].
    intros _.
    apply triple_then; [|destruct announce; [apply returns_emit|apply returns_ret]|].
    { destruct announce; [apply keeps_emit|apply keeps_ret]. }
    intros _. by apply triple_ret.
Qed.

(** The loop over the jobs: all are settled, or it was left at the first
    job whose poll raised. *)
Lemma triple_poll_all ids recipients announce task_ids : ∀ done completed,
  Forall (λ id, Z.of_nat (length rows0) < id) task_ids →
  triple (polling rows0 ids done)
         (foldM (poll_one e recipients announce) completed task_ids)
         (λ _, polling rows0 ids (reverse task_ids ++ done))
         (λ d, ∃ pre id post,
                 task_ids = pre ++ id :: post
                 ∧ polling rows0 ids (reverse pre ++ done) d
                 ∧ poll_raised e d id).
Proof.
  induction task_ids as [|id task_ids IH]; intros done completed Hnew.
  - by apply triple_ret.
  - apply Forall_cons in Hnew as [Hid Hnew]. cbn [foldM].
    apply (triple_bind _ _ _ (λ _, polling rows0 ids (id :: done))).
    + eapply triple_weaken; [by apply triple_poll_one|done|done|].
      intros d [Hp Hraised]. by exists [], id, task_ids.
    + intros c. eapply triple_weaken; [by apply (IH (id :: done) c)|done| |].
      * intros a d Hd. by rewrite reverse_cons, <- app_assoc.
      * intros d (pre & id' & post & -> & Hp & Hraised).
        exists (id :: pre), id', post. split; [done|]. split; [|done].
        by rewrite reverse_cons, <- app_assoc.
Qed.

(** Of the rows: where the loop was left, the jobs before are settled and
    the others still submitted. *)
Lemma stopped_cut_short d : stopped e rows0 d → cut_short e rows0 d.
Proof.
  intros (pre & id & post & done & Hdone & [Hp Hids] & Hraised).
  pose proof Hp as (Hrows & _ & Hown).
  pose proof (own_ids_NoDup rows0 d Hrows) as Hnodup. rewrite Hids in Hnodup.
  apply fmap_app_inv in Hids as (before & rest & Hpre & Hrest & Hsplit).
  destruct rest as [|vt after]; [done|]. cbn in Hrest. injection Hrest as Hid Hpost.
  destruct Hraised as (task & handle & ex & Hget & Hhandle & Hne & Hex).
  assert (Hvt : vt ∈ own_jobs rows0 d).
  { rewrite Hsplit. apply elem_of_app. right. by left. }
  pose proof (own_job_found rows0 d vt Hrows Hvt) as Hfound.
  rewrite <- Hid, Hget in Hfound. injection Hfound as ->.
  exists before, vt, after, handle, ex. split; [done|]. split; [done|].
  split; [done|]. split; [done|]. split.
  - intros job Hjob.
    assert (Hin : job ∈ own_jobs rows0 d).
    { rewrite Hsplit. apply elem_of_app. by left. }
    apply (Hown job Hin), Hdone. rewrite Hpre. by apply list_elem_of_fmap_2.
  - intros job Hjob.
    assert (Hin : job ∈ own_jobs rows0 d).
    { rewrite Hsplit. apply elem_of_app. by right. }
    apply (Hown job Hin). intros Hjd. apply Hdone in Hjd.
    apply NoDup_app in Hnodup as (_ & Hdisj & _). apply (Hdisj _ Hjd).
    rewrite Hid, Hpost. change (vt_id vt :: (vt_id <$> after))
      with (vt_id <$> vt :: after). by apply list_elem_of_fmap_2.
Qed.

Lemma stopped_same d d' :
  video_tasks d' = video_tasks d → stopped e rows0 d → stopped e rows0 d'.
Proof.
  intros H (pre & id & post & done & Hdone & Hp & Hraised).
  exists pre, id, post, done. split; [done|]. split; [by eapply polling_same|].
  unfold poll_raised, models.get_video_task in *. by rewrite H.
Qed.

Lemma interrupted_same d d' :
  video_tasks d' = video_tasks d → interrupted e rows0 d → interrupted e rows0 d'.
Proof.
  intros H [[ids Hp]|Hs]; [left; exists ids; by eapply polling_same|].
  right. by eapply stopped_same.
Qed.

End run_polls.

Section run_outcomes.
Variable e : env.
Variable rows0 : list video_task_row.
Variable sid : Z.
Variable n : nat.

Lemma keeps_and {A} (I1 I2 : db → Prop) (m : M A) :
  keeps I1 m → keeps I2 m → keeps (λ d, I1 d ∧ I2 d) m.
Proof. intros H1 H2. by apply triple_and. Qed.

Lemma triple_from_state {A} (φ : Prop) (P : db → Prop) (m : M A) Q E :
  (∀ d, P d → φ) → (φ → triple P m Q E) → triple P m Q E.
Proof. intros Hφ H w Hw. by apply (H (Hφ _ Hw)). Qed.

Lemma triple_set_status s E :
  triple (run_row sid n any_status) (update_session sid (only_status s))
         (λ _, run_row sid n (λ x, x = s)) E.
Proof.
  unfold update_session. apply triple_write_db. intros d Hd. cbn [fst snd].
  by apply (run_row_update sid n any_status (only_status s)).
Qed.

Lemma keeps_interrupted_update_session session_id k :
  keeps (interrupted e rows0) (update_session session_id k).
Proof.
  unfold update_session. apply keeps_write_db. intros d. apply interrupted_same.
  unfold models.update_session. by destruct (models.session_kwargs_empty k).
Qed.

Lemma failed_outcome d :
  run_row sid n (λ x, x = "failed") d → interrupted e rows0 d →
  run_outcome e rows0 sid n d.
Proof.
  intros Hrow [[ids [(_ & Htake & Hown) _]]|Hs].
  - split; [done|]. left. split; [done|]. left.
    intros vt Hvt. apply (Hown vt Hvt). intros Hin. by apply elem_of_nil in Hin.
  - pose proof Hs as (pre & id & post & done & _ & [(_ & Htake & _) _] & _).
    split; [done|]. left. split; [done|]. right. by apply stopped_cut_short.
Qed.

Lemma completed_outcome ids d :
  ids ≠ [] →
  run_row sid n (λ x, x = "completed") d → polling rows0 ids (reverse ids ++ []) d →
  run_outcome e rows0 sid n d.
Proof.
  intros Hne Hrow Hp. pose proof Hp as [(_ & Htake & Hown) Hids].
  split; [done|]. right. split; [done|]. split.
  - intros Hnil. rewrite Hnil in Hids. by destruct ids.
  - intros vt Hvt. apply (Hown vt Hvt).
    rewrite app_nil_r, elem_of_reverse. by eapply polling_own_ids.
Qed.

(** The failure path: mark the run failed. *)
Lemma triple_fail_run (E : db → Prop) :
  triple (λ d, run_row sid n any_status d ∧ interrupted e rows0 d)
         (update_session sid (only_status "failed"))
         (λ _, run_outcome e rows0 sid n) E.
Proof.
  eapply triple_weaken.
  - apply triple_frame_r;
      [apply (triple_set_status "failed" E)|apply keeps_interrupted_update_session].
  - intros d Hd. exact Hd.
  - intros _ d [Hrow Hp]. by eapply failed_outcome.
  - intros d Hd. exact Hd.
Qed.

Lemma triple_fail_unpolled ids (E : db → Prop) :
  triple (λ d, run_row sid n any_status d ∧ polling rows0 ids [] d)
         (update_session sid (only_status "failed"))
         (λ _, run_outcome e rows0 sid n) E.
Proof.
  eapply triple_weaken; [apply (triple_fail_run E)| |done|done].
  intros d [Hrow Hp]. split; [done|]. left. by exists ids.
Qed.

Lemma keeps_started_update_session ids done k :
  models.set_session_status k = None →
  keeps (λ d, run_row sid n any_status d ∧ polling rows0 ids done d)
        (update_session sid k).
Proof.
  intros Hk. apply keeps_and.
  - by apply keeps_run_row_update_session.
  - apply keeps_polling_update_session.
Qed.

Lemma triple_finish_run_outcome created :
  triple (λ d, run_row sid n any_status d ∧ polling rows0 created.1 [] d)
         (scheduler.finish_run e sid created)
         (λ _, run_outcome e rows0 sid n)
         (λ d, run_row sid n any_status d ∧ interrupted e rows0 d).
Proof.
  unfold scheduler.finish_run. destruct created as [task_ids total]. cbn [fst].
  apply triple_then;
    [by apply keeps_started_update_session|apply returns_update_session|].
  intros _. apply triple_then; [apply keeps_emit|apply returns_emit|]. intros _.
  destruct task_ids as [|id task_ids].
  - apply triple_then; [apply keeps_emit|apply returns_emit|]. intros _.
    apply triple_fail_unpolled.
  - set (ids := id :: task_ids).
    apply (triple_from_state (Forall (λ i, Z.of_nat (length rows0) < i) ids)).
    { intros d [_ Hp]. apply Forall_forall. intros i Hi.
      by eapply polling_ids_new. }
    intros Hnew.
    apply (triple_bind _ _ _
      (λ _ d, run_row sid n any_status d
              ∧ polling rows0 ids (reverse ids ++ []) d)).
    { eapply triple_weaken.
      - apply triple_and.
        + apply keeps_run_row, keeps_sessions_poll_all.
        + unfold poll_all. by apply (triple_poll_all e rows0 ids).
      - intros d Hd. exact Hd.
      - intros a d Hd. exact Hd.
      - intros d [Hrow (pre & id' & post & Hids & Hp & Hraised)].
        split; [done|]. right. exists pre, id', post, (reverse pre ++ []).
        split; [intros x; by rewrite app_nil_r, elem_of_reverse|].
        split; [by rewrite <- Hids|done]. }
    intros completed.
    apply (triple_bind _ _ _ (λ _, run_outcome e rows0 sid n)).
    + eapply triple_weaken.
      * apply triple_frame_r;
          [apply (triple_set_status "completed" (λ _, False))
          |apply keeps_polling_update_session].
      * intros d Hd. exact Hd.
      * intros _ d [Hrow Hp]. by eapply (completed_outcome ids).
      * intros d Hd. done.
    + intros _. apply triple_of_returns; [apply keeps_emit|apply returns_emit].
Qed.

Lemma started_any d :
  run_row sid n any_status d ∧ polling rows0 [] [] d →
  run_row sid n any_status d ∧ interrupted e rows0 d.
Proof. intros [Hrow Hp]. split; [done|]. left. by eexists. Qed.

Lemma triple_after_curation_outcome all_products ranking selected :
  triple (λ d, run_row sid n any_status d ∧ polling rows0 [] [] d)
         (scheduler.after_curation e sid all_products ranking selected)
         (λ _, run_outcome e rows0 sid n)
         (λ d, run_row sid n any_status d ∧ interrupted e rows0 d).
Proof.
  unfold scheduler.after_curation.
  apply triple_then;
    [by apply keeps_started_update_session|apply returns_update_session|].
  intros _.
  apply triple_then; [|apply returns_save_scored|].
  { apply keeps_and; [apply keeps_run_row, keeps_sessions_save_scored|].
    apply keeps_polling_save_scored. }
  intros _.
  apply (triple_bind _ _ _
    (λ created d, run_row sid n any_status d ∧ polling rows0 created.1 [] d)).
  - eapply triple_weaken.
    + apply triple_and.
      * apply keeps_run_row, keeps_sessions_create_tasks.
      * apply triple_create_tasks.
    + intros d Hd. exact Hd.
    + intros created d Hd. exact Hd.
    + intros d [Hrow Hids]. split; [done|]. by left.
  - intros created. apply triple_finish_run_outcome.
Qed.

Lemma triple_job_body_outcome :
  triple (λ d, run_row sid n any_status d ∧ polling rows0 [] [] d)
         (scheduler.job_body e sid)
         (λ _, run_outcome e rows0 sid n)
         (λ d, run_row sid n any_status d ∧ interrupted e rows0 d).
Proof.
  unfold scheduler.job_body.
  apply triple_then; [apply keeps_emit|apply returns_emit|]. intros _.
  apply triple_step; [apply keeps_lift|apply started_any|]. intros new_products.
  apply triple_step; [apply keeps_lift|apply started_any|]. intros popular_products.
  apply triple_then;
    [by apply keeps_started_update_session|apply returns_update_session|].
  intros _.
  destruct (deduplicate new_products popular_products) as [|p all_products].
  - apply triple_then; [apply keeps_emit|apply returns_emit|]. intros _.
    apply triple_fail_unpolled.
  - apply triple_step; [apply keeps_lift|apply started_any|]. intros ranking.
    destruct (select_for_generation _ ranking) as [ranking' selected].
    apply triple_after_curation_outcome.
Qed.

End run_outcomes.

Lemma triple_daily_generation_job_outcome (e : env) (rows0 : list video_task_row)
    (n : nat) :
  triple (λ d, length (generation_sessions d) = n
               ∧ rowids vt_id (video_tasks d) ∧ video_tasks d = rows0)
         (scheduler.daily_generation_job e)
         (λ _, run_outcome e rows0 (Z.of_nat n + 1) (S n)) (λ _, False).
Proof.
  unfold scheduler.daily_generation_job.
  apply (triple_bind _ _ _
    (λ sid d, sid = Z.of_nat n + 1
              ∧ (run_row sid (S n) any_status d ∧ polling rows0 [] [] d))).
  - unfold create_session.
    apply (triple_bind _ _ _
      (λ _ d, length (generation_sessions d) = n
              ∧ rowids vt_id (video_tasks d) ∧ video_tasks d = rows0)).
    { intros w Hw. exact Hw. }
    intros t. apply triple_write_db. intros d (Hn & Hrows & Heq).
    destruct (last_session_create d t) as (Hlast & Hlen & _ & Htasks).
    split; [|split].
    + unfold models.create_session. cbn [snd]. unfold next_rowid. by rewrite Hn.
    + split; [by rewrite Hlen, Hn|]. eexists. split; [exact Hlast|]. done.
    + unfold polling, polled, own_jobs. rewrite Htasks, Heq.
      rewrite take_ge, drop_ge by done. split; [|done].
      split; [by rewrite <- Heq|]. split; [done|].
      intros vt Hvt. by apply elem_of_nil in Hvt.
  - intros sid. apply triple_pure. intros ->.
    eapply triple_try_except; [apply triple_job_body_outcome|].
    intros ex.
    apply triple_then; [apply keeps_emit|apply returns_emit|]. intros _.
    apply (triple_bind _ _ _ (λ _, run_outcome e rows0 (Z.of_nat n + 1) (S n))).
    + apply triple_fail_run.
    + intros _. apply triple_of_returns; [apply keeps_emit|apply returns_emit].
Qed.

(** X16. What a scheduled run leaves of its own jobs is decided by how it
    ends.  In a well-formed store the jobs that were there before are left
    exactly as they were.  If the run ends completed, it created at least
    one job and every job it created whose handle is usable is succeed or
    failed.  If it ends failed, then either every job it created is still
    submitted and has never been polled (no items, an error on the way --
    also an error of the prompt request for a later item --, or no job
    created), or its poll loop was cut short: the poll of one of its jobs
    raised, the jobs created before that one are settled, and that job and
    the ones after it are still submitted.  So when no poll raises, a
    failed run has polled none of its jobs. *)
Theorem X16_a_run_polls_its_jobs_until_a_poll_raises (e : env) (w : world) :
  store_ok (w_db w) →
  let d' := w_db (scheduler.daily_generation_job e w).2 in
  let before := video_tasks (w_db w) in
  take (length before) (video_tasks d') = before
  ∧ ((gs_status <$> last_session d') = Some "failed" →
     (∀ vt, vt ∈ own_jobs before d' → vt_status vt = "submitted")
     ∨ cut_short e before d')
  ∧ ((gs_status <$> last_session d') = Some "completed" →
     own_jobs before d' ≠ [] ∧ ∀ vt, vt ∈ own_jobs before d' → settled vt)
  ∧ ((∀ handle, ∃ r, poll_outcome e handle = Return r) →
     (gs_status <$> last_session d') = Some "failed" →
     ∀ vt, vt ∈ own_jobs before d' → vt_status vt = "submitted").
Proof.
  intros Hok d' before. subst d'.
  pose proof (triple_daily_generation_job_outcome e before
                (length (generation_sessions (w_db w))) w
                (conj eq_refl (conj (ok_task_ids _ Hok) eq_refl))) as H.
  destruct (scheduler.daily_generation_job e w) as [[[]|ex] w']; [|done].
  cbn [snd]. destruct H as [Htake [[Hrow Hsub]|(Hrow & Hne & Hset)]].
  - destruct Hrow as (_ & row & Hlast & _ & Hst).
    split; [done|]. rewrite Hlast. cbn. rewrite Hst. split; [done|].
    split; [by intros [= ]|]. intros Hret _.
    destruct Hsub as [Hsub|(pre & vt & post & handle & ex & _ & _ & _ & Hex & _)];
      [done|].
    destruct (Hret handle) as [r Hr]. congruence.
  - destruct Hrow as (_ & row & Hlast & _ & Hst).
    split; [done|]. rewrite Hlast. cbn. rewrite Hst. split; [by intros [= ]|].
    split; [done|]. by intros _ [= ].
Qed.

Lemma X16_run_jobs_witness :
  store_ok empty_db
  ∧ ((∀ vt, vt ∈ own_jobs []
               (w_db (scheduler.daily_generation_job raising_poll_env
                        (initial_world empty_db)).2) →
            vt_status vt = "submitted")
     ∨ cut_short raising_poll_env []
         (w_db (scheduler.daily_generation_job raising_poll_env
                  (initial_world empty_db)).2)).
Proof.
  split; [exact store_ok_empty|].
  destruct (X16_a_run_polls_its_jobs_until_a_poll_raises raising_poll_env
              (initial_world empty_db) store_ok_empty) as (_ & Hfailed & _).
  apply Hfailed. by vm_compute.
Defined.

(** A run whose second poll raises: the first job is stored as succeed,
    the five after it are never polled, and the run ends failed. *)
Example scheduled_run_with_a_raising_poll :
  let out := scheduler.daily_generation_job raising_poll_env (initial_world empty_db) in
  out.1 = Return tt
  ∧ (vt_status <$> video_tasks (w_db out.2))
    = ["succeed"; "submitted"; "submitted"; "submitted"; "submitted"; "submitted"]
  ∧ session_status (w_db out.2) 1 = Some "failed"
  ∧ last (w_trace out.2) = Some (Notice (RunFailed TimeoutError)).
Proof. by vm_compute. Qed.

(** * Regeneration *)

Section regenerate_facts.
Variable e : env.

Lemma joined_row_is_stored d task_id twp :
  models.get_task_with_product d task_id = Some twp →
  twp.1 ∈ video_tasks d ∧ twp.2 ∈ products d
  ∧ vt_id twp.1 = task_id ∧ p_id twp.2 = vt_product_id twp.1.
Proof.
  unfold models.get_task_with_product.
  destruct (list_find _ _) as [[i r]|] eqn:Hfind; [|done].
  intros [= <-]. apply list_find_Some in Hfind as (Hi & Hid & _).
  apply list_elem_of_lookup_2 in Hi.
  unfold models.tasks_join_products in Hi.
  apply list_elem_of_bind in Hi as (vt & Hr & Hvt).
  apply list_elem_of_bind in Hr as (p & Hr & Hp).
  case_bool_decide; [|by apply elem_of_nil in Hr].
  apply list_elem_of_singleton in Hr as ->. done.
Qed.

Lemma stored_job_has_status d vt :
  vt ∈ video_tasks d → ∃ s, status_of d (vt_id vt) = Some s.
Proof.
  intros Hin. unfold status_of, models.get_video_task.
  destruct (list_find (λ r, vt_id r = vt_id vt) (video_tasks d))
    as [[i r]|] eqn:Hfind; [by eexists|].
  exfalso. apply list_find_None in Hfind. rewrite Forall_forall in Hfind.
  by apply (Hfind vt Hin).
Qed.

Lemma status_of_create d t product_id handle prompt prompt_type task_id s :
  status_of d task_id = Some s →
  status_of (models.create_video_task d t product_id handle prompt prompt_type).1
            task_id = Some s.
Proof.
  unfold status_of, models.get_video_task, models.create_video_task.
  cbn [fst video_tasks].
  destruct (list_find (λ r, vt_id r = task_id) (video_tasks d))
    as [[i r]|] eqn:Hfind; [|done].
  by rewrite (list_find_app_l _ _ _ _ _ Hfind).
Qed.

Lemma created_id_is_new d t product_id handle prompt prompt_type task_id s :
  rowids vt_id (video_tasks d) → status_of d task_id = Some s →
  (models.create_video_task d t product_id handle prompt prompt_type).2 ≠ task_id.
Proof.
  intros Hrows Hs. unfold status_of, models.get_video_task in Hs.
  destruct (list_find (λ r, vt_id r = task_id) (video_tasks d))
    as [[i r]|] eqn:Hfind; [|done].
  apply (rowids_find_Some vt_id) in Hfind as [-> Hi]; [|done].
  apply lookup_lt_Some in Hi. cbn. unfold next_rowid. lia.
Qed.

Lemma keeps_status_poll_one task_id s recipients announce completed other :
  other ≠ task_id →
  keeps (λ d, status_of d task_id = Some s)
        (poll_one e recipients announce completed other).
Proof.
  intros Hne w Hw.
  destruct (poll_one_cases e recipients announce completed other w)
    as (res & w' & -> & _ & Hsame & _).
  destruct res; (rewrite Hsame; [done|]; by intros ->).
Qed.

Lemma keeps_status_poll_and_send task_id s chat_id other :
  other ≠ task_id →
  keeps (λ d, status_of d task_id = Some s)
        (handlers._poll_and_send_videos e chat_id [other] None).
Proof.
  intros Hne. unfold handlers._poll_and_send_videos, poll_all. cbn [foldM].
  apply keeps_bind.
  - apply keeps_bind; [by apply keeps_status_poll_one|]. intros c. apply keeps_ret.
  - intros c. apply keeps_bind; [apply keeps_ret|]. intros _.
    destruct (0 <? c); [apply keeps_emit|].
    destruct (0 <? _); [apply keeps_emit|apply keeps_ret].
Qed.

Lemma update_rejects d t task_id twp :
  models.get_task_with_product d task_id = Some twp →
  status_of (models.update_video_task d t task_id (status_only "rejected")) task_id
  = Some "rejected".
Proof.
  intros Htwp. apply joined_row_is_stored in Htwp as (Hin & _ & Hid & _).
  destruct (stored_job_has_status d _ Hin) as [s Hs]. rewrite Hid in Hs.
  rewrite status_of_update by done. rewrite bool_decide_eq_true_2 by done.
  by rewrite Hs.
Qed.

(** The old job is marked rejected before anything else is tried, and
    nothing that follows touches it; an id without a joined row changes
    nothing. *)
Lemma triple_regenerate_rejects chat_id task_id d0 :
  triple (λ d, d = d0 ∧ rowids vt_id (video_tasks d))
         (callbacks._handle_regenerate e chat_id task_id)
         (λ _ d, match models.get_task_with_product d0 task_id with
                 | Some _ => status_of d task_id = Some "rejected"
                 | None => d = d0
                 end)
         (λ _, False).
Proof.
  unfold callbacks._handle_regenerate.
  apply (triple_bind _ _ _
    (λ task d, task = models.get_task_with_product d0 task_id
               ∧ (d = d0 ∧ rowids vt_id (video_tasks d)))).
  { apply triple_read_db. by intros d [-> Hd]. }
  intros task. apply triple_pure. intros Htask. rewrite <- Htask.
  destruct task as [[vt p]|]; [|apply triple_ret; by intros d [-> _]].
  set (RJ := λ d, rowids vt_id (video_tasks d)
                  ∧ status_of d task_id = Some "rejected").
  apply (triple_bind _ _ _ (λ _, RJ)).
  { unfold update_video_task. cbn [models.kwargs_empty status_only models.set_status].
    apply triple_then; [apply keeps_now|apply returns_now|]. intros t.
    apply triple_write_db. intros d [-> Hrows]. cbn [fst]. split.
    - unfold models.update_video_task. cbn [models.kwargs_empty status_only
        models.set_status video_tasks].
      apply rowids_fmap; [|done]. intros r. by case_bool_decide.
    - by eapply update_rejects. }
  intros _.
  apply (triple_bind _ _ _
    (λ started d, (∀ id, started = Some id → id ≠ task_id)
                  ∧ status_of d task_id = Some "rejected")).
  - apply (triple_try_except _ _ _ _ RJ).
    + apply triple_step; [apply keeps_lift|done|]. intros prompts.
      destruct (callbacks.choose_prompt prompts (vt_prompt_type vt)) as [pd|];
        [|apply triple_ret; by intros d [_ Hd]].
      destruct (callbacks.is_empty_entry pd); [apply triple_ret; by intros d [_ Hd]|].
      apply triple_step; [apply keeps_lift|done|]. intros prompt.
      apply triple_step; [apply keeps_next_submission|done|]. intros k.
      destruct (klingai.create_video_task (http_post e k)) as [r tr].
      apply triple_step; [apply keeps_emit_io|done|]. intros _.
      apply triple_step; [apply keeps_lift|done|]. intros handle.
      apply triple_step; [apply keeps_lift|done|]. intros prompt_type.
      apply triple_step; [apply keeps_now|done|]. intros t.
      apply (triple_bind _ _ _
        (λ new_id d, new_id ≠ task_id ∧ status_of d task_id = Some "rejected")).
      * apply triple_write_db. intros d [Hrows Hs]. split.
        -- by eapply created_id_is_new.
        -- by apply status_of_create.
      * intros new_id. apply triple_ret. intros d [Hne Hs]. split; [|done].
        by intros id [= <-].
    + intros ex. apply triple_then; [apply keeps_emit|apply returns_emit|].
      intros _. apply triple_ret. by intros d [_ Hd].
  - intros started. apply triple_pure. intros Hnew.
    destruct started as [new_id|]; [|by apply triple_ret].
    apply (triple_create_task _ _ _ (λ d, status_of d task_id = Some "rejected"));
      [|done].
    apply keeps_status_poll_and_send. by apply Hnew.
Qed.

Lemma keeps_ok_regenerate chat_id task_id :
  keeps store_ok (callbacks._handle_regenerate e chat_id task_id).
Proof.
  unfold callbacks._handle_regenerate.
  apply (triple_bind _ _ _
    (λ task d, store_ok d
               ∧ ∀ twp, task = Some twp →
                        ∃ q, q ∈ products d ∧ p_id q = vt_product_id twp.1)).
  { apply triple_read_db. intros d Hd. split; [done|]. intros twp Htwp.
    apply joined_row_is_stored in Htwp as (_ & Hp & _ & Hid). by exists twp.2. }
  intros [[vt p]|]; [|apply triple_ret; by intros d [Hd _]].
  apply (triple_weaken _ (owned (vt_product_id vt)) _ _ (λ _, store_ok) _ store_ok).
  2:{ intros d [Hd Hp]. split; [done|]. by apply (Hp (vt, p)). }
  2:{ by intros _ d Hd. }
  2:{ by intros d Hd. }
  assert (HE : ∀ d, owned (vt_product_id vt) d → store_ok d) by (by intros d [Hd _]).
  apply triple_step; [|exact HE|].
  { unfold update_video_task. cbn [models.kwargs_empty status_only models.set_status].
    apply keeps_bind; [apply keeps_now|]. intros t. apply keeps_write_db.
    intros d [Hd Hp]. cbn [fst]. split.
    - apply store_ok_update_video_task; [done|]. intros s [= <-].
      unfold written_statuses. do 4 apply list_elem_of_further.
      apply list_elem_of_here.
    - unfold models.update_video_task. cbn. exact Hp. }
  intros _. apply triple_step; [|exact HE|].
  - apply keeps_try_except; [|keeps_steps].
    apply keeps_bind; [apply keeps_lift|]. intros prompts.
    destruct (callbacks.choose_prompt prompts (vt_prompt_type vt)) as [pd|];
      [|apply keeps_ret].
    destruct (callbacks.is_empty_entry pd); [apply keeps_ret|].
    keeps_steps.
    match goal with H : owned _ _ |- _ => destruct H as [Hok Hp] end.
    split; [by apply store_ok_create_video_task|exact Hp].
  - intros [new_id|]; [|apply triple_ret; exact HE].
    apply (triple_weaken _ store_ok _ _ (λ _, store_ok) _ store_ok).
    + apply keeps_create_task, keeps_ok_poll_and_send_videos.
    + exact HE.
    + by intros _ d Hd.
    + by intros d Hd.
Qed.

Lemma keeps_grows_regenerate allowed d0 chat_id task_id :
  keeps (grows allowed d0) (callbacks._handle_regenerate e chat_id task_id).
Proof.
  unfold callbacks._handle_regenerate.
  apply keeps_bind; [apply keeps_read_db|].
  intros [[vt p]|]; [|apply keeps_ret].
  apply keeps_bind; [apply keeps_grows_update_video_task|]. intros _.
  apply keeps_bind.
  - apply keeps_try_except; [|keeps_steps].
    apply keeps_bind; [apply keeps_lift|]. intros prompts.
    destruct (callbacks.choose_prompt prompts (vt_prompt_type vt)) as [pd|];
      [|apply keeps_ret].
    destruct (callbacks.is_empty_entry pd); [apply keeps_ret|].
    keeps_steps. eapply grows_step; [apply grows_create_video_task|done].
  - intros [new_id|]; [|apply keeps_ret].
    apply keeps_create_task. unfold handlers._poll_and_send_videos.
    apply keeps_bind; [apply keeps_grows_poll_all|]. intros c.
    apply keeps_bind; [apply keeps_ret|]. intros _.
    destruct (0 <? c); [apply keeps_emit|].
    destruct (0 <? _); [apply keeps_emit|apply keeps_ret].
Qed.

End regenerate_facts.

(** X17. Regeneration rejects first and never takes it back.  For an id
    without a joined row nothing changes.  Otherwise the old job is set to
    rejected before the prompt request, and whatever happens then -- no
    prompt, a prompt without text or type, a refused submission, or a new
    job whose poll in the background runs to its end or raises -- the call
    returns and the old job is still rejected.  A well-formed store stays well-formed, no item is
    added, and every row that was stored keeps its place and identity. *)
Theorem X17_regenerate_rejects_the_old_job (e : env) (chat_id task_id : Z)
    (w : world) :
  store_ok (w_db w) →
  let out := callbacks._handle_regenerate e chat_id task_id w in
  out.1 = Return tt
  ∧ store_ok (w_db out.2)
  ∧ grows [] (w_db w) (w_db out.2)
  ∧ match models.get_task_with_product (w_db w) task_id with
    | Some _ => status_of (w_db out.2) task_id = Some "rejected"
    | None => w_db out.2 = w_db w
    end.
Proof.
  intros Hok out. subst out.
  pose proof (triple_regenerate_rejects e chat_id task_id (w_db w) w
                (conj eq_refl (ok_task_ids _ Hok))) as Hrej.
  pose proof (keeps_ok_regenerate e chat_id task_id w Hok) as Hkeep.
  pose proof (keeps_grows_regenerate e [] (w_db w) chat_id task_id w
                (grows_refl _ _)) as Hgrow.
  destruct (callbacks._handle_regenerate e chat_id task_id w) as [[[]|ex] w'];
    [|done].
  done.
Qed.

Lemma X17_regenerate_witness :
  (callbacks._handle_regenerate C9_env 7 1
     (initial_world (store_with_job C1_created))).1 = Return tt
  ∧ status_of (w_db (callbacks._handle_regenerate C9_env 7 1
                       (initial_world (store_with_job C1_created))).2) 1
    = Some "rejected".
Proof.
  assert (Hok : store_ok (w_db (initial_world (store_with_job C1_created)))).
  { unfold initial_world, store_with_job. cbn [w_db].
    destruct (models.upsert_product _ _ _ _ _ _ _ _ _) as [d1 pid] eqn:Hup.
    apply store_ok_create_video_task.
    - replace d1 with (d1, pid).1 by done. rewrite <- Hup.
      apply store_ok_upsert_product, store_ok_empty.
    - injection Hup as <- <-. eexists. split; [by left|done]. }
  destruct (X17_regenerate_rejects_the_old_job C9_env 7 1
              (initial_world (store_with_job C1_created)) Hok)
    as (Hret & _ & _ & Hrej).
  split; [exact Hret|]. exact Hrej.
Defined.

(** * The queue command *)

Section queue_command_facts.
Variable e : env.

Lemma filter_succeed_fmap (f : video_task_row * product_row → video_task_row * product_row)
    (l : list (video_task_row * product_row)) :
  (∀ r, vt_status (f r).1 = vt_status r.1) →
  filter (λ r, vt_status r.1 = "succeed") (f <$> l)
  = f <$> filter (λ r, vt_status r.1 = "succeed") l.
Proof.
  intros Hf. induction l as [|r l IH]; [done|].
  rewrite fmap_cons, !filter_cons, IH, Hf.
  by destruct (decide (vt_status r.1 = "succeed")).
Qed.

Lemma insert_newest_fmap (f : video_task_row * product_row → video_task_row * product_row)
    r l :
  (∀ r, vt_created_at (f r).1 = vt_created_at r.1) →
  queries.insert_newest (f r) (f <$> l) = f <$> queries.insert_newest r l.
Proof.
  intros Hf. induction l as [|r' l IH]; [done|].
  cbn [fmap list_fmap queries.insert_newest]. rewrite !Hf.
  destruct (sql_text_ge _ _); [done|]. cbn [fmap list_fmap] in *. by rewrite IH.
Qed.

Lemma newest_first_fmap (f : video_task_row * product_row → video_task_row * product_row) l :
  (∀ r, vt_created_at (f r).1 = vt_created_at r.1) →
  foldr queries.insert_newest [] (f <$> l) = f <$> foldr queries.insert_newest [] l.
Proof.
  intros Hf. induction l as [|r l IH]; [done|].
  cbn [fmap list_fmap foldr]. cbn [fmap list_fmap] in IH.
  rewrite IH. by apply insert_newest_fmap.
Qed.

(** An UPDATE that writes no status leaves the queue as it is, entry by
    entry. *)
Lemma queue_after_update d t task_id k :
  models.kwargs_empty k = false → models.set_status k = None →
  queries.get_queue_tasks (models.update_video_task d t task_id k)
  = prod_map (λ vt, if bool_decide (vt_id vt = task_id)
                    then models.apply_task_update t k vt else vt) id
      <$> queries.get_queue_tasks d.
Proof.
  intros Hk Hs. unfold queries.get_queue_tasks.
  rewrite join_after_update by done.
  rewrite filter_succeed_fmap, newest_first_fmap; [done| |].
  - intros [vt p]. cbn. by case_bool_decide.
  - intros [vt p]. cbn. case_bool_decide; [|done]. cbn. by rewrite Hs.
Qed.

Lemma queue_as_update ids d0 d t task_id message_id :
  queue_as ids d0 d →
  queue_as ids d0
    (models.update_video_task d t task_id
       {| models.set_status := None; models.set_video_url := None;
          models.set_telegram_message_id := Some message_id |}).
Proof.
  intros (Hq & Hc & Hp & Hs). split; [|split; [|split]].
  - rewrite queue_after_update by done. rewrite <- list_fmap_compose, <- Hq.
    apply list_fmap_ext. intros i [vt p] _. cbn. by case_bool_decide.
  - unfold models.update_video_task. cbn [models.kwargs_empty models.set_status
      models.set_video_url models.set_telegram_message_id video_tasks].
    rewrite <- list_fmap_compose, <- Hc. apply list_fmap_ext.
    intros i vt _. cbn. by case_bool_decide.
  - done.
  - done.
Qed.

Lemma send_video_for_approval_run ids d0 chat_id task w :
  queue_as ids d0 (w_db w) →
  ∃ w', send_video_for_approval e chat_id task w = (Return tt, w')
        ∧ queue_as ids d0 (w_db w')
        ∧ w_trace w' = w_trace w ++ [Notice (approval_notice e chat_id task)].
Proof.
  intros Hq. unfold send_video_for_approval, approval_notice.
  destruct (vt_video_url task.1) as [url|]; [|by eexists].
  destruct (String.eqb url ""); [by eexists|].
  destruct (send_video e chat_id (vt_id task.1)) as [message_id|]; [|by eexists].
  unfold update_video_task. cbn [models.kwargs_empty models.set_status
    models.set_video_url models.set_telegram_message_id].
  unfold bind, emit, now, write_db. cbn.
  eexists. split; [reflexivity|]. cbn. split; [|done].
  by apply queue_as_update.
Qed.

Lemma send_queue_run ids d0 chat_id tasks : ∀ w,
  queue_as ids d0 (w_db w) →
  ∃ w', foldM (λ _ task, send_video_for_approval e chat_id task ;;
                         emit (Io (klingai.Sleep 1))) tt tasks w
        = (Return tt, w')
        ∧ queue_as ids d0 (w_db w')
        ∧ w_trace w' = w_trace w
            ++ (tasks ≫= λ task, [Notice (approval_notice e chat_id task);
                                  Io (klingai.Sleep 1)]).
Proof.
  induction tasks as [|task tasks IH]; intros w Hq.
  - exists w. cbn. by rewrite app_nil_r.
  - cbn [foldM]. unfold bind at 1. unfold bind at 1.
    destruct (send_video_for_approval_run ids d0 chat_id task w Hq)
      as (w1 & -> & Hq1 & Htr1).
    unfold emit at 1.
    match goal with |- context [foldM _ _ tasks ?w0] =>
      destruct (IH w0 Hq1) as (w2 & -> & Hq2 & Htr2) end.
    exists w2. split; [done|]. split; [done|].
    rewrite Htr2. cbn [w_trace]. rewrite Htr1, bind_cons, <- !app_assoc. done.
Qed.

End queue_command_facts.

(** X18. The queue command shows and leaves alone.  It returns, sends the
    first ten entries of the queue (one notice and one pause of a second
    for each) and changes no job but for the message id and the update
    stamp of the jobs it sent: afterwards the same jobs are waiting in the
    same order, so a second call shows the same ten again -- the jobs
    behind them are reached only after decisions on those in front. *)
Theorem X18_queue_command_leaves_the_queue (e : env) (chat_id : Z) (w : world) :
  let out := callbacks.cmd_queue e chat_id w in
  let shown := take 10 (queries.get_queue_tasks (w_db w)) in
  out.1 = Return tt
  ∧ (vt_id ∘ fst) <$> queries.get_queue_tasks (w_db out.2)
    = (vt_id ∘ fst) <$> queries.get_queue_tasks (w_db w)
  ∧ job_content <$> video_tasks (w_db out.2) = job_content <$> video_tasks (w_db w)
  ∧ products (w_db out.2) = products (w_db w)
  ∧ generation_sessions (w_db out.2) = generation_sessions (w_db w)
  ∧ w_trace out.2
    = w_trace w ++ (shown ≫= λ task, [Notice (approval_notice e chat_id task);
                                      Io (klingai.Sleep 1)])
  ∧ (vt_id ∘ fst <$> take 10 (queries.get_queue_tasks (w_db out.2)))
    = (vt_id ∘ fst <$> shown).
Proof.
  intros out shown. subst out shown.
  change (callbacks.cmd_queue e chat_id w)
    with (foldM (λ _ task, send_video_for_approval e chat_id task ;;
                           emit (Io (klingai.Sleep 1)))
                tt (take 10 (queries.get_queue_tasks (w_db w))) w).
  destruct (send_queue_run e ((vt_id ∘ fst) <$> queries.get_queue_tasks (w_db w))
              (w_db w) chat_id (take 10 (queries.get_queue_tasks (w_db w))) w)
    as (w' & -> & (Hq & Hc & Hp & Hs) & Htr); [done|].
  cbn [fst snd]. split; [done|]. split; [done|]. split; [done|].
  split; [done|]. split; [done|]. split; [done|].
  by rewrite !fmap_take, Hq.
Qed.

(** * The row and the jobs of a manual run *)

Section manual_outcomes.
Variable e : env.
Variable rows0 : list video_task_row.
Variable sessions0 : list session_row.














End manual_outcomes.



(** The same render service under a manual run: the poller dies at the
    second job and the row of the run stays running. *)
Example manual_run_with_a_raising_poll :
  let out := handlers.manual_run raising_poll_env 7 (initial_world empty_db) in
  out.1 = Return tt
  ∧ (vt_status <$> video_tasks (w_db out.2))
    = ["succeed"; "submitted"; "submitted"; "submitted"; "submitted"; "submitted"]
  ∧ session_status (w_db out.2) 1 = Some "running".
Proof. by vm_compute. Qed.

(** * The ids of the items *)

Section item_id_facts.

Lemma foldr_max_nonneg (l : list Z) : 0 <= foldr Z.max 0 l.
Proof. induction l as [|x l IH]; cbn; lia. Qed.

Lemma foldr_max_le (l : list Z) x : x ∈ l → x <= foldr Z.max 0 l.
Proof.
  induction l as [|y l IH]; intros Hin; [by apply elem_of_nil in Hin|].
  apply elem_of_cons in Hin as [->|Hin]; cbn; [lia|].
  specialize (IH Hin). lia.
Qed.

Lemma foldr_max_snoc (l : list Z) x :
  foldr Z.max 0 (l ++ [x]) = Z.max x (foldr Z.max 0 l).
Proof.
  induction l as [|y l IH]; cbn; [lia|]. rewrite IH. lia.
Qed.

Lemma next_product_id_above d p : p ∈ products d → p_id p < next_product_id d.
Proof.
  intros Hin. unfold next_product_id.
  assert (p_id p <= foldr Z.max 0 (p_id <$> products d)); [|lia].
  apply foldr_max_le. by apply list_elem_of_fmap_2.
Qed.

Lemma upsert_product_ids d t cscart_id name category image_url price vendor ai_score :
  let up := models.upsert_product d t cscart_id name category image_url
              price vendor ai_score in
  (p_id <$> products up.1 = p_id <$> products d
   ∨ p_id <$> products up.1 = (p_id <$> products d) ++ [next_product_id d])
  ∧ products_seq up.1 = next_product_id d.
Proof.
  intros up. subst up. unfold models.upsert_product.
  destruct (list_find _ (products d)) as [[i old]|]; cbn [fst products products_seq].
  - split; [|done]. left. rewrite <- list_fmap_compose.
    apply list_fmap_ext. intros j p _. cbn. by destruct (String.eqb _ _).
  - split; [|done]. right. by rewrite fmap_app.
Qed.

Lemma distinct_ids_upsert_product d t cscart_id name category image_url price
    vendor ai_score :
  distinct_ids d →
  distinct_ids (models.upsert_product d t cscart_id name category image_url
                  price vendor ai_score).1.
Proof.
  intros Hd. unfold distinct_ids.
  destruct (upsert_product_ids d t cscart_id name category image_url price
              vendor ai_score) as [[->| ->] _]; [done|].
  apply NoDup_app. split; [done|]. split; [|apply NoDup_singleton].
  intros x Hx Hnew. apply list_elem_of_singleton in Hnew as ->.
  apply list_elem_of_fmap in Hx as (p & Hid & Hp).
  apply next_product_id_above in Hp. lia.
Qed.

End item_id_facts.

Section runs_keep_ids.
Variable e : env.

Lemma distinct_ids_same d d' : products d' = products d → distinct_ids d → distinct_ids d'.
Proof. unfold distinct_ids. by intros ->. Qed.

Lemma keeps_ids_update_session sid k : keeps distinct_ids (update_session sid k).
Proof.
  unfold update_session. apply keeps_write_db. intros d. apply distinct_ids_same.
  unfold models.update_session. by destruct (models.session_kwargs_empty k).
Qed.

Lemma keeps_ids_update_video_task task_id k :
  keeps distinct_ids (update_video_task e task_id k).
Proof.
  unfold update_video_task. keeps_steps.
  match goal with H : distinct_ids _ |- _ => revert H end.
  apply distinct_ids_same. unfold models.update_video_task. cbn [fst].
  by destruct (models.kwargs_empty k).
Qed.

Lemma keeps_ids_save_scored product_map ranking :
  keeps distinct_ids (save_scored e product_map ranking).
Proof. unfold save_scored. keeps_steps. by apply distinct_ids_upsert_product. Qed.

Lemma keeps_ids_create_tasks product_map selected :
  keeps distinct_ids (create_tasks e product_map selected).
Proof.
  unfold create_tasks, tasks_for_selected, product_has_video_today, submit_prompt.
  keeps_steps; try done.
Qed.

Lemma keeps_ids_poll_all recipients announce task_ids :
  keeps distinct_ids (poll_all e recipients announce task_ids).
Proof.
  unfold poll_all. apply triple_foldM. intros completed task_id.
  unfold poll_one. apply keeps_bind; [apply keeps_read_db|].
  intros [task|]; [|apply keeps_ret].
  destruct (vt_klingai_task_id task) as [handle|]; [|apply keeps_ret].
  destruct (String.eqb handle ""); [apply keeps_ret|].
  destruct (klingai.poll_task_until_done _ _ _) as [polled tr].
  apply keeps_bind; [apply keeps_emit_io|]. intros _.
  apply keeps_bind; [apply keeps_lift|]. intros result.
  apply keeps_bind; [|keeps_steps].
  destruct (String.eqb (klingai.r_status result) "succeed").
  - apply keeps_bind; [apply keeps_ids_update_video_task|].
    intros _. apply keeps_bind; [apply keeps_read_db|]. intros twp.
    apply keeps_bind; [|keeps_steps]. destruct twp as [twp|]; [|apply keeps_ret].
    apply triple_foldM. intros _ r. unfold send_video_for_approval.
    destruct (vt_video_url twp.1) as [url|]; [|apply keeps_emit].
    destruct (String.eqb url ""); [apply keeps_emit|].
    destruct (send_video e r _) as [message_id|]; [|apply keeps_emit].
    apply keeps_bind; [apply keeps_emit|]. intros _.
    apply keeps_ids_update_video_task.
  - apply keeps_bind; [apply keeps_ids_update_video_task|]. keeps_steps.
Qed.

Lemma keeps_ids_create_session : keeps distinct_ids (create_session e).
Proof. unfold create_session. keeps_steps; try done. Qed.

Lemma keeps_ids_daily_generation_job :
  keeps distinct_ids (scheduler.daily_generation_job e).
Proof.
  unfold scheduler.daily_generation_job.
  apply keeps_bind; [apply keeps_ids_create_session|]. intros sid.
  apply keeps_try_except.
  - unfold scheduler.job_body.
    apply keeps_bind; [apply keeps_emit|]. intros _.
    apply keeps_bind; [apply keeps_lift|]. intros new_products.
    apply keeps_bind; [apply keeps_lift|]. intros popular_products.
    apply keeps_bind; [apply keeps_ids_update_session|]. intros _.
    destruct (deduplicate new_products popular_products) as [|p all_products].
    { apply keeps_bind; [apply keeps_emit|]. intros _. apply keeps_ids_update_session. }
    apply keeps_bind; [apply keeps_lift|]. intros ranking.
    destruct (select_for_generation _ ranking) as [ranking' selected].
    unfold scheduler.after_curation.
    apply keeps_bind; [apply keeps_ids_update_session|]. intros _.
    apply keeps_bind; [apply keeps_ids_save_scored|]. intros _.
    apply keeps_bind; [apply keeps_ids_create_tasks|]. intros [task_ids total].
    unfold scheduler.finish_run.
    apply keeps_bind; [apply keeps_ids_update_session|]. intros _.
    apply keeps_bind; [apply keeps_emit|]. intros _.
    destruct task_ids.
    + apply keeps_bind; [apply keeps_emit|]. intros _. apply keeps_ids_update_session.
    + apply keeps_bind; [apply keeps_ids_poll_all|]. intros completed.
      apply keeps_bind; [apply keeps_ids_update_session|]. intros _. apply keeps_emit.
  - intros ex. apply keeps_bind; [apply keeps_emit|]. intros _.
    apply keeps_bind; [apply keeps_ids_update_session|]. intros _. apply keeps_emit.
Qed.

Lemma keeps_ids_manual_run chat_id :
  keeps distinct_ids (handlers.manual_run e chat_id).
Proof.
  unfold handlers.manual_run. apply keeps_bind.
  - unfold handlers.cmd_generate. apply keeps_try_except; [|keeps_steps].
    apply keeps_bind; [apply keeps_lift|]. intros new_products.
    apply keeps_bind; [apply keeps_lift|]. intros popular_products.
    destruct (deduplicate new_products popular_products) as [|p all_products].
    { keeps_steps. }
    apply keeps_bind; [apply keeps_emit|]. intros _.
    apply keeps_bind; [apply keeps_lift|]. intros ranking.
    destruct (select_for_generation _ ranking) as [ranking' selected].
    unfold handlers.generate_after_curation.
    apply keeps_bind; [apply keeps_ids_create_session|]. intros sid.
    apply keeps_bind; [apply keeps_ids_update_session|]. intros _.
    apply keeps_bind; [apply keeps_ids_save_scored|]. intros _.
    apply keeps_bind; [apply keeps_emit|]. intros _.
    apply keeps_bind; [apply keeps_ids_create_tasks|]. intros [tasks_created total].
    apply keeps_bind; [apply keeps_ids_update_session|]. intros _.
    apply keeps_bind; [apply keeps_emit|]. intros _.
    destruct tasks_created; [|apply keeps_ret].
    apply keeps_bind; [apply keeps_emit|]. intros _.
    apply keeps_bind; [apply keeps_ids_update_session|]. intros _. apply keeps_ret.
  - intros [[task_ids sid]|]; [|apply keeps_ret].
    apply keeps_create_task. unfold handlers._poll_and_send_videos.
    apply keeps_bind; [apply keeps_ids_poll_all|]. intros completed.
    apply keeps_bind.
    + destruct (sid =? 0); [apply keeps_ret|apply keeps_ids_update_session].
    + intros _. destruct (0 <? completed); [apply keeps_emit|].
      destruct (0 <? _); [apply keeps_emit|apply keeps_ret].
Qed.

End runs_keep_ids.

(** X20. The ids of the items are never reused. An upsert takes the next
    number of the sequence, which is above the sequence value and above
    every id in the table, whether the catalog id is new or known: a new
    item gets that number as its id, for a known item the number is used
    up and the item keeps its old id, so the id of the next new item is
    one more for every upsert made before it. Items with distinct ids
    keep distinct ids under an upsert and under a whole scheduled or
    manual run. *)
Theorem X20_item_ids_are_never_reused (e : env) (w : world) (chat_id : Z)
    (t : datetime) (cscart_id name : string) (category image_url : option string)
    (price : option Q) (vendor : option string) (ai_score : Q) :
  distinct_ids (w_db w) →
  let d := w_db w in
  let up := models.upsert_product d t cscart_id name category image_url
              price vendor ai_score in
  (∀ p, p ∈ products d → p_id p < next_product_id d)
  ∧ products_seq d < next_product_id d
  ∧ products_seq up.1 = next_product_id d
  ∧ next_product_id up.1 = next_product_id d + 1
  ∧ match models.get_product_by_cscart_id d cscart_id with
    | Some old => up.2 = p_id old
    | None => up.2 = next_product_id d
    end
  ∧ distinct_ids up.1
  ∧ distinct_ids (w_db (scheduler.daily_generation_job e w).2)
  ∧ distinct_ids (w_db (handlers.manual_run e chat_id w).2).
Proof.
  intros Hd d up. subst d.
  destruct (upsert_product_ids (w_db w) t cscart_id name category image_url price
              vendor ai_score) as [Hids Hseq].
  fold up in Hids, Hseq.
  split; [apply next_product_id_above|].
  split; [unfold next_product_id; lia|].
  split; [done|]. split; [|split; [|split; [|split]]].
  - unfold next_product_id at 1. rewrite Hseq.
    pose proof (foldr_max_nonneg (p_id <$> products (w_db w))) as Hnn.
    destruct Hids as [-> | ->].
    + unfold next_product_id. lia.
    + rewrite foldr_max_snoc. unfold next_product_id. lia.
  - unfold models.get_product_by_cscart_id. subst up.
    destruct (list_find (λ p, p_cscart_id p = cscart_id) (products (w_db w)))
      as [[i old]|] eqn:Hfind.
    + by destruct (upsert_product_known (w_db w) t cscart_id name category
                     image_url price vendor ai_score i old Hfind) as [-> _].
    + by destruct (upsert_product_new (w_db w) t cscart_id name category
                     image_url price vendor ai_score Hfind) as [-> _].
  - by apply distinct_ids_upsert_product.
  - pose proof (keeps_ids_daily_generation_job e w Hd) as H.
    by destruct (scheduler.daily_generation_job e w) as [[[]|ex] w'].
  - pose proof (keeps_ids_manual_run e chat_id w Hd) as H.
    by destruct (handlers.manual_run e chat_id w) as [[[]|ex] w'].
Qed.

Lemma X20_item_ids_witness :
  distinct_ids store_with_gap
  ∧ (models.upsert_product store_with_gap (mk_datetime 2026 11 3 4 0 0 0)
       "b" "Item" None None None None 0%Q).2 = 4
  ∧ distinct_ids (models.upsert_product store_with_gap (mk_datetime 2026 11 3 4 0 0 0)
                    "b" "Item" None None None None 0%Q).1.
Proof.
  assert (Hd : distinct_ids (w_db (initial_world store_with_gap))).
  { unfold distinct_ids. cbn. apply NoDup_cons. split; [|apply NoDup_singleton].
    intros Hin. by apply list_elem_of_singleton in Hin. }
  split; [exact Hd|].
  destruct (X20_item_ids_are_never_reused C9_env (initial_world store_with_gap) 7
              (mk_datetime 2026 11 3 4 0 0 0) "b" "Item" None None None None 0%Q Hd)
    as (_ & _ & _ & _ & Hid & Hdist & _).
  split; [exact Hid|exact Hdist].
Defined.

(** Upserts of known items use up numbers: after a, b, a, a the item c
    gets id 5, and after a, a the item b gets id 3. *)
Example upserts_use_up_ids :
  (λ p, (p_cscart_id p, p_id p))
    <$> products (upsert_all empty_db (mk_datetime 2026 11 3 4 0 0 0)
                    ["a"; "b"; "a"; "a"; "c"])
  = [("a", 1); ("b", 2); ("c", 5)]
  ∧ (λ p, (p_cscart_id p, p_id p))
      <$> products (upsert_all empty_db (mk_datetime 2026 11 3 4 0 0 0)
                      ["a"; "a"; "b"])
    = [("a", 1); ("b", 3)].
Proof. by vm_compute. Qed.
